(** * Maildir save transactions, the index record array and the auth
      multiplexer: a shallow embedding with its properties.

    Sources embedded here:
    - [src/lib-storage/index/maildir/maildir-save.c] (the save transaction,
      followed in the same file by the index record array functions
      [compress], [mail_index_expunge_record_range], [mail_index_lookup],
      [mail_index_lookup_uid_range]);
    - [src/login-common/auth-connection.c] (the auth multiplexer).

    C [unsigned int] values are [Z] with the wrap-around modulo 2^32 written
    out ([u32]); pointers into the record array are array indices; the heap
    of connections and requests is a finite map from addresses. *)

From Stdlib Require Import Ascii.
From stdpp Require Import base numbers option list gmap strings pretty.

Local Open Scope Z_scope.

(** ** Machine integers and outcomes *)

Definition u32 (z : Z) : Z := z mod 2 ^ 32.

(** What a call can end in besides returning: a failed [i_assert] (the
    process panics), a read outside the mapped record array, or the model's
    loop budget running out. *)
Inductive result (A : Type) : Type :=
| Ret (a : A)
| AssertFail
| BadRead
| NoFuel.
Arguments Ret {A} a.
Arguments AssertFail {A}.
Arguments BadRead {A}.
Arguments NoFuel {A}.

Definition rbind {A B : Type} (m : result A) (k : A -> result B) : result B :=
  match m with
  | Ret a => k a
  | AssertFail => AssertFail
  | BadRead => BadRead
  | NoFuel => NoFuel
  end.

Notation "x <-- m ;; k" := (rbind m (fun x => k))
  (at level 100, m at next level, right associativity).

Definition i_assert (b : bool) : result unit :=
  if b then Ret tt else AssertFail.

(** ** The index record array *)

Module MailIndex.

Record mail_index_record := MkRec { uid : Z; msg_flags : Z }.

Inductive mail_lock_type := MAIL_LOCK_UNLOCK | MAIL_LOCK_SHARED | MAIL_LOCK_EXCLUSIVE.

Definition lock_eqb (a b : mail_lock_type) : bool :=
  match a, b with
  | MAIL_LOCK_UNLOCK, MAIL_LOCK_UNLOCK => true
  | MAIL_LOCK_SHARED, MAIL_LOCK_SHARED => true
  | MAIL_LOCK_EXCLUSIVE, MAIL_LOCK_EXCLUSIVE => true
  | _, _ => false
  end.

(** [records] is the array behind [INDEX_RECORD_AT(index, 0)]; its length is
    [MAIL_INDEX_RECORD_COUNT(index)].  [flag_changes] collects the calls of
    [mail_index_mark_flag_changes] as (uid, old flags, new flags). *)
Record mail_index := MkIndex {
  lock_type : mail_lock_type;
  messages_count : Z;
  used_file_size : Z;
  mmap_used_length : Z;
  records : list mail_index_record;
  flag_changes : list (Z * Z * Z)
}.

(** Modelled from the spec: the macro [MAIL_INDEX_RECORD_COUNT] is declared
    in a header outside the sources; the record array is dense and its
    length is the record count. *)
Definition MAIL_INDEX_RECORD_COUNT (index : mail_index) : Z :=
  Z.of_nat (length (records index)).

(** [rec_p[idx]]: a read outside the array is not a value. *)
Definition rec_at (recs : list mail_index_record) (idx : Z) : result mail_index_record :=
  if idx <? 0 then BadRead
  else match recs !! Z.to_nat idx with
       | Some r => Ret r
       | None => BadRead
       end.

(** [mail_index_lookup]: [seq] is one-based. *)
Definition mail_index_lookup (index : mail_index) (seq : Z)
  : result (option mail_index_record) :=
  _ <-- i_assert (negb (lock_eqb (lock_type index) MAIL_LOCK_UNLOCK)) ;;
  _ <-- i_assert (seq >? 0) ;;
  if seq >? messages_count index then Ret None
  else r <-- rec_at (records index) (seq - 1) ;; Ret (Some r).

(** The [while (left_idx < right_idx)] loop of
    [mail_index_lookup_uid_range]; it returns the last value of [idx]. *)
Fixpoint uid_search (fuel : nat) (recs : list mail_index_record)
    (first_uid idx left_idx right_idx : Z) : result Z :=
  if left_idx <? right_idx then
    match fuel with
    | O => NoFuel
    | S fuel' =>
        let idx := u32 (left_idx + right_idx) / 2 in
        r <-- rec_at recs idx ;;
        if uid r <? first_uid then
          uid_search fuel' recs first_uid idx (u32 (idx + 1)) right_idx
        else if uid r >? first_uid then
          uid_search fuel' recs first_uid idx left_idx idx
        else Ret idx
    end
  else Ret idx.

(** [mail_index_lookup_uid_range]: the record found and its one-based
    sequence number, or [(None, 0)] for [NULL] with [*seq_r = 0]. *)
Definition mail_index_lookup_uid_range (index : mail_index) (first_uid last_uid : Z)
  : result (option mail_index_record * Z) :=
  _ <-- i_assert (negb (lock_eqb (lock_type index) MAIL_LOCK_UNLOCK)) ;;
  _ <-- i_assert (first_uid >? 0) ;;
  _ <-- i_assert (first_uid <=? last_uid) ;;
  let rec_p := records index in
  let idx_limit := MAIL_INDEX_RECORD_COUNT index in
  idx <-- uid_search (S (length rec_p)) rec_p first_uid 0 0 idx_limit ;;
  r <-- rec_at rec_p idx ;;
  if (uid r <? first_uid) || (uid r >? last_uid) then
    let idx := u32 (idx + 1) in
    if idx =? idx_limit then Ret (None, 0)
    else
      r' <-- rec_at rec_p idx ;;
      if (uid r' <? first_uid) || (uid r' >? last_uid) then Ret (None, 0)
      else Ret (Some r', u32 (idx + 1))
  else Ret (Some r, u32 (idx + 1)).

(** [memmove(base + dst, base + src, n)] with [n] counted in elements. *)
Definition memmove {A : Type} (l : list A) (dst src n : nat) : list A :=
  take dst l ++ take n (drop src l) ++ drop (dst + n) l.

Section Expunge.

(** [sizeof(struct mail_index_record)] and the value returned by
    [mail_index_truncate], both defined outside the sources. *)
Variable sizeof_rec : Z.
Variable truncate_ret : Z.

(** [compress]: the tail is moved down over the removed range and the used
    lengths shrink by [count] records, so that the last [count] slots fall
    outside the array. *)
Definition compress (index : mail_index) (remove_first_idx remove_last_idx : Z)
  : Z * mail_index :=
  let idx_limit := MAIL_INDEX_RECORD_COUNT index in
  let count := u32 (remove_last_idx - remove_first_idx + 1) in
  let moved := memmove (records index) (Z.to_nat remove_first_idx)
                 (Z.to_nat (remove_last_idx + 1))
                 (Z.to_nat (u32 (idx_limit - remove_last_idx - 1))) in
  (truncate_ret,
   {| lock_type := lock_type index;
      messages_count := messages_count index;
      used_file_size := used_file_size index - sizeof_rec * count;
      mmap_used_length := mmap_used_length index - sizeof_rec * count;
      records := take (length moved - Z.to_nat count) moved;
      flag_changes := flag_changes index |}).

(** The [for (rec = first_rec; rec <= last_rec; rec++)] loop: one
    notification [msg_flags -> 0] per expunged record. *)
Definition mark_expunged (recs : list mail_index_record) (first_idx last_idx : Z)
  : list (Z * Z * Z) :=
  (fun r => (uid r, msg_flags r, 0)) <$>
    take (Z.to_nat (last_idx - first_idx + 1)) (drop (Z.to_nat first_idx) recs).

(** [mail_index_expunge_record_range]; the two records are given by their
    indices [INDEX_RECORD_INDEX(index, rec)]. *)
Definition mail_index_expunge_record_range (index : mail_index)
    (first_idx last_idx : Z) : result (Z * mail_index) :=
  _ <-- i_assert (lock_eqb (lock_type index) MAIL_LOCK_EXCLUSIVE) ;;
  let idx_limit := MAIL_INDEX_RECORD_COUNT index in
  _ <-- i_assert (first_idx <=? last_idx) ;;
  _ <-- i_assert (last_idx <? idx_limit) ;;
  let index1 :=
    {| lock_type := lock_type index;
       messages_count := u32 (messages_count index - u32 (last_idx - first_idx + 1));
       used_file_size := used_file_size index;
       mmap_used_length := mmap_used_length index;
       records := records index;
       flag_changes := flag_changes index
                       ++ mark_expunged (records index) first_idx last_idx |} in
  Ret (compress index1 first_idx last_idx).

End Expunge.

(** Strictly increasing UIDs, as a check on neighbours. *)
Fixpoint uids_increasing (recs : list mail_index_record) : bool :=
  match recs with
  | [] => true
  | r :: rest =>
      match rest with
      | [] => true
      | r' :: _ => (uid r <? uid r') && uids_increasing rest
      end
  end.

(** The sequence number of a record is its one-based position. *)
Definition record_at_seq (index : mail_index) (seq : Z) : option mail_index_record :=
  if seq <=? 0 then None else records index !! Z.to_nat (seq - 1).

Definition in_range (first_uid last_uid : Z) (r : mail_index_record) : Prop :=
  first_uid <= uid r <= last_uid.

Definition mk_index (recs : list mail_index_record) : mail_index :=
  {| lock_type := MAIL_LOCK_EXCLUSIVE;
     messages_count := Z.of_nat (length recs);
     used_file_size := 0;
     mmap_used_length := 0;
     records := recs;
     flag_changes := [] |}.

(** [L] splits the array around [first_uid]: strictly smaller UIDs before
    position [L], strictly larger ones from [L] on. *)
Definition splits (recs : list mail_index_record) (first_uid L : Z) : Prop :=
  0 <= L <= Z.of_nat (length recs) /\
  forall (i : nat) r, recs !! i = Some r ->
    (Z.of_nat i < L -> uid r < first_uid) /\ (L <= Z.of_nat i -> first_uid < uid r).

(** What [mail_index_lookup_uid_range] owes its caller: the record with
    the smallest sequence number whose UID is in the range, with that
    sequence number, or [(None, 0)] when no record is in the range. *)
Definition lookup_post (index : mail_index) (first_uid last_uid : Z)
    (res : option mail_index_record * Z) : Prop :=
  match res with
  | (Some r, seq) =>
      record_at_seq index seq = Some r /\ in_range first_uid last_uid r /\
      forall seq' r', record_at_seq index seq' = Some r' ->
                      in_range first_uid last_uid r' -> seq <= seq'
  | (None, seq) =>
      seq = 0 /\ forall r, r ∈ records index -> ~ in_range first_uid last_uid r
  end.

End MailIndex.

(** ** The maildir save transaction *)

Module MaildirSave.

Local Open Scope string_scope.
Local Open Scope Z_scope.

(** *** The world around the save code *)

(** [errno] values and the [ENOSPACE] test; the numbers are those of
    Linux, the test is the one of the library's compatibility header. *)
Definition ENOENT : Z := 2.
Definition EEXIST : Z := 17.
Definition ENOSPC : Z := 28.
Definition EDQUOT : Z := 122.

Definition ENOSPACE (e : Z) : bool := (e =? ENOSPC) || (e =? EDQUOT).

Inductive syscall :=
| SysOpen (path : string)
| SysLink (oldpath newpath : string)
| SysUnlink (path : string)
| SysUtime (path : string)
| SysFsync (fd : Z)
| SysClose (fd : Z)
| SysWrite (fd : Z).

(** What the code does to the outside, in the order it does it. *)
Inductive event :=
| EvOpen (path : string) (err : Z)
| EvLink (oldpath newpath : string) (err : Z)
| EvUnlink (path : string) (err : Z)
| EvUtime (path : string) (actime modtime err : Z)
| EvFsync (fd err : Z)
| EvClose (fd err : Z)
| EvWrite (fd : Z) (data : string) (err : Z)
| EvSyncNext (fname : string) (flags ret : Z)
| EvSetError (msg : string)
| EvSetCritical (msg : string).

Record file := MkFile { f_data : string; f_atime : Z; f_mtime : Z }.

(** The file system is a map from paths to files; [fault] is the errno a
    system call is made to fail with (0 for none); [ext] is the state of
    the collaborators that are outside the sources (UID list, index,
    index transaction, unique-name generator). *)
Record world (X : Type) := MkWorld {
  fs : gmap string file;
  fds : gmap Z string;
  next_fd : Z;
  errno : Z;
  ioloop_time : Z;
  environ : list (string * string);
  fault : syscall -> Z;
  trace : list event;
  ext : X
}.
Arguments MkWorld {X}.
Arguments fs {X}.
Arguments fds {X}.
Arguments next_fd {X}.
Arguments errno {X}.
Arguments ioloop_time {X}.
Arguments environ {X}.
Arguments fault {X}.
Arguments trace {X}.
Arguments ext {X}.

(** The collaborators the save code calls and that are not in the
    sources.  Each one is a function on their own state [X]. *)
Class Collaborators (X : Type) := {
  MAIL_RECENT : Z;
  MAILDIR_UIDLIST_REC_FLAG_NEW_DIR : Z;
  MAILDIR_UIDLIST_REC_FLAG_RECENT : Z;
  maildir_filename_set_flags : string -> Z -> string;
  maildir_unique_name : X -> string * X;
  o_stream_filter : bool -> string -> string;
  mail_index_append : X -> Z * X;
  mail_index_update_flags : Z -> Z -> X -> X;
  maildir_uidlist_lock : X -> Z * X;
  maildir_sync_index : X -> Z * X;
  maildir_uidlist_get_next_uid : X -> Z;
  mail_index_append_assign_uids : Z -> X -> Z * X;
  maildir_uidlist_sync_init : X -> X;
  maildir_uidlist_sync_next : string -> Z -> X -> Z * X;
  maildir_uidlist_sync_deinit : X -> Z * X;
  index_mail_next : Z -> X -> Z * X
}.

Section Save.

Context {X : Type} `{Collaborators X}.

(** A computation on the world that may panic. *)
Definition M (A : Type) : Type := world X -> result (A * world X).

Definition mret {A : Type} (a : A) : M A := fun w => Ret (a, w).

Definition mbind {A B : Type} (m : M A) (k : A -> M B) : M B :=
  fun w => match m w with
           | Ret (a, w') => k a w'
           | AssertFail => AssertFail
           | BadRead => BadRead
           | NoFuel => NoFuel
           end.

Notation "x <~ m ;; k" := (mbind m (fun x => k))
  (at level 100, m at next level, right associativity).

Definition m_assert (b : bool) : M unit :=
  fun w => if b then Ret (tt, w) else AssertFail.

(** A [NULL] pointer is followed. *)
Definition null_deref {A : Type} : M A := fun _ => BadRead.

Definition set_fs (v : gmap string file) (w : world X) : world X :=
  MkWorld v (fds w) (next_fd w) (errno w) (ioloop_time w) (environ w) (fault w)
          (trace w) (ext w).
Definition set_fds (v : gmap Z string) (w : world X) : world X :=
  MkWorld (fs w) v (next_fd w) (errno w) (ioloop_time w) (environ w) (fault w)
          (trace w) (ext w).
Definition set_next_fd (v : Z) (w : world X) : world X :=
  MkWorld (fs w) (fds w) v (errno w) (ioloop_time w) (environ w) (fault w)
          (trace w) (ext w).
Definition set_errno (v : Z) (w : world X) : world X :=
  MkWorld (fs w) (fds w) (next_fd w) v (ioloop_time w) (environ w) (fault w)
          (trace w) (ext w).
Definition set_ext (v : X) (w : world X) : world X :=
  MkWorld (fs w) (fds w) (next_fd w) (errno w) (ioloop_time w) (environ w) (fault w)
          (trace w) v.
Definition log (e : event) (w : world X) : world X :=
  MkWorld (fs w) (fds w) (next_fd w) (errno w) (ioloop_time w) (environ w) (fault w)
          (trace w ++ [e]) (ext w).

(** A collaborator that returns a value, one that returns none, and one
    that only reads. *)
Definition call {A : Type} (f : X -> A * X) : M A :=
  fun w => let '(a, x) := f (ext w) in Ret (a, set_ext x w).
Definition call_ (f : X -> X) : M unit :=
  fun w => Ret (tt, set_ext (f (ext w)) w).
Definition ask {A : Type} (f : X -> A) : M A :=
  fun w => Ret (f (ext w), w).

Definition get_errno : M Z := fun w => Ret (errno w, w).
Definition put_errno (e : Z) : M unit := fun w => Ret (tt, set_errno e w).

Definition mail_storage_set_error (msg : string) : M unit :=
  fun w => Ret (tt, log (EvSetError msg) w).
Definition mail_storage_set_critical (msg : string) : M unit :=
  fun w => Ret (tt, log (EvSetCritical msg) w).

(** *** System calls *)

(** [link(2)]: fails when made to, when the source is missing and when the
    destination exists. *)
Definition sys_link (oldpath newpath : string) : M Z := fun w =>
  let inject := fault w (SysLink oldpath newpath) in
  let outcome :=
    if negb (inject =? 0) then inl inject
    else match fs w !! oldpath with
         | None => inl ENOENT
         | Some f => match fs w !! newpath with
                     | Some _ => inl EEXIST
                     | None => inr f
                     end
         end in
  match outcome with
  | inl e => Ret (-1, log (EvLink oldpath newpath e) (set_errno e w))
  | inr f => Ret (0, log (EvLink oldpath newpath 0) (set_fs (<[newpath := f]> (fs w)) w))
  end.

Definition sys_unlink (path : string) : M Z := fun w =>
  let inject := fault w (SysUnlink path) in
  let e := if negb (inject =? 0) then inject
           else match fs w !! path with None => ENOENT | Some _ => 0 end in
  if e =? 0 then Ret (0, log (EvUnlink path 0) (set_fs (delete path (fs w)) w))
  else Ret (-1, log (EvUnlink path e) (set_errno e w)).

Definition sys_utime (path : string) (actime modtime : Z) : M Z := fun w =>
  let inject := fault w (SysUtime path) in
  let outcome :=
    if negb (inject =? 0) then inl inject
    else match fs w !! path with None => inl ENOENT | Some f => inr f end in
  match outcome with
  | inl e => Ret (-1, log (EvUtime path actime modtime e) (set_errno e w))
  | inr f => Ret (0, log (EvUtime path actime modtime 0)
                       (set_fs (<[path := MkFile (f_data f) actime modtime]> (fs w)) w))
  end.

Definition sys_fsync (fd : Z) : M Z := fun w =>
  let e := fault w (SysFsync fd) in
  if e =? 0 then Ret (0, log (EvFsync fd 0) w)
  else Ret (-1, log (EvFsync fd e) (set_errno e w)).

Definition sys_close (fd : Z) : M Z := fun w =>
  let e := fault w (SysClose fd) in
  if e =? 0 then Ret (0, log (EvClose fd 0) (set_fds (delete fd (fds w)) w))
  else Ret (-1, log (EvClose fd e) (set_errno e w)).

(** *** Temp files and streams *)

(** Modelled from the spec: [maildir_create_tmp] is outside the sources;
    it returns a newly created file with a unique basename under [dir],
    opened for writing, or -1, and on failure it records "Not enough disk
    space" for a space-exhaustion error and a critical error otherwise. *)
Definition maildir_create_tmp (dir : string) (mode : Z) : M (Z * string) := fun w =>
  let '(name, x) := maildir_unique_name (ext w) in
  let w := set_ext x w in
  let path := dir +:+ "/" +:+ name in
  let inject := fault w (SysOpen path) in
  let e := if negb (inject =? 0) then inject
           else match fs w !! path with Some _ => EEXIST | None => 0 end in
  if e =? 0 then
    let fd := next_fd w in
    Ret ((fd, path),
         log (EvOpen path 0)
           (set_next_fd (fd + 1)
              (set_fds (<[fd := path]> (fds w))
                 (set_fs (<[path := MkFile EmptyString 0 0]> (fs w)) w))))
  else
    let w := log (EvOpen path e) (set_errno e w) in
    Ret ((-1, path),
         log (if ENOSPACE e then EvSetError "Not enough disk space"
              else EvSetCritical "open() failed") w).

(** An output stream on a descriptor; [os_crlf] tells the LF to CRLF
    filter ([o_stream_create_crlf]) from the other one
    ([o_stream_create_lf]). *)
Record ostream := MkOstream { os_fd : Z; os_crlf : bool; stream_errno : Z }.

(** Modelled from the spec: [o_stream_send_istream] is outside the
    sources; it moves the rest of the input through the stream's filter
    into the file, or fails with the stream's errno set and nothing
    moved.  The result is the return value, the stream and what is left
    of the input. *)
Definition o_stream_send_istream (out : ostream) (input : string)
  : M (Z * ostream * string) := fun w =>
  let e := fault w (SysWrite (os_fd out)) in
  if e =? 0 then
    let data := o_stream_filter (os_crlf out) input in
    let fs' := match fds w !! os_fd out with
               | Some path =>
                   match fs w !! path with
                   | Some f => <[path := MkFile (f_data f +:+ data) (f_atime f) (f_mtime f)]> (fs w)
                   | None => fs w
                   end
               | None => fs w
               end in
    Ret ((0, out, EmptyString), log (EvWrite (os_fd out) data 0) (set_fs fs' w))
  else
    Ret ((-1, MkOstream (os_fd out) (os_crlf out) e, input),
         log (EvWrite (os_fd out) EmptyString e) (set_errno e w)).

(** [getenv]. *)
Fixpoint getenv (name : string) (env : list (string * string)) : option string :=
  match env with
  | [] => None
  | (k, v) :: rest => if String.eqb k name then Some v else getenv name rest
  end.

(** [strrchr(path, '/')] followed by [fname++]: what follows the last
    slash, or nothing when there is no slash. *)
Fixpoint after_last_slash (path : string) : option string :=
  match path with
  | EmptyString => None
  | String c rest =>
      match after_last_slash rest with
      | Some tail => Some tail
      | None => if Ascii.eqb c "/"%char then Some rest else None
      end
  end.

(** *** The save context *)

Record maildir_filename := MkFilename { basename : string; dest : option string }.

(** The fields of [struct index_mailbox] the save code reads. *)
Record index_mailbox := MkIbox {
  ibox_path : string;
  keep_recent : bool;
  mail_create_mode : Z
}.

(** [files] is the chain of [next] pointers starting at [ctx->files];
    [output] is [None] for [NULL]. *)
Record maildir_save_context := MkCtx {
  ibox : index_mailbox;
  tmpdir : string;
  newdir : string;
  curdir : string;
  files : list maildir_filename;
  input : string;
  output : option ostream;
  fd : Z;
  received_date : Z;
  seq : Z;
  save_crlf : bool;
  failed : bool
}.

Record maildir_transaction_context := MkTrans {
  t_ibox : index_mailbox;
  save_ctx : option maildir_save_context
}.

Definition set_files (v : list maildir_filename) (c : maildir_save_context) :=
  MkCtx (ibox c) (tmpdir c) (newdir c) (curdir c) v (input c) (output c) (fd c)
        (received_date c) (seq c) (save_crlf c) (failed c).
Definition set_input (v : string) (c : maildir_save_context) :=
  MkCtx (ibox c) (tmpdir c) (newdir c) (curdir c) (files c) v (output c) (fd c)
        (received_date c) (seq c) (save_crlf c) (failed c).
Definition set_output (v : option ostream) (c : maildir_save_context) :=
  MkCtx (ibox c) (tmpdir c) (newdir c) (curdir c) (files c) (input c) v (fd c)
        (received_date c) (seq c) (save_crlf c) (failed c).
Definition set_fd (v : Z) (c : maildir_save_context) :=
  MkCtx (ibox c) (tmpdir c) (newdir c) (curdir c) (files c) (input c) (output c) v
        (received_date c) (seq c) (save_crlf c) (failed c).
Definition set_received_date (v : Z) (c : maildir_save_context) :=
  MkCtx (ibox c) (tmpdir c) (newdir c) (curdir c) (files c) (input c) (output c) (fd c)
        v (seq c) (save_crlf c) (failed c).
Definition set_seq (v : Z) (c : maildir_save_context) :=
  MkCtx (ibox c) (tmpdir c) (newdir c) (curdir c) (files c) (input c) (output c) (fd c)
        (received_date c) v (save_crlf c) (failed c).
Definition set_failed (v : bool) (c : maildir_save_context) :=
  MkCtx (ibox c) (tmpdir c) (newdir c) (curdir c) (files c) (input c) (output c) (fd c)
        (received_date c) (seq c) (save_crlf c) v.

(** Where a staged file is published: [new/basename] without a
    destination name, [cur/dest] with one. *)
Definition dest_path (ctx : maildir_save_context) (mf : maildir_filename) : string :=
  match dest mf with
  | None => newdir ctx +:+ "/" +:+ basename mf
  | Some d => curdir ctx +:+ "/" +:+ d
  end.

Definition tmp_path (ctx : maildir_save_context) (mf : maildir_filename) : string :=
  tmpdir ctx +:+ "/" +:+ basename mf.

(** The [link] calls and the names given to the UID-list sync session
    that a trace holds, in the order they were made. *)
Definition links_of (tr : list event) : list (string * string * Z) :=
  omap (fun e => match e with
                 | EvLink a b err => Some (a, b, err)
                 | _ => None
                 end) tr.

Definition synced_of (tr : list event) : list string :=
  omap (fun e => match e with
                 | EvSyncNext fname _ _ => Some fname
                 | _ => None
                 end) tr.

(** The name a staged file is known by in the UID list. *)
Definition uidlist_name (mf : maildir_filename) : string :=
  match dest mf with Some d => d | None => basename mf end.

(** The staged files of a transaction, head of the chain first. *)
Definition staged (t : maildir_transaction_context) : list maildir_filename :=
  match save_ctx t with Some c => files c | None => [] end.

(** *** The functions of maildir-save.c *)

Definition maildir_file_move (ctx : maildir_save_context) (base : string)
    (dst : option string) : M Z :=
  let tmp := tmpdir ctx +:+ "/" +:+ base in
  let new := match dst with
             | None => newdir ctx +:+ "/" +:+ base
             | Some d => curdir ctx +:+ "/" +:+ d
             end in
  r <~ sys_link tmp new ;;
  ret <~ (if r =? 0 then mret 0
          else
            e <~ get_errno ;;
            _ <~ (if ENOSPACE e then mail_storage_set_error "Not enough disk space"
                  else mail_storage_set_critical "link() failed") ;;
            mret (-1)) ;;
  u <~ sys_unlink tmp ;;
  e <~ get_errno ;;
  _ <~ (if (u <? 0) && negb (e =? ENOENT)
        then mail_storage_set_critical "unlink() failed" else mret tt) ;;
  mret ret.

(** [p_new] zero-fills the context; [save_crlf] is read from the
    environment here and nowhere else. *)
Definition maildir_transaction_save_init (t : maildir_transaction_context)
  : M maildir_save_context := fun w =>
  Ret ({| ibox := t_ibox t;
          tmpdir := ibox_path (t_ibox t) +:+ "/tmp";
          newdir := ibox_path (t_ibox t) +:+ "/new";
          curdir := ibox_path (t_ibox t) +:+ "/cur";
          files := [];
          input := EmptyString;
          output := None;
          fd := 0;
          received_date := 0;
          seq := 0;
          save_crlf := match getenv "MAIL_SAVE_CRLF" (environ w) with
                       | Some _ => true
                       | None => false
                       end;
          failed := false |}, w).

(** [maildir_save_init]; the result is the transaction with its save
    context, which is what the returned pointer gives access to. *)
Definition maildir_save_init (t : maildir_transaction_context) (flags : Z)
    (received : Z) (inp : string) : M maildir_transaction_context :=
  ctx <~ (match save_ctx t with
          | None => maildir_transaction_save_init t
          | Some c => mret c
          end) ;;
  p <~ maildir_create_tmp (tmpdir ctx) (mail_create_mode (t_ibox t)) ;;
  let ctx := set_fd (fst p) ctx in
  if fd ctx =? -1 then
    mret (MkTrans (t_ibox t) (Some (set_failed true ctx)))
  else
    match after_last_slash (snd p) with
    | None => fun _ => AssertFail
    | Some fname =>
        let ctx := set_input inp (set_received_date received ctx) in
        let ctx := set_output (Some (MkOstream (fd ctx) (save_crlf ctx) 0)) ctx in
        let mail_flags :=
          Z.lor (Z.land flags (Z.lnot MAIL_RECENT))
                (if keep_recent (t_ibox t) then MAIL_RECENT else 0) in
        let dest_fname :=
          if mail_flags =? MAIL_RECENT then None
          else Some (maildir_filename_set_flags fname mail_flags) in
        let mf := MkFilename fname dest_fname in
        let ctx := set_files (mf :: files ctx) ctx in
        s <~ call mail_index_append ;;
        let ctx := set_seq s ctx in
        _ <~ call_ (mail_index_update_flags (seq ctx) mail_flags) ;;
        mret (MkTrans (t_ibox t) (Some (set_failed false ctx)))
    end.

Definition maildir_save_continue (ctx : maildir_save_context)
  : M (Z * maildir_save_context) :=
  if failed ctx then mret (-1, ctx)
  else
    match output ctx with
    | None => null_deref
    | Some out =>
        r <~ o_stream_send_istream out (input ctx) ;;
        let '(ret, out', rest) := r in
        let ctx := set_input rest (set_output (Some out') ctx) in
        if ret <? 0 then mret (-1, set_failed true ctx)
        else mret (0, ctx)
    end.

(** [maildir_save_finish]; [want_mail] stands for [mail_r != NULL]. *)
Definition maildir_save_finish (ctx : maildir_save_context) (want_mail : bool)
  : M (Z * maildir_save_context) :=
  if failed ctx && (fd ctx =? -1) then mret (-1, ctx)
  else
    match files ctx with
    | [] => null_deref
    | mf :: rest =>
        let path := tmpdir ctx +:+ "/" +:+ basename mf in
        ctx <~ (if negb (received_date ctx =? -1) then
                  now <~ (fun w => Ret (ioloop_time w, w)) ;;
                  r <~ sys_utime path now (received_date ctx) ;;
                  if r <? 0 then
                    _ <~ mail_storage_set_critical "utime() failed" ;;
                    mret (set_failed true ctx)
                  else mret ctx
                else mret ctx) ;;
        match output ctx with
        | None => null_deref
        | Some out =>
            let output_errno := stream_errno out in
            let ctx := set_output None ctx in
            r <~ sys_fsync (fd ctx) ;;
            ctx <~ (if r <? 0 then
                      _ <~ mail_storage_set_critical "fsync() failed" ;;
                      mret (set_failed true ctx)
                    else mret ctx) ;;
            r <~ sys_close (fd ctx) ;;
            ctx <~ (if r <? 0 then
                      _ <~ mail_storage_set_critical "close() failed" ;;
                      mret (set_failed true ctx)
                    else mret ctx) ;;
            let ctx := set_fd (-1) ctx in
            if failed ctx then
              u <~ sys_unlink path ;;
              e <~ get_errno ;;
              _ <~ (if (u <? 0) && negb (e =? ENOENT)
                    then mail_storage_set_critical "unlink() failed" else mret tt) ;;
              _ <~ put_errno output_errno ;;
              _ <~ (if ENOSPACE output_errno
                    then mail_storage_set_error "Not enough disk space"
                    else if negb (output_errno =? 0)
                         then mail_storage_set_critical "write() failed"
                         else mret tt) ;;
              mret (-1, set_files rest ctx)
            else if want_mail then
              _ <~ m_assert (negb (seq ctx =? 0)) ;;
              r <~ call (index_mail_next (seq ctx)) ;;
              if r <? 0 then mret (-1, ctx) else mret (0, ctx)
            else mret (0, ctx)
        end
    end.

Definition maildir_save_cancel (ctx : maildir_save_context) : M maildir_save_context :=
  r <~ maildir_save_finish (set_failed true ctx) false ;;
  mret (snd r).

(** The clean-up loop of [maildir_transaction_save_rollback]. *)
Fixpoint unlink_all (paths : list string) : M unit :=
  match paths with
  | [] => mret tt
  | p :: rest => _ <~ sys_unlink p ;; unlink_all rest
  end.

(** The context is freed at the end, so nothing is returned. *)
Definition maildir_transaction_save_rollback (ctx : maildir_save_context) : M unit :=
  _ <~ m_assert (match output ctx with None => true | Some _ => false end) ;;
  unlink_all (tmp_path ctx <$> files ctx).

(** [pos] points into the chain; it is given as the number of entries in
    front of it ([0] for [ctx->files], the length for [NULL]). *)
Definition maildir_save_commit_abort (ctx : maildir_save_context) (pos : nat) : M unit :=
  _ <~ unlink_all (dest_path ctx <$> take pos (files ctx)) ;;
  let ctx := set_files (drop pos (files ctx)) ctx in
  maildir_transaction_save_rollback ctx.

Definition uidlist_sync_next (fname : string) (flags : Z) : M Z :=
  r <~ call (maildir_uidlist_sync_next fname flags) ;;
  _ <~ (fun w => Ret (tt, log (EvSyncNext fname flags r) w)) ;;
  mret r.

(** The [for (mf = ctx->files; mf != NULL; mf = mf->next)] loop of the
    commit.  [Some pos] is the entry at which it gave up, after closing the
    sync session; [None] means it went through. *)
Fixpoint commit_loop (ctx : maildir_save_context) (flags : Z)
    (mfs : list maildir_filename) (pos : nat) : M (option nat) :=
  match mfs with
  | [] => mret None
  | mf :: rest =>
      let fname := match dest mf with Some d => d | None => basename mf end in
      r <~ maildir_file_move ctx (basename mf) (dest mf) ;;
      if r <? 0 then
        _ <~ call maildir_uidlist_sync_deinit ;;
        mret (Some pos)
      else
        r' <~ uidlist_sync_next fname flags ;;
        if r' <? 0 then
          _ <~ call maildir_uidlist_sync_deinit ;;
          mret (Some pos)
        else commit_loop ctx flags rest (S pos)
  end.

(** [maildir_transaction_save_commit].  The value returned at the end is
    the variable [ret], which still holds what [maildir_uidlist_lock]
    returned. *)
Definition maildir_transaction_save_commit (ctx : maildir_save_context) : M Z :=
  _ <~ m_assert (match output ctx with None => true | Some _ => false end) ;;
  ret <~ call maildir_uidlist_lock ;;
  if ret <=? 0 then
    _ <~ maildir_save_commit_abort ctx 0 ;;
    mret (-1)
  else
    s <~ call maildir_sync_index ;;
    if s <? 0 then
      _ <~ maildir_save_commit_abort ctx 0 ;;
      mret (-1)
    else
      first_uid <~ ask maildir_uidlist_get_next_uid ;;
      last_uid <~ call (mail_index_append_assign_uids first_uid) ;;
      let flags := Z.lor MAILDIR_UIDLIST_REC_FLAG_NEW_DIR
                         MAILDIR_UIDLIST_REC_FLAG_RECENT in
      _ <~ call_ maildir_uidlist_sync_init ;;
      stop <~ commit_loop ctx flags (files ctx) 0 ;;
      match stop with
      | Some pos =>
          _ <~ maildir_save_commit_abort ctx pos ;;
          mret (-1)
      | None =>
          d <~ call maildir_uidlist_sync_deinit ;;
          if d <? 0 then
            _ <~ maildir_save_commit_abort ctx (length (files ctx)) ;;
            mret (-1)
          else
            next_uid <~ ask maildir_uidlist_get_next_uid ;;
            _ <~ m_assert (next_uid =? last_uid) ;;
            mret ret
      end.


(** The flags kept for a message: the caller's without RECENT, plus RECENT
    when the mailbox keeps it. *)
Definition stored_flags (t : maildir_transaction_context) (flags : Z) : Z :=
  Z.lor (Z.land flags (Z.lnot MAIL_RECENT))
        (if keep_recent (t_ibox t) then MAIL_RECENT else 0).

(** The context a call of [maildir_save_init] works on: the transaction's,
    or a new one. *)
Definition context_of (t : maildir_transaction_context) (w : world X)
  : maildir_save_context :=
  match save_ctx t with
  | Some c => c
  | None =>
      MkCtx (t_ibox t) (ibox_path (t_ibox t) +:+ "/tmp") (ibox_path (t_ibox t) +:+ "/new")
            (ibox_path (t_ibox t) +:+ "/cur") [] EmptyString None 0 0 0
            (match getenv "MAIL_SAVE_CRLF" (environ w) with Some _ => true | None => false end)
            false
  end.

End Save.

(** *** A reference mailbox

    The collaborators as the specification describes them, for running
    the save code on concrete inputs. *)

Record mailbox_state := MkMailbox {
  mb_names : nat;
  mb_next_uid : Z;
  mb_uidlist : list (Z * string);
  mb_lock_ret : Z;
  mb_next_seq : Z;
  mb_appended : list (Z * Z * Z)
}.

(** The maildir letters of the flags ANSWERED (bit 0, R), FLAGGED (bit 1,
    F), DELETED (bit 2, T), SEEN (bit 3, S) and DRAFT (bit 4, D), in
    alphabetical order. *)
Definition flag_letters (flags : Z) : string :=
  (if Z.testbit flags 4 then "D" else EmptyString) +:+
  (if Z.testbit flags 1 then "F" else EmptyString) +:+
  (if Z.testbit flags 0 then "R" else EmptyString) +:+
  (if Z.testbit flags 3 then "S" else EmptyString) +:+
  (if Z.testbit flags 2 then "T" else EmptyString).

(** LF to CRLF: a line feed that does not follow a carriage return gets
    one. *)
Fixpoint lf_to_crlf (prev_cr : bool) (s : string) : string :=
  match s with
  | EmptyString => EmptyString
  | String c rest =>
      if Ascii.eqb c "010"%char then
        if prev_cr then String c (lf_to_crlf false rest)
        else String "013"%char (String c (lf_to_crlf false rest))
      else String c (lf_to_crlf (Ascii.eqb c "013"%char) rest)
  end.

(** The appended records (sequence, flags, UID) get consecutive UIDs. *)
Fixpoint assign_from (uid : Z) (recs : list (Z * Z * Z)) : list (Z * Z * Z) :=
  match recs with
  | [] => []
  | (s, f, _) :: rest => (s, f, uid) :: assign_from (uid + 1) rest
  end.

(** Modelled from the spec: the unique-filename generator, the flag-encoded
    file name, the stream filters, the index transaction and the UID list
    are outside the sources.  Names are unique by a counter; a name gets a
    suffix made of the maildir flag letters; the UID list hands the next
    free UID to each name appended in a sync session; the index transaction
    numbers the appended records and assigns them a contiguous range from
    [first_uid] on, reporting the first UID after the range, which is the
    value the commit compares with the UID list's next UID. *)
#[export] Instance reference_mailbox : Collaborators mailbox_state := {|
  MAIL_RECENT := 32;
  MAILDIR_UIDLIST_REC_FLAG_NEW_DIR := 1;
  MAILDIR_UIDLIST_REC_FLAG_RECENT := 4;
  maildir_filename_set_flags := fun fname flags => fname +:+ ":2," +:+ flag_letters flags;
  maildir_unique_name := fun m =>
    ("msg" +:+ pretty (mb_names m),
     MkMailbox (S (mb_names m)) (mb_next_uid m) (mb_uidlist m) (mb_lock_ret m)
               (mb_next_seq m) (mb_appended m));
  o_stream_filter := fun crlf data => if crlf then lf_to_crlf false data else data;
  mail_index_append := fun m =>
    (mb_next_seq m,
     MkMailbox (mb_names m) (mb_next_uid m) (mb_uidlist m) (mb_lock_ret m)
               (mb_next_seq m + 1) (mb_appended m ++ [(mb_next_seq m, 0, 0)]));
  mail_index_update_flags := fun seq flags m =>
    MkMailbox (mb_names m) (mb_next_uid m) (mb_uidlist m) (mb_lock_ret m) (mb_next_seq m)
              ((fun r => if r.1.1 =? seq then (r.1.1, flags, r.2) else r) <$> mb_appended m);
  maildir_uidlist_lock := fun m => (mb_lock_ret m, m);
  maildir_sync_index := fun m => (0, m);
  maildir_uidlist_get_next_uid := mb_next_uid;
  mail_index_append_assign_uids := fun first_uid m =>
    (first_uid + Z.of_nat (length (mb_appended m)),
     MkMailbox (mb_names m) (mb_next_uid m) (mb_uidlist m) (mb_lock_ret m) (mb_next_seq m)
               (assign_from first_uid (mb_appended m)));
  maildir_uidlist_sync_init := fun m => m;
  maildir_uidlist_sync_next := fun fname flags m =>
    (1, MkMailbox (mb_names m) (mb_next_uid m + 1)
                  (mb_uidlist m ++ [(mb_next_uid m, fname)]) (mb_lock_ret m)
                  (mb_next_seq m) (mb_appended m));
  maildir_uidlist_sync_deinit := fun m => (0, m);
  index_mail_next := fun seq m => (0, m)
|}.

(** An empty mailbox: no files, no UIDs handed out yet. *)
Definition empty_mailbox : mailbox_state := MkMailbox 0 1 [] 1 1 [].

(** No system call is made to fail. *)
Definition no_fault : syscall -> Z := fun _ => 0.

(** The world before the first save: no file, descriptors from 3 on, the
    clock at 1000. *)
Definition start_world (env : list (string * string)) (flt : syscall -> Z)
  : world mailbox_state :=
  MkWorld ∅ ∅ 3 0 1000 env flt [] empty_mailbox.

(** A transaction on the mailbox at /inbox that has saved nothing yet. *)
Definition inbox (keep : bool) : maildir_transaction_context :=
  MkTrans (MkIbox "/inbox" keep 384) None.

(** What a client does for one message: [maildir_save_init], then
    [maildir_save_continue] and [maildir_save_finish] on the context. *)
Definition save_message (t : maildir_transaction_context) (flags received : Z)
    (body : string) : M (X := mailbox_state) (Z * maildir_transaction_context) :=
  mbind (maildir_save_init t flags received body) (fun t1 =>
  match save_ctx t1 with
  | None => null_deref
  | Some ctx =>
      mbind (maildir_save_continue ctx) (fun r1 =>
      mbind (maildir_save_finish (snd r1) false) (fun r2 =>
      mret (fst r2, MkTrans (t_ibox t1) (Some (snd r2)))))
  end).

Definition LF : string := String "010"%char EmptyString.
Definition CRLF : string := String "013"%char LF.

(** A disk that is full for every write. *)
Definition write_fails : syscall -> Z :=
  fun s => match s with SysWrite _ => ENOSPC | _ => 0 end.

Definition hello : string := "Hello" +:+ LF.

End MaildirSave.

(** ** The auth multiplexer *)

Module AuthConnection.

Local Open Scope string_scope.
Local Open Scope list_scope.
Local Open Scope Z_scope.

(** Results a worker can reply with (the enum is declared outside the
    sources). *)
Inductive auth_login_result :=
| AUTH_LOGIN_RESULT_CONTINUE
| AUTH_LOGIN_RESULT_SUCCESS
| AUTH_LOGIN_RESULT_FAILURE.

Definition is_continue (r : auth_login_result) : bool :=
  match r with AUTH_LOGIN_RESULT_CONTINUE => true | _ => false end.

Record auth_login_reply := MkReply {
  reply_id : Z;
  reply_result : auth_login_result;
  reply_data_size : Z
}.

Record auth_login_handshake_output := MkHandshake {
  hs_pid : Z;
  hs_auth_mechanisms : Z
}.

(** Connections and requests live on the heap and are referred to by their
    addresses. *)
Definition addr := nat.

(** [struct auth_request]; [r_context] stands for the callback together
    with its context. *)
Record auth_request := MkRequest {
  r_mech : Z;
  r_conn : addr;
  r_id : Z;
  r_context : nat
}.

(** [struct auth_connection].  [requests] is the hash table from request
    ids to requests; [out_space] is the room left in the output stream's
    buffer and [peer_gone] tells whether a send on it fails, both being
    facts of the stream, which is outside the sources. *)
Record auth_connection := MkConn {
  path : string;
  fd : Z;
  refcount : Z;
  pid : Z;
  conn_available_auth_mechs : Z;
  handshake_received : bool;
  reply_received : bool;
  requests : gmap Z addr;
  out_space : Z;
  peer_gone : bool
}.

(** What the multiplexer tells the outside: callbacks (with the reply, or
    [None] for the NULL reply of an abort) and log lines. *)
Inductive event :=
| EvCallback (request : addr) (reply : option auth_login_reply)
| EvLog (msg : string).

(** An entry of the socket directory as [readdir], [stat] and
    [net_connect_unix] show it: [d_fd] is the connected descriptor or -1,
    [d_space] and [d_peer_gone] describe the new connection's stream. *)
Record dir_entry := MkEntry {
  d_name : string;
  d_is_sock : bool;
  d_fd : Z;
  d_space : Z;
  d_peer_gone : bool
}.

(** The file-level variables of auth-connection.c, the heap, and the
    socket directory ([None] when [opendir] fails). *)
Record state := MkState {
  available_auth_mechs : Z;
  auth_reconnect : bool;
  request_id_counter : Z;
  auth_connections : list addr;
  auth_waiting_handshake_count : Z;
  conns : gmap addr auth_connection;
  reqs : gmap addr auth_request;
  next_addr : addr;
  socket_dir : option (list dir_entry);
  log : list event
}.

Definition set_available_auth_mechs (v : Z) (s : state) : state :=
  MkState v (auth_reconnect s) (request_id_counter s) (auth_connections s)
          (auth_waiting_handshake_count s) (conns s) (reqs s) (next_addr s)
          (socket_dir s) (log s).
Definition set_auth_reconnect (v : bool) (s : state) : state :=
  MkState (available_auth_mechs s) v (request_id_counter s) (auth_connections s)
          (auth_waiting_handshake_count s) (conns s) (reqs s) (next_addr s)
          (socket_dir s) (log s).
Definition set_request_id_counter (v : Z) (s : state) : state :=
  MkState (available_auth_mechs s) (auth_reconnect s) v (auth_connections s)
          (auth_waiting_handshake_count s) (conns s) (reqs s) (next_addr s)
          (socket_dir s) (log s).
Definition set_auth_connections (v : list addr) (s : state) : state :=
  MkState (available_auth_mechs s) (auth_reconnect s) (request_id_counter s) v
          (auth_waiting_handshake_count s) (conns s) (reqs s) (next_addr s)
          (socket_dir s) (log s).
Definition set_waiting (v : Z) (s : state) : state :=
  MkState (available_auth_mechs s) (auth_reconnect s) (request_id_counter s)
          (auth_connections s) v (conns s) (reqs s) (next_addr s)
          (socket_dir s) (log s).
Definition set_conns (v : gmap addr auth_connection) (s : state) : state :=
  MkState (available_auth_mechs s) (auth_reconnect s) (request_id_counter s)
          (auth_connections s) (auth_waiting_handshake_count s) v (reqs s) (next_addr s)
          (socket_dir s) (log s).
Definition set_reqs (v : gmap addr auth_request) (s : state) : state :=
  MkState (available_auth_mechs s) (auth_reconnect s) (request_id_counter s)
          (auth_connections s) (auth_waiting_handshake_count s) (conns s) v (next_addr s)
          (socket_dir s) (log s).
Definition set_next_addr (v : addr) (s : state) : state :=
  MkState (available_auth_mechs s) (auth_reconnect s) (request_id_counter s)
          (auth_connections s) (auth_waiting_handshake_count s) (conns s) (reqs s) v
          (socket_dir s) (log s).
Definition set_socket_dir (v : option (list dir_entry)) (s : state) : state :=
  MkState (available_auth_mechs s) (auth_reconnect s) (request_id_counter s)
          (auth_connections s) (auth_waiting_handshake_count s) (conns s) (reqs s)
          (next_addr s) v (log s).
Definition add_log (es : list event) (s : state) : state :=
  MkState (available_auth_mechs s) (auth_reconnect s) (request_id_counter s)
          (auth_connections s) (auth_waiting_handshake_count s) (conns s) (reqs s)
          (next_addr s) (socket_dir s) (log s ++ es).

Definition set_fd (v : Z) (c : auth_connection) : auth_connection :=
  MkConn (path c) v (refcount c) (pid c) (conn_available_auth_mechs c)
         (handshake_received c) (reply_received c) (requests c) (out_space c) (peer_gone c).
Definition set_refcount (v : Z) (c : auth_connection) : auth_connection :=
  MkConn (path c) (fd c) v (pid c) (conn_available_auth_mechs c)
         (handshake_received c) (reply_received c) (requests c) (out_space c) (peer_gone c).
Definition set_requests (v : gmap Z addr) (c : auth_connection) : auth_connection :=
  MkConn (path c) (fd c) (refcount c) (pid c) (conn_available_auth_mechs c)
         (handshake_received c) (reply_received c) v (out_space c) (peer_gone c).
Definition set_handshake (p mechs : Z) (c : auth_connection) : auth_connection :=
  MkConn (path c) (fd c) (refcount c) p mechs true (reply_received c) (requests c)
         (out_space c) (peer_gone c).

(** Modelled from the spec: the output stream is outside the sources.
    [o_stream_have_space] is positive when the buffer has headroom for
    [size] more bytes; [o_stream_send] is negative when the send fails (the
    peer is gone) and the number of bytes otherwise ([size] is a
    [size_t]). *)
Definition o_stream_have_space (c : auth_connection) (size : Z) : Z :=
  if size <=? out_space c then 1 else 0.

Definition o_stream_send (c : auth_connection) (size : Z) : Z :=
  if peer_gone c then -1 else Z.max size 0.

(** [auth_connection_find]: the first connection of the list with that
    path. *)
Fixpoint auth_connection_find (heap : gmap addr auth_connection) (l : list addr)
    (p : string) : option addr :=
  match l with
  | [] => None
  | a :: rest =>
      match heap !! a with
      | Some c => if String.eqb (path c) p then Some a
                  else auth_connection_find heap rest p
      | None => auth_connection_find heap rest p
      end
  end.

(** The unlinking loop of [auth_connection_destroy]: the first occurrence
    is taken out. *)
Fixpoint unlink_conn (a : addr) (l : list addr) : list addr :=
  match l with
  | [] => []
  | b :: rest => if Nat.eqb b a then rest else b :: unlink_conn a rest
  end.

(** [auth_connection_unref]: at the last reference the requests still in
    the table and the connection itself are freed. *)
Definition auth_connection_unref (a : addr) (s : state) : state :=
  match conns s !! a with
  | None => s
  | Some c =>
      if refcount c - 1 >? 0 then
        set_conns (<[a := set_refcount (refcount c - 1) c]> (conns s)) s
      else
        set_conns (delete a (conns s))
          (set_reqs (foldr (fun kv m => delete kv.2 m) (reqs s)
                           (map_to_list (requests c))) s)
  end.

(** [auth_connection_destroy]; [request_hash_remove] calls every pending
    request's callback with a NULL reply. *)
Definition auth_connection_destroy (a : addr) (s : state) : state :=
  match conns s !! a with
  | None => s
  | Some c =>
      if fd c =? -1 then s
      else
        let s := set_auth_connections (unlink_conn a (auth_connections s)) s in
        let s := if negb (handshake_received c)
                 then set_waiting (u32 (auth_waiting_handshake_count s - 1)) s
                 else s in
        let s := set_conns (<[a := set_fd (-1) c]> (conns s)) s in
        let s := add_log ((fun kv => EvCallback kv.2 None) <$> map_to_list (requests c)) s in
        auth_connection_unref a s
  end.

(** [auth_connection_new] on a directory entry; the result tells whether a
    connection was returned. *)
Definition auth_connection_new (e : dir_entry) (s : state) : bool * state :=
  if d_fd e =? -1 then
    (false, set_auth_reconnect true
              (add_log [EvLog "Can't connect to auth process"] s))
  else
    let a := next_addr s in
    let c := MkConn (d_name e) (d_fd e) 1 0 0 false false ∅ (d_space e) (d_peer_gone e) in
    let s := set_next_addr (S a) (set_conns (<[a := c]> (conns s)) s) in
    let s := set_auth_connections (a :: auth_connections s) s in
    let s := set_waiting (u32 (auth_waiting_handshake_count s + 1)) s in
    if o_stream_send c 4 <? 0 then
      (false, auth_connection_destroy a
                (add_log [EvLog "Error sending handshake to auth process"] s))
    else (true, s).

(** The loop of [auth_connection_get]; [found] is carried along. *)
Fixpoint get_loop (heap : gmap addr auth_connection) (l : list addr) (mech size : Z)
    (found : bool) : option addr * bool :=
  match l with
  | [] => (None, found)
  | a :: rest =>
      match heap !! a with
      | None => get_loop heap rest mech size found
      | Some c =>
          if negb (Z.land (conn_available_auth_mechs c) mech =? 0) then
            if o_stream_have_space c size >? 0 then (Some a, found)
            else get_loop heap rest mech size true
          else get_loop heap rest mech size found
      end
  end.

(** [auth_connection_get]: the connection, or the error message. *)
Definition auth_connection_get (mech size : Z) (s : state)
  : (addr + string) * state :=
  match get_loop (conns s) (auth_connections s) mech size false with
  | (Some a, _) => (inl a, s)
  | (None, false) =>
      if Z.land (available_auth_mechs s) mech =? 0 then
        (inr "Unsupported authentication mechanism", s)
      else
        (inr "Authentication server isn't connected, try again later..",
         set_auth_reconnect true s)
  | (None, true) =>
      (inr "Authentication servers are busy, wait..",
       add_log [EvLog "Authentication servers are busy"] s)
  end.

Definition update_available_auth_mechs (s : state) : state :=
  set_available_auth_mechs
    (fold_left (fun acc a => match conns s !! a with
                             | Some c => Z.lor acc (conn_available_auth_mechs c)
                             | None => acc
                             end) (auth_connections s) 0) s.

Definition auth_handle_handshake (a : addr) (handshake : auth_login_handshake_output)
    (s : state) : state :=
  if hs_pid handshake =? 0 then
    auth_connection_destroy a (add_log [EvLog "BUG: Auth process said it's PID 0"] s)
  else
    match conns s !! a with
    | None => s
    | Some c =>
        let c := set_handshake (hs_pid handshake) (hs_auth_mechanisms handshake) c in
        let s := set_conns (<[a := c]> (conns s)) s in
        let s := set_waiting (u32 (auth_waiting_handshake_count s - 1)) s in
        update_available_auth_mechs s
    end.

Definition auth_handle_reply (a : addr) (reply : auth_login_reply) (s : state) : state :=
  match conns s !! a with
  | None => s
  | Some c =>
      match requests c !! reply_id reply with
      | None => add_log [EvLog "BUG: Auth process sent us reply with unknown ID"] s
      | Some r =>
          let s := add_log [EvCallback r (Some reply)] s in
          if negb (is_continue (reply_result reply)) then
            match reqs s !! r with
            | None => s
            | Some req =>
                set_reqs (delete r (reqs s))
                  (set_conns (<[a := set_requests (delete (r_id req) (requests c)) c]>
                                (conns s)) s)
            end
          else s
      end
  end.

(** The loop of [auth_connect_missing] over the directory. *)
Fixpoint connect_entries (entries : list dir_entry) (s : state) : state :=
  match entries with
  | [] => s
  | e :: rest =>
      match d_name e with
      | String "."%char _ => connect_entries rest s
      | _ =>
          match auth_connection_find (conns s) (auth_connections s) (d_name e) with
          | Some _ => connect_entries rest s
          | None =>
              if d_is_sock e then
                let '(ok, s) := auth_connection_new e s in
                connect_entries rest (if ok then set_auth_reconnect false s else s)
              else connect_entries rest s
          end
      end
  end.

Definition auth_connect_missing (s : state) : state :=
  let s := set_auth_reconnect true s in
  match socket_dir s with
  | None => add_log [EvLog "opendir() failed"] s
  | Some entries => connect_entries entries s
  end.

Section Requests.

(** [sizeof(struct auth_login_request_new)], from a header outside the
    sources. *)
Variable sizeof_request_new : Z.

(** [auth_init_request]: TRUE or FALSE, and with FALSE the error message.
    The new request is at the address [next_addr] had before the call. *)
Definition auth_init_request (mech : Z) (protocol : Z) (context : nat) (s : state)
  : bool * option string * state :=
  let s := if auth_reconnect s then auth_connect_missing s else s in
  match auth_connection_get mech sizeof_request_new s with
  | (inr error, s) => (false, Some error, s)
  | (inl a, s) =>
      let counter := u32 (request_id_counter s + 1) in
      let '(id, counter) :=
        if counter =? 0 then (u32 (counter + 1), u32 (counter + 1))
        else (counter, counter) in
      let s := set_request_id_counter counter s in
      let r := next_addr s in
      let s := set_next_addr (S r) (set_reqs (<[r := MkRequest mech a id context]> (reqs s)) s) in
      match conns s !! a with
      | None => (true, None, s)
      | Some c =>
          let s := set_conns (<[a := set_requests (<[id := r]> (requests c)) c]> (conns s)) s in
          if o_stream_send c sizeof_request_new <? 0 then
            (true, None,
             auth_connection_destroy a
               (add_log [EvLog "Error sending request to auth process"] s))
          else (true, None, s)
      end
  end.

End Requests.

(** [auth_continue_request]: the header and the payload are sent; a
    failed send tears the connection down. *)
Definition auth_continue_request (r : addr) (data_size : Z) (s : state) : state :=
  match reqs s !! r with
  | None => s
  | Some req =>
      match conns s !! r_conn req with
      | None => s
      | Some c =>
          if (o_stream_send c 12 <? 0) || (o_stream_send c data_size <? 0) then
            auth_connection_destroy (r_conn req)
              (add_log [EvLog "Error sending continue request to auth process"] s)
          else s
      end
  end.

Definition auth_abort_request (r : addr) (s : state) : state :=
  match reqs s !! r with
  | None => s
  | Some req =>
      let s :=
        match conns s !! r_conn req with
        | None => s
        | Some c =>
            match requests c !! r_id req with
            | Some _ =>
                set_conns (<[r_conn req := set_requests (delete (r_id req) (requests c)) c]>
                             (conns s)) s
            | None => s
            end
        end in
      set_reqs (delete r (reqs s)) s
  end.

Definition auth_request_ref (r : addr) (s : state) : state :=
  match reqs s !! r with
  | None => s
  | Some req =>
      match conns s !! r_conn req with
      | None => s
      | Some c => set_conns (<[r_conn req := set_refcount (refcount c + 1) c]> (conns s)) s
      end
  end.

Definition auth_request_unref (r : addr) (s : state) : state :=
  match reqs s !! r with
  | None => s
  | Some req => auth_connection_unref (r_conn req) s
  end.

Definition auth_is_connected (s : state) : bool :=
  negb (auth_reconnect s) && (auth_waiting_handshake_count s =? 0).

(** [auth_connection_init] in a process whose socket directory is [dir]. *)
Definition auth_connection_init (dir : option (list dir_entry)) : state :=
  auth_connect_missing (MkState 0 false 0 [] 0 ∅ ∅ 0%nat dir []).

(** What can happen to the multiplexer, one call at a time. *)
Inductive op :=
| OpInit (mech protocol : Z) (context : nat)
| OpReply (conn : addr) (reply : auth_login_reply)
| OpContinue (request : addr) (data_size : Z)
| OpAbort (request : addr)
| OpHandshake (conn : addr) (handshake : auth_login_handshake_output)
| OpDisconnect (conn : addr)
| OpTimeout.

Definition step (sizeof_request_new : Z) (o : op) (s : state) : state :=
  match o with
  | OpInit mech protocol context =>
      (auth_init_request sizeof_request_new mech protocol context s).2
  | OpReply a reply => auth_handle_reply a reply s
  | OpContinue r n => auth_continue_request r n s
  | OpAbort r => auth_abort_request r s
  | OpHandshake a h => auth_handle_handshake a h s
  | OpDisconnect a => auth_connection_destroy a (set_auth_reconnect true s)
  | OpTimeout => if auth_reconnect s then auth_connect_missing s else s
  end.

Definition run (sizeof_request_new : Z) (ops : list op) (s : state) : state :=
  fold_left (fun s o => step sizeof_request_new o s) ops s.

(** Whether the connection at an address advertises a mechanism, and
    whether its output stream has room for [size] bytes. *)
Definition advertises (heap : gmap addr auth_connection) (mech : Z) (a : addr) : bool :=
  match heap !! a with
  | Some c => negb (Z.land (conn_available_auth_mechs c) mech =? 0)
  | None => false
  end.

Definition has_room (heap : gmap addr auth_connection) (size : Z) (a : addr) : bool :=
  match heap !! a with
  | Some c => size <=? out_space c
  | None => false
  end.

(** The state [auth_init_request] looks at: after the rescan it starts
    with when a reconnect is pending. *)
Definition rescanned (s : state) : state :=
  if auth_reconnect s then auth_connect_missing s else s.

(** Two mechanism bits of [enum auth_mech], which is declared outside the
    sources. *)
Definition AUTH_MECH_PLAIN : Z := 1.
Definition AUTH_MECH_DIGEST_MD5 : Z := 2.

(** A socket directory with one worker socket. *)
Definition one_worker : option (list dir_entry) :=
  Some [MkEntry "auth-worker" true 7 4096 false].

(** The id [auth_init_request] issues when the counter is [c]: the
    counter is incremented first, and once more when that gives 0. *)
Definition next_id (c : Z) : Z :=
  if u32 (c + 1) =? 0 then u32 (u32 (c + 1) + 1) else u32 (c + 1).

Fixpoint count_inits (ops : list op) : nat :=
  match ops with
  | [] => 0%nat
  | OpInit _ _ _ :: rest => S (count_inits rest)
  | _ :: rest => count_inits rest
  end.

(** [k] rounds of "start a request, abort it"; the request of round [j]
    is at address [base + j]. *)
Definition churn_ops (base : addr) (k : nat) : list op :=
  flat_map (fun j => [OpInit AUTH_MECH_PLAIN 0 0; OpAbort (base + j)%nat]) (seq 0 k).

(** A worker completes its handshake, one request is started and left
    pending, 2^32 - 2 further requests are started and aborted, and one
    more request is started. *)
Definition wrap_around_ops : list op :=
  [OpHandshake 0%nat (MkHandshake 5 AUTH_MECH_PLAIN); OpInit AUTH_MECH_PLAIN 0 7]
  ++ churn_ops 2%nat (Z.to_nat (2 ^ 32 - 2))
  ++ [OpInit AUTH_MECH_PLAIN 0 8].

(** [s'] has no request that [s] has not, the same counter, and has
    handed out no address that [s] could still hand out. *)
Definition shrinks (s s' : state) : Prop :=
  (forall a r, reqs s' !! a = Some r -> reqs s !! a = Some r) /\
  request_id_counter s' = request_id_counter s /\
  (next_addr s <= next_addr s')%nat.

(** The state right after [auth_init_request] has allocated and entered
    the request, before the frame is sent. *)
Definition allocated (mech : Z) (a : addr) (context : nat) (s1 : state) : state :=
  set_next_addr (S (next_addr s1))
    (set_reqs (<[next_addr s1 := MkRequest mech a (next_id (request_id_counter s1)) context]>
                 (reqs s1))
       (set_request_id_counter (next_id (request_id_counter s1)) s1)).

(** No live request has id 0. *)
Definition ids_nonzero (s : state) : Prop :=
  forall a r, reqs s !! a = Some r -> r_id r <> 0.

(** Before the counter wraps around: every live request sits below
    [next_addr], its id is between 1 and the counter, and no other live
    request has the same id. *)
Definition ids_fresh (s : state) : Prop :=
  0 <= request_id_counter s < 2 ^ 32 /\
  forall a r, reqs s !! a = Some r ->
    (a < next_addr s)%nat /\ 1 <= r_id r <= request_id_counter s /\
    forall a' r', reqs s !! a' = Some r' -> r_id r' = r_id r -> a' = a.

(** The worker's connection once the first request is pending on it. *)
Definition pending_conn : auth_connection :=
  MkConn "auth-worker" 7 1 5 AUTH_MECH_PLAIN true false {[1 := 1%nat]} 4096 false.

(** The state after the handshake, the first request (id 1, left
    pending at address 1) and [k] rounds of starting and aborting. *)
Definition churned (k : nat) : state :=
  MkState AUTH_MECH_PLAIN false (1 + Z.of_nat k) [0%nat] 0 {[0%nat := pending_conn]}
          {[1%nat := MkRequest AUTH_MECH_PLAIN 0%nat 1 7]} (2 + k)%nat one_worker [].

End AuthConnection.

(** ** More of the index record array *)

Module MailIndexExt.
Import MailIndex.

(** [mail_index_next]: the record after [rec], given like [rec] by its
    index in the array, or [None] for NULL.  [INDEX_END_RECORD(index)] is the
    address just after the last record. *)
Definition mail_index_next (index : mail_index) (idx : Z) : result (option Z) :=
  _ <-- i_assert (negb (lock_eqb (lock_type index) MAIL_LOCK_UNLOCK)) ;;
  _ <-- i_assert (0 <=? idx) ;;
  if idx + 1 =? MAIL_INDEX_RECORD_COUNT index then Ret None else Ret (Some (idx + 1)).

(** [mail_index_compress]. *)
Definition mail_index_compress (index : mail_index) : bool := true.

(** The header count agrees with the array and the count fits an
    [unsigned int]. *)
Definition index_ok (index : mail_index) : Prop :=
  messages_count index = MAIL_INDEX_RECORD_COUNT index /\
  MAIL_INDEX_RECORD_COUNT index < 2 ^ 32.


End MailIndexExt.

(** ** More about the maildir save transaction *)

Module MaildirSaveExt.
Import MaildirSave.

Local Open Scope string_scope.
Local Open Scope list_scope.
Local Open Scope Z_scope.

Section SaveExt.

Context {X : Type} `{Collaborators X}.

(** No [unlink] is made to fail from outside (it still fails with ENOENT
    on a missing file). *)
Definition no_unlink_fault (w : world X) : Prop :=
  forall p, fault w (SysUnlink p) = 0.

(** The temp paths and the destination paths of the staged files are all
    different from one another. *)
Definition staged_paths_apart (ctx : maildir_save_context) : Prop :=
  NoDup ((tmp_path ctx <$> files ctx) ++ (dest_path ctx <$> files ctx)).

(** The temp paths of the staged files. *)
Definition staged_tmp_paths (ctx : maildir_save_context) : list string :=
  tmp_path ctx <$> files ctx.

(** The collaborators' [maildir_uidlist_sync_next] never reports an
    error. *)
Definition sync_next_never_fails : Prop :=
  forall fname flags x, 0 <= (maildir_uidlist_sync_next fname flags x).1.

(** The error [maildir_file_move] records when [link] fails with [e]. *)
Definition link_error (e : Z) : event :=
  if ENOSPACE e then EvSetError "Not enough disk space"
  else EvSetCritical "link() failed".

(** The error [maildir_save_finish] ends with when the stream failed
    with [e]. *)
Definition write_error (e : Z) : event :=
  if ENOSPACE e then EvSetError "Not enough disk space"
  else EvSetCritical "write() failed".

End SaveExt.

(** Modelled from the spec: the reference mailbox with a UID list whose
    sync session refuses every name. *)
Definition refusing_mailbox : Collaborators mailbox_state := {|
  MAIL_RECENT := 32;
  MAILDIR_UIDLIST_REC_FLAG_NEW_DIR := 1;
  MAILDIR_UIDLIST_REC_FLAG_RECENT := 4;
  maildir_filename_set_flags := maildir_filename_set_flags (X := mailbox_state);
  maildir_unique_name := maildir_unique_name;
  o_stream_filter := o_stream_filter (X := mailbox_state);
  mail_index_append := mail_index_append;
  mail_index_update_flags := mail_index_update_flags;
  maildir_uidlist_lock := maildir_uidlist_lock;
  maildir_sync_index := maildir_sync_index;
  maildir_uidlist_get_next_uid := maildir_uidlist_get_next_uid;
  mail_index_append_assign_uids := mail_index_append_assign_uids;
  maildir_uidlist_sync_init := maildir_uidlist_sync_init;
  maildir_uidlist_sync_next := fun _ _ m => (-1, m);
  maildir_uidlist_sync_deinit := maildir_uidlist_sync_deinit;
  index_mail_next := index_mail_next
|}.

(** An empty mailbox whose UID list cannot be locked, and the world
    around it. *)
Definition busy_mailbox : mailbox_state := MkMailbox 0 1 [] 0 1 [].

Definition busy_world : world mailbox_state :=
  MkWorld ∅ ∅ 3 0 1000 [] no_fault [] busy_mailbox.

(** A disk that is full for the [link] of the first message saved. *)
Definition second_link_fails : syscall -> Z :=
  fun s => match s with
           | SysLink a _ => if String.eqb a "/inbox/tmp/msg0" then ENOSPC else 0
           | _ => 0
           end.

End MaildirSaveExt.

(** ** More about the auth multiplexer *)

Module AuthConnectionExt.
Import AuthConnection.

Local Open Scope string_scope.
Local Open Scope list_scope.
Local Open Scope Z_scope.

(** The loop of [auth_connection_deinit]: the successor is read first, the
    head is destroyed, and the list is set to the successor. *)
Fixpoint deinit_loop (l : list addr) (s : state) : state :=
  match l with
  | [] => s
  | a :: rest =>
      deinit_loop rest (set_auth_connections rest (auth_connection_destroy a s))
  end.

Definition auth_connection_deinit (s : state) : state :=
  deinit_loop (auth_connections s) s.

(** The NULL callbacks [request_hash_remove] makes for a connection. *)
Definition null_callbacks (c : auth_connection) : list event :=
  (fun kv => EvCallback kv.2 None) <$> map_to_list (requests c).

(** How many of the listed connections have not completed their
    handshake. *)
Fixpoint count_waiting (heap : gmap addr auth_connection) (l : list addr) : nat :=
  match l with
  | [] => 0%nat
  | a :: rest =>
      (match heap !! a with
       | Some c => if handshake_received c then 0%nat else 1%nat
       | None => 0%nat
       end + count_waiting heap rest)%nat
  end.

(** The share of one connection in the count. *)
Definition waits (heap : gmap addr auth_connection) (a : addr) : nat :=
  match heap !! a with
  | Some c => if handshake_received c then 0%nat else 1%nat
  | None => 0%nat
  end.

(** The registry is in order: no connection is listed twice, the listed
    connections are the live ones with an open descriptor, every
    connection sits below [next_addr], and the count of connections
    waiting for their handshake is the number of listed connections without
    one (as an [unsigned int]). *)
Definition registry_ok (s : state) : Prop :=
  NoDup (auth_connections s) /\
  (forall a, a ∈ auth_connections s <->
             exists c, conns s !! a = Some c /\ fd c <> -1) /\
  (forall (a : addr) c, conns s !! a = Some c -> (a < next_addr s)%nat) /\
  auth_waiting_handshake_count s
  = u32 (Z.of_nat (count_waiting (conns s) (auth_connections s))).

(** What [auth_input] makes sure of before it hands a frame over: a
    handshake goes to a connection that is open and has not had one. *)
Definition guarded (s : state) (o : op) : Prop :=
  match o with
  | OpHandshake a _ =>
      exists c, conns s !! a = Some c /\ fd c <> -1 /\ handshake_received c = false
  | _ => True
  end.

(** Every operation of a run is guarded in the state it is applied to. *)
Fixpoint all_guarded (sizeof_request_new : Z) (ops : list op) (s : state) : Prop :=
  match ops with
  | [] => True
  | o :: rest =>
      guarded s o /\ all_guarded sizeof_request_new rest (step sizeof_request_new o s)
  end.

(** The union of the mechanisms the listed connections advertise. *)
Definition listed_mechs (s : state) : Z :=
  fold_left (fun acc a => match conns s !! a with
                          | Some c => Z.lor acc (conn_available_auth_mechs c)
                          | None => acc
                          end) (auth_connections s) 0.

(** A directory entry that [auth_connection_new] turns into a
    connection. *)
Definition connects (e : dir_entry) : bool :=
  d_is_sock e && negb (d_fd e =? -1) && negb (d_peer_gone e).

(** The variables as [auth_connection_init] sets them before it looks for
    workers. *)
Definition cleared (dir : option (list dir_entry)) : state :=
  MkState 0 false 0 [] 0 ∅ ∅ 0%nat dir [].



End AuthConnectionExt.

(** ** Machine integer facts *)

Lemma u32_small (z : Z) : 0 <= z < 2 ^ 32 -> u32 z = z.
Proof. intros H. unfold u32. apply Z.mod_small; lia. Qed.

Lemma u32_range (z : Z) : 0 <= u32 z < 2 ^ 32.
Proof. unfold u32. apply Z.mod_pos_bound. lia. Qed.

(** ** Properties of the index record array *)

Module MailIndexFacts.
Import MailIndex.

Lemma rec_at_Ret (recs : list mail_index_record) (idx : Z) (r : mail_index_record) :
  rec_at recs idx = Ret r <-> 0 <= idx /\ recs !! Z.to_nat idx = Some r.
Proof.
  unfold rec_at. destruct (Z.ltb_spec idx 0).
  - split; [discriminate | lia].
  - destruct (recs !! Z.to_nat idx) eqn:E; split; intros H'.
    + inversion H'; subst; auto.
    + destruct H' as [_ H']. congruence.
    + discriminate.
    + destruct H' as [_ H']. discriminate.
Qed.

(** The neighbour check gives the order between any two positions. *)
Lemma uids_increasing_lookup (recs : list mail_index_record) :
  uids_increasing recs = true ->
  forall (i j : nat) ri rj,
    recs !! i = Some ri -> recs !! j = Some rj -> (i < j)%nat -> uid ri < uid rj.
Proof.
  induction recs as [|r rest IH]; intros Hs i j ri rj Hi Hj Hlt.
  - rewrite lookup_nil in Hi. discriminate.
  - simpl in Hs. destruct rest as [|r' rest'].
    + destruct j as [|j]; [lia|]. simpl in Hj. rewrite lookup_nil in Hj. discriminate.
    + apply andb_true_iff in Hs as [Hhd Htl]. apply Z.ltb_lt in Hhd.
      destruct j as [|j]; [lia|]. simpl in Hj.
      destruct i as [|i].
      * simpl in Hi. inversion Hi; subst ri.
        destruct j as [|j].
        -- simpl in Hj. inversion Hj; subst. exact Hhd.
        -- assert (uid r' < uid rj); [|lia].
           apply (IH Htl 0%nat (S j) r' rj); auto; lia.
      * simpl in Hi. apply (IH Htl i j ri rj); auto; lia.
Qed.

Lemma uids_increasing_app_inv (l1 l2 : list mail_index_record) :
  uids_increasing (l1 ++ l2) = true ->
  uids_increasing l1 = true /\ uids_increasing l2 = true.
Proof.
  induction l1 as [|a l1 IH]; simpl; intros H.
  - split; [reflexivity|exact H].
  - destruct l1 as [|b l1]; simpl in *.
    + split; [reflexivity|]. destruct l2; [reflexivity|].
      apply andb_true_iff in H as [_ H]. exact H.
    + apply andb_true_iff in H as [H1 H2]. destruct (IH H2) as [H3 H4].
      split; [|exact H4]. rewrite H1. exact H3.
Qed.

(** The converse: pairwise order gives the neighbour check. *)
Lemma uids_increasing_intro (recs : list mail_index_record) :
  (forall (i j : nat) ri rj,
      recs !! i = Some ri -> recs !! j = Some rj -> (i < j)%nat -> uid ri < uid rj) ->
  uids_increasing recs = true.
Proof.
  induction recs as [|r rest IH]; intros H; [reflexivity|].
  simpl. destruct rest as [|r' rest']; [reflexivity|].
  apply andb_true_iff. split.
  - apply Z.ltb_lt. apply (H 0%nat 1%nat); auto.
  - apply IH. intros i j ri rj Hi Hj Hlt. apply (H (S i) (S j)); auto; lia.
Qed.

(** The loop invariant of the binary search and what the loop hands over:
    an in-bounds position that either holds [first_uid] itself or is the
    split point or its left neighbour. *)
Lemma uid_search_spec (recs : list mail_index_record) (first_uid : Z) :
  uids_increasing recs = true ->
  Z.of_nat (length recs) <= 2 ^ 31 ->
  forall (fuel : nat) (idx left_idx right_idx : Z),
    0 <= left_idx <= right_idx -> right_idx <= Z.of_nat (length recs) ->
    right_idx - left_idx <= Z.of_nat fuel ->
    (forall (i : nat) r, recs !! i = Some r -> Z.of_nat i < left_idx -> uid r < first_uid) ->
    (forall (i : nat) r, recs !! i = Some r -> right_idx <= Z.of_nat i -> first_uid < uid r) ->
    (left_idx < right_idx \/
     (0 <= idx < Z.of_nat (length recs) /\ (idx = left_idx - 1 \/ idx = left_idx))) ->
    exists idx', uid_search fuel recs first_uid idx left_idx right_idx = Ret idx' /\
      0 <= idx' < Z.of_nat (length recs) /\
      ((exists r, recs !! Z.to_nat idx' = Some r /\ uid r = first_uid) \/
       (exists L, splits recs first_uid L /\ (idx' = L \/ idx' = L - 1))).
Proof.
  intros Hs Hn fuel. induction fuel as [|fuel IH];
    intros idx l r Hlr Hr Hfuel Hlo Hhi Hidx.
  - assert (l = r) by lia. subst r. simpl. rewrite Z.ltb_irrefl.
    destruct Hidx as [?|[Hb Hidx]]; [lia|].
    exists idx. split; [reflexivity|]. split; [exact Hb|]. right.
    exists l. split; [|lia]. split; [lia|]. intros i x Hx. split; intros; eauto.
  - simpl. destruct (Z.ltb_spec l r) as [Hlt|Hge].
    + set (mid := u32 (l + r) / 2).
      assert (Hmid : mid = (l + r) / 2) by (unfold mid; rewrite u32_small; lia).
      assert (Hmb : l <= mid < r).
      { rewrite Hmid. split.
        - apply Z.div_le_lower_bound; lia.
        - apply Z.div_lt_upper_bound; lia. }
      destruct (lookup_lt_is_Some_2 recs (Z.to_nat mid)) as [x Hx]; [lia|].
      assert (Hrd : rec_at recs mid = Ret x) by (apply rec_at_Ret; split; [lia|exact Hx]).
      rewrite Hrd. simpl.
      destruct (Z.ltb_spec (uid x) first_uid) as [Hc1|Hc1].
      * rewrite (u32_small (mid + 1)) by lia.
        apply IH; try lia.
        -- intros i y Hy Hi. destruct (decide (i = Z.to_nat mid)) as [->|Hne].
           ++ congruence.
           ++ assert (uid y < uid x); [|lia].
              apply (uids_increasing_lookup recs Hs i (Z.to_nat mid)); auto; lia.
        -- exact Hhi.
      * destruct (Z.gtb_spec (uid x) first_uid) as [Hc2|Hc2].
        -- apply IH; try lia.
           ++ exact Hlo.
           ++ intros i y Hy Hi. destruct (decide (i = Z.to_nat mid)) as [->|Hne].
              ** assert (y = x) by congruence. subst y. lia.
              ** assert (uid x < uid y); [|lia].
                 apply (uids_increasing_lookup recs Hs (Z.to_nat mid) i); auto; lia.
        -- exists mid. split; [reflexivity|]. split; [lia|]. left.
           exists x. split; [exact Hx|lia].
    + assert (l = r) by lia. subst r.
      destruct Hidx as [?|[Hb Hidx]]; [lia|].
      exists idx. split; [reflexivity|]. split; [exact Hb|]. right.
      exists l. split; [|lia]. split; [lia|]. intros i x Hx. split; intros; eauto.
Qed.

Lemma record_at_seq_idx (index : mail_index) (idx : Z) (r : mail_index_record) :
  0 <= idx -> records index !! Z.to_nat idx = Some r ->
  record_at_seq index (idx + 1) = Some r.
Proof.
  intros H0 H. unfold record_at_seq.
  destruct (Z.leb_spec (idx + 1) 0); [lia|].
  replace (idx + 1 - 1) with idx by lia. exact H.
Qed.

Lemma record_at_seq_inv (index : mail_index) (seq : Z) (r : mail_index_record) :
  record_at_seq index seq = Some r ->
  1 <= seq /\ records index !! Z.to_nat (seq - 1) = Some r.
Proof.
  unfold record_at_seq. destruct (Z.leb_spec seq 0); [discriminate|].
  intros H'. split; [lia|exact H'].
Qed.

(** On a non-empty array of at most 2^31 records the search is right. *)
Lemma lookup_uid_range_nonempty (index : mail_index) (first_uid last_uid : Z) :
  lock_type index <> MAIL_LOCK_UNLOCK ->
  records index <> [] ->
  Z.of_nat (length (records index)) <= 2 ^ 31 ->
  uids_increasing (records index) = true ->
  0 < first_uid <= last_uid ->
  exists res, mail_index_lookup_uid_range index first_uid last_uid = Ret res /\
              lookup_post index first_uid last_uid res.
Proof.
  intros Hlock Hne Hn Hs Hu.
  unfold mail_index_lookup_uid_range.
  assert (Hl : lock_eqb (lock_type index) MAIL_LOCK_UNLOCK = false)
    by (destruct (lock_type index); try reflexivity; congruence).
  rewrite Hl. simpl negb. cbv beta iota delta [i_assert rbind].
  destruct (Z.gtb_spec first_uid 0) as [_|?]; [|lia].
  destruct (Z.leb_spec first_uid last_uid) as [_|?]; [|lia].
  set (recs := records index) in *.
  assert (Hlen : 0 < Z.of_nat (length recs)) by (destruct recs; simpl; [congruence|lia]).
  destruct (uid_search_spec recs first_uid Hs Hn (S (length recs)) 0 0
              (Z.of_nat (length recs))) as (idx & Hrun & Hb & Hcase); try lia.
  { intros i r Hr Hi. apply lookup_lt_Some in Hr. lia. }
  unfold MAIL_INDEX_RECORD_COUNT. fold recs. rewrite Hrun.
  destruct (lookup_lt_is_Some_2 recs (Z.to_nat idx)) as [x Hx]; [lia|].
  assert (Hrd : rec_at recs idx = Ret x) by (apply rec_at_Ret; split; [lia|exact Hx]).
  rewrite Hrd.
  assert (Hmin : forall L, splits recs first_uid L ->
            forall seq' r', record_at_seq index seq' = Some r' ->
                            in_range first_uid last_uid r' -> L + 1 <= seq').
  { intros L [_ HL] seq' r' Hr' Hin. apply record_at_seq_inv in Hr' as [H1 Hr'].
    fold recs in Hr'. destruct (HL _ _ Hr') as [Hlow _]. unfold in_range in Hin.
    destruct (Z_lt_le_dec (Z.of_nat (Z.to_nat (seq' - 1))) L) as [Hc|Hc]; [|lia].
    specialize (Hlow Hc). lia. }
  assert (Hnone : forall L, splits recs first_uid L ->
            (forall y, recs !! Z.to_nat L = Some y -> last_uid < uid y) ->
            forall r, r ∈ recs -> ~ in_range first_uid last_uid r).
  { intros L [HLb HL] Hy r Hr Hin. apply list_elem_of_lookup in Hr as [i Hi].
    destruct (HL _ _ Hi) as [Hlow Hhigh]. unfold in_range in Hin.
    destruct (Z_lt_le_dec (Z.of_nat i) L) as [Hc|Hc]; [specialize (Hlow Hc); lia|].
    destruct (lookup_lt_is_Some_2 recs (Z.to_nat L)) as [y Hy'].
    { apply lookup_lt_Some in Hi. lia. }
    specialize (Hy _ Hy').
    destruct (decide (i = Z.to_nat L)) as [->|Hd]; [assert (r = y) by congruence; subst; lia|].
    assert (uid y < uid r); [|lia].
    apply (uids_increasing_lookup recs Hs (Z.to_nat L) i); auto; lia. }
  destruct Hcase as [(r & Hr & Heq)|(L & HL & Hpos)].
  - (* the loop stopped on first_uid itself *)
    assert (r = x) by congruence. subst r.
    destruct (Z.ltb_spec (uid x) first_uid); [lia|].
    destruct (Z.gtb_spec (uid x) last_uid); [lia|]. simpl.
    eexists. split; [reflexivity|]. simpl.
    rewrite u32_small by lia. split; [apply record_at_seq_idx; [lia|exact Hx]|].
    split; [unfold in_range; lia|].
    intros seq' r' Hr' Hin. apply record_at_seq_inv in Hr' as [H1 Hr']. fold recs in Hr'.
    destruct (Z_lt_le_dec (seq' - 1) idx) as [Hc|Hc]; [|lia].
    assert (uid r' < uid x); [|unfold in_range in Hin; lia].
    apply (uids_increasing_lookup recs Hs (Z.to_nat (seq' - 1)) (Z.to_nat idx)); auto; lia.
  - destruct HL as [HLb HLs]. pose proof (conj HLb HLs : splits recs first_uid L) as HL.
    destruct (HLs _ _ Hx) as [Hlow Hhigh].
    destruct Hpos as [-> | ->].
    + (* idx is the split point *)
      rewrite Z2Nat.id in Hhigh by lia. specialize (Hhigh ltac:(lia)).
      destruct (Z.ltb_spec (uid x) first_uid); [lia|]. simpl.
      destruct (Z.gtb_spec (uid x) last_uid) as [Hgt|Hle].
      * rewrite (u32_small (L + 1)) by lia.
        assert (Hno : forall r, r ∈ recs -> ~ in_range first_uid last_uid r).
        { apply (Hnone L HL). intros y Hy. assert (y = x) by congruence. subst. lia. }
        destruct (Z.eqb_spec (L + 1) (Z.of_nat (length recs))) as [He|Hne'].
        -- eexists. split; [reflexivity|]. simpl. split; [reflexivity|exact Hno].
        -- destruct (lookup_lt_is_Some_2 recs (Z.to_nat (L + 1))) as [y Hy]; [lia|].
           assert (Hrd' : rec_at recs (L + 1) = Ret y)
             by (apply rec_at_Ret; split; [lia|exact Hy]).
           rewrite Hrd'. simpl.
           assert (uid x < uid y)
             by (apply (uids_increasing_lookup recs Hs (Z.to_nat L) (Z.to_nat (L + 1)));
                 auto; lia).
           destruct (Z.gtb_spec (uid y) last_uid); [|lia].
           rewrite orb_true_r.
           eexists. split; [reflexivity|]. simpl. split; [reflexivity|exact Hno].
      * eexists. split; [reflexivity|]. simpl. rewrite u32_small by lia.
        split; [apply record_at_seq_idx; [lia|exact Hx]|].
        split; [unfold in_range; lia|]. apply Hmin. exact HL.
    + (* idx is the left neighbour of the split point *)
      rewrite Z2Nat.id in Hlow by lia. specialize (Hlow ltac:(lia)).
      destruct (Z.ltb_spec (uid x) first_uid); [|lia]. simpl.
      replace (L - 1 + 1) with L by lia. rewrite (u32_small L) by lia.
      destruct (Z.eqb_spec L (Z.of_nat (length recs))) as [He|Hne'].
      * eexists. split; [reflexivity|]. simpl. split; [reflexivity|].
        apply (Hnone L HL). intros y Hy. apply lookup_lt_Some in Hy. lia.
      * destruct (lookup_lt_is_Some_2 recs (Z.to_nat L)) as [y Hy]; [lia|].
        assert (Hrd' : rec_at recs L = Ret y) by (apply rec_at_Ret; split; [lia|exact Hy]).
        rewrite Hrd'. simpl.
        destruct (HLs _ _ Hy) as [_ Hyh]. rewrite Z2Nat.id in Hyh by lia.
        specialize (Hyh ltac:(lia)).
        destruct (Z.ltb_spec (uid y) first_uid); [lia|]. simpl.
        destruct (Z.gtb_spec (uid y) last_uid) as [Hgt|Hle].
        -- eexists. split; [reflexivity|]. simpl. split; [reflexivity|].
           apply (Hnone L HL). intros y' Hy'. assert (y' = y) by congruence. subst. lia.
        -- eexists. split; [reflexivity|]. simpl. rewrite u32_small by lia.
           split; [apply record_at_seq_idx; [lia|exact Hy]|].
           split; [unfold in_range; lia|]. apply Hmin. exact HL.
Qed.

Example lookup_uid_range_hit :
  mail_index_lookup_uid_range
    (mk_index [MkRec 2 0; MkRec 5 0; MkRec 9 0; MkRec 12 0]) 3 10
  = Ret (Some (MkRec 5 0), 2).
Proof. reflexivity. Qed.

Example lookup_uid_range_miss :
  mail_index_lookup_uid_range
    (mk_index [MkRec 2 0; MkRec 5 0; MkRec 9 0; MkRec 12 0]) 6 8
  = Ret (None, 0).
Proof. reflexivity. Qed.

(** C5 (fails on the empty array).  With no records the loop body never
    runs, [idx] stays 0 and the test after the loop reads [rec_p[0].uid]
    although [idx_limit] is 0: the function reads outside the array instead
    of returning [(NULL, 0)]. *)
Theorem lookup_uid_range_empty_reads_outside :
  mail_index_lookup_uid_range (mk_index []) 1 1 = BadRead.
Proof. reflexivity. Qed.

(** *** Expunging a range *)

Lemma memmove_tail_down {A : Type} (l : list A) (first last : nat) :
  (first <= last)%nat -> (last < length l)%nat ->
  take (length (memmove l first (S last) (length l - last - 1)) - (last - first + 1))
       (memmove l first (S last) (length l - last - 1))
  = take first l ++ drop (S last) l.
Proof.
  intros H1 H2. unfold memmove.
  rewrite (take_ge (drop (S last) l)) by (rewrite length_drop; lia).
  rewrite app_assoc.
  rewrite take_app_length'; [reflexivity|].
  rewrite !length_app, length_take, !length_drop. lia.
Qed.

Lemma expunge_lookup_left {A : Type} (l : list A) (first last i : nat) :
  (first <= length l)%nat -> (i < first)%nat ->
  (take first l ++ drop (S last) l) !! i = l !! i.
Proof.
  intros H1 H2. rewrite lookup_app_l by (rewrite length_take; lia).
  apply lookup_take_lt. lia.
Qed.

Lemma expunge_lookup_right {A : Type} (l : list A) (first last i : nat) :
  (first <= last)%nat -> (last < length l)%nat -> (first <= i)%nat ->
  (take first l ++ drop (S last) l) !! i = l !! (i + (last - first + 1))%nat.
Proof.
  intros H1 H2 H3. rewrite lookup_app_r by (rewrite length_take; lia).
  rewrite length_take, lookup_drop. f_equal. lia.
Qed.

Lemma expunge_keeps_order (l : list mail_index_record) (first last : nat) :
  (first <= last)%nat -> (last < length l)%nat ->
  uids_increasing l = true ->
  uids_increasing (take first l ++ drop (S last) l) = true.
Proof.
  intros H1 H2 Hs. apply uids_increasing_intro.
  intros i j ri rj Hi Hj Hlt.
  destruct (le_lt_dec first i) as [Hci|Hci]; destruct (le_lt_dec first j) as [Hcj|Hcj].
  - rewrite expunge_lookup_right in Hi, Hj by lia.
    eapply (uids_increasing_lookup l Hs); eauto. lia.
  - lia.
  - rewrite expunge_lookup_left in Hi by lia.
    rewrite expunge_lookup_right in Hj by lia.
    eapply (uids_increasing_lookup l Hs); eauto. lia.
  - rewrite expunge_lookup_left in Hi, Hj by lia.
    eapply (uids_increasing_lookup l Hs); eauto.
Qed.

(** What the expunge leaves in the record array. *)
Lemma expunge_records (sizeof_rec truncate_ret : Z) (index : mail_index)
    (first_idx last_idx : Z) :
  lock_type index = MAIL_LOCK_EXCLUSIVE ->
  Z.of_nat (length (records index)) < 2 ^ 32 ->
  0 <= first_idx <= last_idx -> last_idx < Z.of_nat (length (records index)) ->
  exists index',
    mail_index_expunge_record_range sizeof_rec truncate_ret index first_idx last_idx
      = Ret (truncate_ret, index') /\
    messages_count index'
      = u32 (messages_count index - (last_idx - first_idx + 1)) /\
    records index'
      = take (Z.to_nat first_idx) (records index)
        ++ drop (S (Z.to_nat last_idx)) (records index).
Proof.
  intros Hlock Hn H1 H2. unfold mail_index_expunge_record_range.
  rewrite Hlock. simpl lock_eqb. unfold MAIL_INDEX_RECORD_COUNT.
  cbv beta iota delta [i_assert rbind].
  destruct (Z.leb_spec first_idx last_idx); [|lia].
  destruct (Z.ltb_spec last_idx (Z.of_nat (length (records index)))); [|lia].
  eexists. split; [reflexivity|]. simpl.
  rewrite !(u32_small (last_idx - first_idx + 1)) by lia.
  split; [reflexivity|].
  unfold MAIL_INDEX_RECORD_COUNT. simpl.
  rewrite (u32_small (Z.of_nat (length (records index)) - last_idx - 1)) by lia.
  replace (Z.to_nat (last_idx + 1)) with (S (Z.to_nat last_idx)) by lia.
  replace (Z.to_nat (Z.of_nat (length (records index)) - last_idx - 1))
    with (length (records index) - Z.to_nat last_idx - 1)%nat by lia.
  replace (Z.to_nat (last_idx - first_idx + 1))
    with (Z.to_nat last_idx - Z.to_nat first_idx + 1)%nat by lia.
  apply memmove_tail_down; lia.
Qed.

(** C6.  Expunging the records at sequences [a..b] from an array with
    strictly increasing UIDs: [messages_count] drops by the length of the
    range (and still equals the array length), the UIDs left are strictly
    increasing, records before [a] stay where they are, and every record
    after [b] moves down by the removed count, so that the record that was
    at sequence [b + 1] is at sequence [a]. *)
Theorem expunge_range_shifts (sizeof_rec truncate_ret : Z) (index : mail_index) (a b : Z) :
  lock_type index = MAIL_LOCK_EXCLUSIVE ->
  uids_increasing (records index) = true ->
  messages_count index = MAIL_INDEX_RECORD_COUNT index ->
  MAIL_INDEX_RECORD_COUNT index < 2 ^ 32 ->
  1 <= a <= b -> b <= messages_count index ->
  exists index',
    mail_index_expunge_record_range sizeof_rec truncate_ret index (a - 1) (b - 1)
      = Ret (truncate_ret, index') /\
    messages_count index' = messages_count index - (b - a + 1) /\
    messages_count index' = MAIL_INDEX_RECORD_COUNT index' /\
    uids_increasing (records index') = true /\
    (forall seq, 1 <= seq < a -> record_at_seq index' seq = record_at_seq index seq) /\
    (forall seq, b < seq ->
        record_at_seq index' (seq - (b - a + 1)) = record_at_seq index seq) /\
    record_at_seq index' a = record_at_seq index (b + 1).
Proof.
  intros Hlock Hs Hinv Hn Hab Hb. unfold MAIL_INDEX_RECORD_COUNT in *.
  destruct (expunge_records sizeof_rec truncate_ret index (a - 1) (b - 1))
    as (index' & Hrun & Hcount & Hrecs); [exact Hlock | lia | lia | lia |].
  exists index'. split; [exact Hrun|].
  replace (b - 1 - (a - 1) + 1) with (b - a + 1) in Hcount by lia.
  rewrite u32_small in Hcount by lia.
  assert (Hshift : forall seq, b < seq ->
            record_at_seq index' (seq - (b - a + 1)) = record_at_seq index seq).
  { intros seq Hseq. unfold record_at_seq.
    destruct (Z.leb_spec (seq - (b - a + 1)) 0); [lia|].
    destruct (Z.leb_spec seq 0); [lia|].
    rewrite Hrecs, expunge_lookup_right by lia. f_equal. lia. }
  split; [exact Hcount|]. split.
  { rewrite Hcount, Hrecs, length_app, length_take, length_drop. lia. }
  split.
  { rewrite Hrecs. apply expunge_keeps_order; [lia|lia|exact Hs]. }
  split.
  { intros seq Hseq. unfold record_at_seq.
    destruct (Z.leb_spec seq 0); [lia|].
    rewrite Hrecs. apply expunge_lookup_left; lia. }
  split; [exact Hshift|].
  rewrite <- (Hshift (b + 1)) by lia. f_equal. lia.
Qed.

(** The expunge of sequences 2..3 from a five-record index. *)
Lemma expunge_range_shifts_witness :
  let index := mk_index [MkRec 2 1; MkRec 5 0; MkRec 9 4; MkRec 12 0; MkRec 20 8] in
  exists index',
    mail_index_expunge_record_range 16 0 index (2 - 1) (3 - 1) = Ret (0, index') /\
    messages_count index' = messages_count index - (3 - 2 + 1) /\
    messages_count index' = MAIL_INDEX_RECORD_COUNT index' /\
    uids_increasing (records index') = true /\
    (forall seq, 1 <= seq < 2 -> record_at_seq index' seq = record_at_seq index seq) /\
    (forall seq, 3 < seq ->
        record_at_seq index' (seq - (3 - 2 + 1)) = record_at_seq index seq) /\
    record_at_seq index' 2 = record_at_seq index (3 + 1).
Proof.
  intros index.
  apply (expunge_range_shifts 16 0 index 2 3);
    [reflexivity | reflexivity | reflexivity | reflexivity | lia | simpl; lia].
Defined.

Example expunge_example :
  snd <$> (match mail_index_expunge_record_range 16 0
             (mk_index [MkRec 2 1; MkRec 5 0; MkRec 9 4; MkRec 12 0; MkRec 20 8]) 1 2 with
           | Ret p => Some p | _ => None end)
  = Some {| lock_type := MAIL_LOCK_EXCLUSIVE; messages_count := 3;
            used_file_size := -32; mmap_used_length := -32;
            records := [MkRec 2 1; MkRec 12 0; MkRec 20 8];
            flag_changes := [(5, 0, 0); (9, 4, 0)] |}.
Proof. reflexivity. Qed.

End MailIndexFacts.

(** ** Properties of the maildir save transaction *)

Module MaildirSaveFacts.
Import MaildirSave.

Local Open Scope string_scope.
Local Open Scope list_scope.
Local Open Scope Z_scope.

Section Generic.

Context {X : Type} `{Collaborators X}.

Lemma mbind_inv {A B : Type} (m : M A) (k : A -> M B) (w w' : world X) (b : B) :
  mbind m k w = Ret (b, w') ->
  exists a w1, m w = Ret (a, w1) /\ k a w1 = Ret (b, w').
Proof.
  unfold mbind. destruct (m w) as [[a w1]| | |]; try discriminate.
  intros Hk. exists a, w1. split; [reflexivity|exact Hk].
Qed.

Lemma mret_inv {A : Type} (a b : A) (w w' : world X) :
  mret a w = Ret (b, w') -> a = b /\ w = w'.
Proof. unfold mret. intros E. inversion E. split; reflexivity. Qed.


Lemma m_assert_inv (b : bool) (w w' : world X) (u : unit) :
  m_assert b w = Ret (u, w') -> b = true /\ w = w'.
Proof.
  unfold m_assert. destruct b; [|discriminate]. intros E. inversion E. split; reflexivity.
Qed.

(** *** What the system calls leave in the trace *)






(** *** What [maildir_save_init] stores *)

Lemma maildir_save_init_inv (t t' : maildir_transaction_context) (flags received : Z)
    (inp : string) (w w' : world X) :
  maildir_save_init t flags received inp w = Ret (t', w') ->
  exists ctx',
    save_ctx t' = Some ctx' /\ t_ibox t' = t_ibox t /\
    save_crlf ctx' = save_crlf (context_of t w) /\
    tmpdir ctx' = tmpdir (context_of t w) /\
    newdir ctx' = newdir (context_of t w) /\
    curdir ctx' = curdir (context_of t w) /\
    ((failed ctx' = true /\ fd ctx' = -1 /\ files ctx' = files (context_of t w)) \/
     (failed ctx' = false /\ fd ctx' <> -1 /\
      output ctx' = Some (MkOstream (fd ctx') (save_crlf ctx') 0) /\
      exists fname,
        files ctx'
        = MkFilename fname
            (if stored_flags t flags =? MAIL_RECENT then None
             else Some (maildir_filename_set_flags fname (stored_flags t flags)))
          :: files (context_of t w))).
Proof.
  unfold maildir_save_init. intros Hrun.
  apply mbind_inv in Hrun as (ctx0 & w0 & Hctx & Hrun).
  assert (Hc0 : ctx0 = context_of t w /\ w0 = w).
  { unfold context_of. destruct (save_ctx t).
    - apply mret_inv in Hctx as [-> ->]. auto.
    - unfold maildir_transaction_save_init in Hctx. inversion Hctx. auto. }
  destruct Hc0 as [-> ->]. clear Hctx.
  apply mbind_inv in Hrun as (p & w1 & Htmp & Hrun).
  cbv zeta in Hrun.
  destruct (Z.eqb_spec (fd (set_fd p.1 (context_of t w))) (-1)) as [Hfd|Hfd].
  - apply mret_inv in Hrun as [<- <-]. eexists. split; [reflexivity|]. simpl.
    repeat (split; [reflexivity|]). left. simpl in Hfd. auto.
  - destruct (after_last_slash p.2) as [fname|]; [|discriminate].
    apply mbind_inv in Hrun as (s & w2 & Happ & Hrun).
    apply mbind_inv in Hrun as (u & w3 & Hupd & Hrun).
    apply mret_inv in Hrun as [<- <-]. eexists. split; [reflexivity|]. simpl.
    repeat (split; [reflexivity|]). right. simpl in Hfd.
    repeat (split; [first [reflexivity | exact Hfd]|]).
    exists fname. reflexivity.
Qed.


(** *** Running [maildir_save_finish] on a failed context *)

Lemma mbind_Ret {A B : Type} (m : M A) (k : A -> M B) (w w1 : world X) (a : A) :
  m w = Ret (a, w1) -> mbind m k w = k a w1.
Proof. unfold mbind. intros ->. reflexivity. Qed.

Lemma set_failed_id (c : maildir_save_context) :
  failed c = true -> set_failed true c = c.
Proof. destruct c; simpl. intros ->. reflexivity. Qed.

(** The steps of the form "on a negative result report a critical error
    and set [failed]" leave a failed context as it is. *)
Lemma flag_step_failed (r : Z) (msg : string) (c : maildir_save_context) (w : world X) :
  failed c = true ->
  exists w1 tr,
    (if r <? 0 then mbind (mail_storage_set_critical msg) (fun _ => mret (set_failed true c))
     else mret c) w = Ret (c, w1) /\
    trace w1 = trace w ++ tr /\ fs w1 = fs w.
Proof.
  intros Hf. destruct (r <? 0).
  - exists (log (EvSetCritical msg) w), [EvSetCritical msg].
    rewrite (set_failed_id c Hf). repeat split; reflexivity.
  - exists w, []. rewrite app_nil_r. repeat split; reflexivity.
Qed.

Lemma sys_utime_run (p : string) (a m : Z) (w : world X) :
  exists r w1 tr, sys_utime p a m w = Ret (r, w1) /\ trace w1 = trace w ++ tr.
Proof.
  unfold sys_utime. destruct (negb _); [|destruct (fs w !! p)];
    do 3 eexists; (split; [reflexivity|]); reflexivity.
Qed.

Lemma sys_fsync_run (d : Z) (w : world X) :
  exists r w1 tr, sys_fsync d w = Ret (r, w1) /\ trace w1 = trace w ++ tr.
Proof.
  unfold sys_fsync. destruct (_ =? 0); do 3 eexists; (split; [reflexivity|]); reflexivity.
Qed.

Lemma sys_close_run (d : Z) (w : world X) :
  exists r w1 e, sys_close d w = Ret (r, w1) /\ trace w1 = trace w ++ [EvClose d e].
Proof.
  unfold sys_close. destruct (_ =? 0); do 3 eexists; (split; [reflexivity|]); reflexivity.
Qed.

Lemma sys_unlink_run (p : string) (w : world X) :
  exists r w1 e, sys_unlink p w = Ret (r, w1) /\ trace w1 = trace w ++ [EvUnlink p e] /\
                 (e = 0 -> fs w1 = delete p (fs w)).
Proof.
  unfold sys_unlink.
  destruct (Z.eqb_spec (if negb (fault w (SysUnlink p) =? 0) then fault w (SysUnlink p)
                        else match fs w !! p with Some _ => 0 | None => ENOENT end) 0)
    as [He|He].
  - do 3 eexists. split; [reflexivity|]. split; [reflexivity|]. reflexivity.
  - do 3 eexists. split; [reflexivity|]. split; [reflexivity|]. intros E. contradiction.
Qed.

(** With [failed] set and the descriptor still open, [maildir_save_finish]
    returns -1 after closing the stream and the descriptor, unlinking the
    temp file and taking the head off the chain. *)
Lemma save_finish_after_failure (ctx : maildir_save_context) (want : bool) (w : world X)
    (mf : maildir_filename) (rest : list maildir_filename) (out : ostream) :
  failed ctx = true -> fd ctx <> -1 -> files ctx = mf :: rest -> output ctx = Some out ->
  exists w' tr e_close e_unlink,
    maildir_save_finish ctx want w
      = Ret ((-1, set_files rest (set_fd (-1) (set_output None ctx))), w') /\
    trace w' = trace w ++ tr /\
    EvClose (fd ctx) e_close ∈ tr /\ EvUnlink (tmp_path ctx mf) e_unlink ∈ tr.
Proof.
  intros Hfailed Hfd Hfiles Hout. unfold maildir_save_finish.
  rewrite Hfailed. simpl andb.
  destruct (Z.eqb_spec (fd ctx) (-1)) as [?|_]; [contradiction|].
  rewrite Hfiles. cbv beta iota delta [andb].
  assert (Hblock : exists w1 tr1,
    (if negb (received_date ctx =? -1)
     then mbind (fun w0 => Ret (ioloop_time w0, w0))
            (fun now => mbind (sys_utime (tmpdir ctx +:+ "/" +:+ basename mf) now
                                 (received_date ctx))
               (fun r => if r <? 0
                         then mbind (mail_storage_set_critical "utime() failed")
                                (fun _ => mret (set_failed true ctx))
                         else mret ctx))
     else mret ctx) w = Ret (ctx, w1) /\ trace w1 = trace w ++ tr1).
  { destruct (negb (received_date ctx =? -1)).
    - destruct (sys_utime_run (tmpdir ctx +:+ "/" +:+ basename mf) (ioloop_time w)
                  (received_date ctx) w) as (r & wu & tru & E & Ht).
      destruct (flag_step_failed r "utime() failed" ctx wu Hfailed)
        as (w1 & tr & E1 & Ht1 & _).
      exists w1, (tru ++ tr). split.
      + unfold mbind at 1. erewrite mbind_Ret by exact E. exact E1.
      + rewrite Ht1, Ht, app_assoc. reflexivity.
    - exists w, []. rewrite app_nil_r. split; reflexivity. }
  destruct Hblock as (w1 & tr1 & Eblock & Ht1).
  erewrite mbind_Ret by exact Eblock. rewrite Hout. cbv beta iota zeta.
  destruct (sys_fsync_run (fd (set_output None ctx)) w1) as (r2 & w2 & tr2 & E2 & Ht2).
  erewrite mbind_Ret by exact E2.
  destruct (flag_step_failed r2 "fsync() failed" (set_output None ctx) w2 Hfailed)
    as (w3 & tr3 & E3 & Ht3 & _).
  erewrite mbind_Ret by exact E3.
  destruct (sys_close_run (fd (set_output None ctx)) w3) as (r4 & w4 & e4 & E4 & Ht4).
  erewrite mbind_Ret by exact E4.
  destruct (flag_step_failed r4 "close() failed" (set_output None ctx) w4 Hfailed)
    as (w5 & tr5 & E5 & Ht5 & _).
  erewrite mbind_Ret by exact E5.
  replace (failed (set_fd (-1) (set_output None ctx))) with true by (symmetry; exact Hfailed).
  cbv beta iota.
  destruct (sys_unlink_run (tmpdir ctx +:+ "/" +:+ basename mf) w5)
    as (r6 & w6 & e6 & E6 & Ht6 & _).
  erewrite mbind_Ret by exact E6.
  assert (Htail : exists w' tr7,
    mbind get_errno (fun e =>
      mbind (if (r6 <? 0) && negb (e =? ENOENT)
             then mail_storage_set_critical "unlink() failed" else mret tt) (fun _ =>
      mbind (put_errno (stream_errno out)) (fun _ =>
      mbind (if ENOSPACE (stream_errno out)
             then mail_storage_set_error "Not enough disk space"
             else if negb (stream_errno out =? 0)
                  then mail_storage_set_critical "write() failed"
                  else mret tt) (fun _ =>
      mret (-1, set_files rest (set_fd (-1) (set_output None ctx))))))) w6
    = Ret ((-1, set_files rest (set_fd (-1) (set_output None ctx))), w') /\
    trace w' = trace w6 ++ tr7).
  { unfold mbind, get_errno, put_errno, mail_storage_set_critical,
      mail_storage_set_error, mret.
    destruct ((r6 <? 0) && negb (errno w6 =? ENOENT));
      destruct (ENOSPACE (stream_errno out));
      try destruct (negb (stream_errno out =? 0));
      eexists; eexists; (split; [reflexivity|]); simpl;
      rewrite <- ?app_assoc; try reflexivity;
      try (rewrite app_nil_r; reflexivity).
    all: symmetry; apply app_nil_r. }
  destruct Htail as (w' & tr7 & E7 & Ht7).
  exists w', (tr1 ++ tr2 ++ tr3 ++ [EvClose (fd ctx) e4] ++ tr5
              ++ [EvUnlink (tmp_path ctx mf) e6] ++ tr7), e4, e6.
  split; [exact E7|]. split.
  { rewrite Ht7, Ht6, Ht5, Ht4, Ht3, Ht2, Ht1. unfold tmp_path. simpl.
    rewrite <- !app_assoc. reflexivity. }
  split; set_solver.
Qed.





(** C3 (amended).  Once [failed] is set, [maildir_save_continue] does
    nothing and returns -1.  [maildir_save_finish] does nothing and returns
    -1 when, besides, the descriptor is -1; with the descriptor still open it
    returns -1 as well, but only after closing the stream and the descriptor,
    unlinking the temp file and dropping the head of the chain. *)
Theorem failed_save_is_sticky (ctx : maildir_save_context) (w : world X) :
  failed ctx = true ->
  maildir_save_continue ctx w = Ret ((-1, ctx), w) /\
  (fd ctx = -1 ->
   forall want, maildir_save_finish ctx want w = Ret ((-1, ctx), w)) /\
  (fd ctx <> -1 ->
   forall want mf rest out, files ctx = mf :: rest -> output ctx = Some out ->
     exists w' tr e_close e_unlink,
       maildir_save_finish ctx want w
         = Ret ((-1, set_files rest (set_fd (-1) (set_output None ctx))), w') /\
       trace w' = trace w ++ tr /\
       EvClose (fd ctx) e_close ∈ tr /\ EvUnlink (tmp_path ctx mf) e_unlink ∈ tr).
Proof.
  intros Hfailed. split; [|split].
  - unfold maildir_save_continue. rewrite Hfailed. reflexivity.
  - intros Hfd want. unfold maildir_save_finish. rewrite Hfailed, Hfd. reflexivity.
  - intros Hfd want mf rest out Hfiles Hout.
    apply (save_finish_after_failure ctx want w mf rest out); assumption.
Qed.

(** What decides between new/ and cur/ is the caller's flags without RECENT
    together with the mailbox's [keep_recent]; the caller's own RECENT bit
    is ignored. *)
Lemma stored_flags_recent (t : maildir_transaction_context) (flags : Z) :
  MAIL_RECENT <> 0 ->
  (stored_flags t flags = MAIL_RECENT <->
   Z.land flags (Z.lnot MAIL_RECENT) = 0 /\ keep_recent (t_ibox t) = true).
Proof.
  intros Hnz. unfold stored_flags.
  set (a := Z.land flags (Z.lnot MAIL_RECENT)).
  assert (Hdisj : Z.land a MAIL_RECENT = 0).
  { unfold a. rewrite <- Z.land_assoc, (Z.land_comm (Z.lnot _)), Z.land_lnot_diag.
    apply Z.land_0_r. }
  destruct (keep_recent (t_ibox t)).
  - split.
    + intros Heq. split; [|reflexivity].
      apply Z.bits_inj'. intros n Hn. rewrite Z.bits_0.
      destruct (Z.testbit a n) eqn:Ea; [|reflexivity].
      assert (Hr : Z.testbit MAIL_RECENT n = false).
      { pose proof (f_equal (fun z => Z.testbit z n) Hdisj) as Hb. simpl in Hb.
        rewrite Z.land_spec, Ea, Z.bits_0 in Hb. exact Hb. }
      pose proof (f_equal (fun z => Z.testbit z n) Heq) as Hb. simpl in Hb.
      rewrite Z.lor_spec, Ea, Hr in Hb. discriminate.
    + intros [-> _]. apply Z.lor_0_l.
  - rewrite Z.lor_0_r. split.
    + intros Heq. exfalso. apply Hnz.
      rewrite <- Hdisj, Heq. symmetry. apply Z.land_diag.
    + intros [_ Habs]. discriminate.
Qed.

Lemma save_init_destination_general (t t' : maildir_transaction_context)
    (flags received : Z) (inp : string) (w w' : world X) (ctx' : maildir_save_context) :
  MAIL_RECENT <> 0 ->
  maildir_save_init t flags received inp w = Ret (t', w') ->
  save_ctx t' = Some ctx' -> failed ctx' = false ->
  exists mf, files ctx' = mf :: staged t /\
    (dest mf = None <->
     Z.land flags (Z.lnot MAIL_RECENT) = 0 /\ keep_recent (t_ibox t) = true) /\
    (dest mf = None -> dest_path ctx' mf = newdir ctx' +:+ "/" +:+ basename mf) /\
    (dest mf <> None ->
     dest mf = Some (maildir_filename_set_flags (basename mf) (stored_flags t flags)) /\
     dest_path ctx' mf
     = curdir ctx' +:+ "/" +:+
       maildir_filename_set_flags (basename mf) (stored_flags t flags)).
Proof.
  intros Hnz Hrun Hctx Hok.
  apply maildir_save_init_inv in Hrun as (c & Hc & _ & _ & _ & _ & _ & Hcase).
  assert (c = ctx') by congruence. subst c.
  destruct Hcase as [[Hf _]|(_ & _ & _ & fname & Hfiles)]; [congruence|].
  eexists. split.
  { rewrite Hfiles. f_equal. unfold staged, context_of. destruct (save_ctx t); reflexivity. }
  pose proof (stored_flags_recent t flags Hnz) as Hiff.
  simpl. destruct (Z.eqb_spec (stored_flags t flags) MAIL_RECENT) as [He|He].
  - split; [split; [intros _; apply Hiff; exact He|reflexivity]|].
    split; [reflexivity|]. intros Habs. contradiction.
  - split.
    { split; [discriminate|]. intros Hc'. apply Hiff in Hc'. contradiction. }
    split; [discriminate|]. intros _. split; reflexivity.
Qed.

(** C9 (amended).  [save_crlf] is read when the context is built, that is
    by the first [maildir_save_init] of the transaction: it is set exactly
    when MAIL_SAVE_CRLF is in the environment, whatever its value; later
    calls keep it; and the output stream of every message filters LF to CRLF
    exactly when it is set. *)
Theorem save_crlf_iff_variable_set (t t' : maildir_transaction_context)
    (flags received : Z) (inp : string) (w w' : world X) (ctx' : maildir_save_context) :
  maildir_save_init t flags received inp w = Ret (t', w') ->
  save_ctx t' = Some ctx' ->
  (save_ctx t = None ->
   (save_crlf ctx' = true <-> exists v, getenv "MAIL_SAVE_CRLF" (environ w) = Some v)) /\
  (forall c, save_ctx t = Some c -> save_crlf ctx' = save_crlf c) /\
  (failed ctx' = false ->
   exists out, output ctx' = Some out /\ os_crlf out = save_crlf ctx').
Proof.
  intros Hrun Hctx.
  apply maildir_save_init_inv in Hrun as (c & Hc & _ & Hcrlf & _ & _ & _ & Hcase).
  assert (c = ctx') by congruence. subst c.
  split; [|split].
  - intros Hnone. rewrite Hcrlf. unfold context_of. rewrite Hnone. simpl.
    destruct (getenv "MAIL_SAVE_CRLF" (environ w)) as [v|].
    + split; [intros _; exists v; reflexivity|reflexivity].
    + split; [discriminate|]. intros [v Hv]. discriminate.
  - intros c Hsome. rewrite Hcrlf. unfold context_of. rewrite Hsome. reflexivity.
  - intros Hok. destruct Hcase as [[Hf _]|(_ & _ & Hout & _)]; [congruence|].
    eexists. split; [exact Hout|reflexivity].
Qed.

End Generic.

(** *** Runs on the reference mailbox *)

Lemma and_intro_dep (A B : Prop) : A -> (A -> B) -> A /\ B.
Proof. intros a f. split; [exact a|exact (f a)]. Qed.





(** A context that failed on a full disk. *)
Lemma failed_save_is_sticky_witness :
  exists t1 ctx1 ctx2 w1 w2,
    maildir_save_init (inbox true) 0 777 hello (start_world [] write_fails) = Ret (t1, w1) /\
    save_ctx t1 = Some ctx1 /\
    maildir_save_continue ctx1 w1 = Ret ((-1, ctx2), w2) /\
    failed ctx2 = true /\
    maildir_save_continue ctx2 w2 = Ret ((-1, ctx2), w2) /\
    (fd ctx2 = -1 ->
     forall want, maildir_save_finish ctx2 want w2 = Ret ((-1, ctx2), w2)) /\
    (fd ctx2 <> -1 ->
     forall want mf rest out, files ctx2 = mf :: rest -> output ctx2 = Some out ->
       exists w' tr e_close e_unlink,
         maildir_save_finish ctx2 want w2
           = Ret ((-1, set_files rest (set_fd (-1) (set_output None ctx2))), w') /\
         trace w' = trace w2 ++ tr /\
         EvClose (fd ctx2) e_close ∈ tr /\ EvUnlink (tmp_path ctx2 mf) e_unlink ∈ tr).
Proof.
  do 5 eexists.
  apply and_intro_dep; [vm_compute; reflexivity | intros _].
  apply and_intro_dep; [reflexivity | intros _].
  apply and_intro_dep; [vm_compute; reflexivity | intros _].
  apply and_intro_dep; [reflexivity | intros Hfailed].
  apply (failed_save_is_sticky _ _ Hfailed).
Defined.

(** C3 (as stated, fails).  The disk is full: [maildir_save_continue] sets
    [failed], with the temp file created and the descriptor open.  The
    [maildir_save_finish] that follows returns -1 but is no no-op: it closes
    the descriptor, removes the temp file and empties the chain. *)
Lemma save_finish_on_failed_context_cleans_up :
  exists t1 ctx1 ctx2 ctx3 w1 w2 w3,
    maildir_save_init (inbox true) 0 777 hello (start_world [] write_fails) = Ret (t1, w1) /\
    save_ctx t1 = Some ctx1 /\
    maildir_save_continue ctx1 w1 = Ret ((-1, ctx2), w2) /\
    failed ctx2 = true /\ fd ctx2 = 3 /\ files ctx2 = [MkFilename "msg0" None] /\
    fs w2 !! "/inbox/tmp/msg0" = Some (MkFile EmptyString 0 0) /\
    maildir_save_finish ctx2 false w2 = Ret ((-1, ctx3), w3) /\
    fd ctx3 = -1 /\ files ctx3 = [] /\ output ctx3 = None /\
    fs w3 !! "/inbox/tmp/msg0" = None /\
    drop (length (trace w2)) (trace w3)
    = [EvUtime "/inbox/tmp/msg0" 1000 777 0; EvFsync 3 0; EvClose 3 0;
       EvUnlink "/inbox/tmp/msg0" 0; EvSetError "Not enough disk space"].
Proof.
  do 7 eexists.
  apply and_intro_dep; [vm_compute; reflexivity | intros _].
  apply and_intro_dep; [reflexivity | intros _].
  apply and_intro_dep; [vm_compute; reflexivity | intros _].
  do 4 (split; [vm_compute; reflexivity|]).
  apply and_intro_dep; [vm_compute; reflexivity | intros _].
  repeat split; vm_compute; reflexivity.
Qed.

(** C4 (amended).  The staged file has no destination name, and is
    published in new/, exactly when the caller's flags without RECENT are
    empty and the mailbox keeps RECENT; otherwise its destination name is the
    flag-encoded name and it is published in cur/.  In particular a message
    saved with empty flags into an empty mailbox that keeps RECENT is, after
    the commit, the one file of the mailbox, in new/, with UID 1. *)
Theorem save_init_destination :
  (forall (X : Type) (H : Collaborators X) (t t' : maildir_transaction_context)
          (flags received : Z) (inp : string) (w w' : world X)
          (ctx' : maildir_save_context),
      MAIL_RECENT <> 0 ->
      maildir_save_init t flags received inp w = Ret (t', w') ->
      save_ctx t' = Some ctx' -> failed ctx' = false ->
      exists mf, files ctx' = mf :: staged t /\
        (dest mf = None <->
         Z.land flags (Z.lnot MAIL_RECENT) = 0 /\ keep_recent (t_ibox t) = true) /\
        (dest mf = None -> dest_path ctx' mf = newdir ctx' +:+ "/" +:+ basename mf) /\
        (dest mf <> None ->
         dest mf = Some (maildir_filename_set_flags (basename mf) (stored_flags t flags)) /\
         dest_path ctx' mf
         = curdir ctx' +:+ "/" +:+
           maildir_filename_set_flags (basename mf) (stored_flags t flags))) /\
  (exists t1 ctx w1 w2,
      save_message (inbox true) 0 777 hello (start_world [] no_fault) = Ret ((0, t1), w1) /\
      save_ctx t1 = Some ctx /\
      maildir_transaction_save_commit ctx w1 = Ret (1, w2) /\
      map_to_list (fs w2) = [("/inbox/new/msg0", MkFile hello 1000 777)] /\
      mb_uidlist (ext w2) = [(1, "msg0")] /\
      mb_appended (ext w2) = [(1, 32, 1)]).
Proof.
  split.
  - intros X H. apply save_init_destination_general.
  - do 4 eexists.
    apply and_intro_dep; [vm_compute; reflexivity | intros _].
    apply and_intro_dep; [reflexivity | intros _].
    apply and_intro_dep; [vm_compute; reflexivity | intros _].
    repeat split; vm_compute; reflexivity.
Qed.

(** A message saved with the SEEN flag. *)
Lemma save_init_destination_witness :
  exists t1 w1 ctx1,
    maildir_save_init (inbox true) 8 777 hello (start_world [] no_fault) = Ret (t1, w1) /\
    save_ctx t1 = Some ctx1 /\
    exists mf, files ctx1 = mf :: staged (inbox true) /\
      (dest mf = None <->
       Z.land 8 (Z.lnot MAIL_RECENT) = 0 /\ keep_recent (t_ibox (inbox true)) = true) /\
      (dest mf = None -> dest_path ctx1 mf = newdir ctx1 +:+ "/" +:+ basename mf) /\
      (dest mf <> None ->
       dest mf = Some (maildir_filename_set_flags (basename mf)
                         (stored_flags (inbox true) 8)) /\
       dest_path ctx1 mf
       = curdir ctx1 +:+ "/" +:+
         maildir_filename_set_flags (basename mf) (stored_flags (inbox true) 8)).
Proof.
  do 3 eexists.
  apply and_intro_dep; [vm_compute; reflexivity | intros Hrun].
  apply and_intro_dep; [reflexivity | intros Hctx].
  assert (Hnz : @MAIL_RECENT mailbox_state reference_mailbox <> 0) by discriminate.
  apply (proj1 save_init_destination _ _ _ _ _ _ _ _ _ _ Hnz Hrun Hctx).
  reflexivity.
Defined.

(** C4 (as stated, fails).  In a mailbox that does not keep RECENT a
    message saved with the RECENT flag alone gets a destination name and
    goes to cur/; in a mailbox that keeps RECENT a message saved with no
    flag at all, so not with RECENT alone, gets none. *)
Lemma recent_alone_does_not_decide :
  (exists t1 w1 ctx1,
      maildir_save_init (inbox false) MAIL_RECENT 777 hello (start_world [] no_fault)
        = Ret (t1, w1) /\
      save_ctx t1 = Some ctx1 /\ failed ctx1 = false /\
      files ctx1 = [MkFilename "msg0" (Some "msg0:2,")] /\
      dest_path ctx1 (MkFilename "msg0" (Some "msg0:2,")) = "/inbox/cur/msg0:2,") /\
  (exists t1 w1 ctx1,
      maildir_save_init (inbox true) 0 777 hello (start_world [] no_fault)
        = Ret (t1, w1) /\
      save_ctx t1 = Some ctx1 /\ failed ctx1 = false /\
      files ctx1 = [MkFilename "msg0" None] /\ 0 <> MAIL_RECENT).
Proof.
  split; do 3 eexists.
  - apply and_intro_dep; [vm_compute; reflexivity | intros _].
    repeat split; vm_compute; reflexivity.
  - apply and_intro_dep; [vm_compute; reflexivity | intros _].
    repeat split; try (vm_compute; reflexivity). vm_compute. discriminate.
Qed.

(** A first save with MAIL_SAVE_CRLF set to 1. *)
Lemma save_crlf_iff_variable_set_witness :
  exists t1 w1 ctx1,
    maildir_save_init (inbox true) 0 777 hello
      (start_world [("MAIL_SAVE_CRLF", "1")] no_fault) = Ret (t1, w1) /\
    save_ctx t1 = Some ctx1 /\
    (save_ctx (inbox true) = None ->
     (save_crlf ctx1 = true <->
      exists v, getenv "MAIL_SAVE_CRLF"
                  (environ (start_world [("MAIL_SAVE_CRLF", "1")] no_fault)) = Some v)) /\
    (forall c, save_ctx (inbox true) = Some c -> save_crlf ctx1 = save_crlf c) /\
    (failed ctx1 = false ->
     exists out, output ctx1 = Some out /\ os_crlf out = save_crlf ctx1).
Proof.
  do 3 eexists.
  apply and_intro_dep; [vm_compute; reflexivity | intros Hrun].
  apply and_intro_dep; [reflexivity | intros Hctx].
  apply (save_crlf_iff_variable_set _ _ _ _ _ _ _ _ Hrun Hctx).
Defined.

(** C9 (as stated, fails).  MAIL_SAVE_CRLF is set to the empty value: the
    context is built with [save_crlf] set and the body "A LF B LF" reaches
    the temp file as "A CR LF B CR LF". *)
Lemma empty_variable_enables_crlf :
  exists t1 ctx1 ctx2 w1 w2,
    getenv "MAIL_SAVE_CRLF" [("MAIL_SAVE_CRLF", EmptyString)] = Some EmptyString /\
    maildir_save_init (inbox true) 0 777 ("A" +:+ LF +:+ "B" +:+ LF)
      (start_world [("MAIL_SAVE_CRLF", EmptyString)] no_fault) = Ret (t1, w1) /\
    save_ctx t1 = Some ctx1 /\ save_crlf ctx1 = true /\
    output ctx1 = Some (MkOstream 3 true 0) /\
    maildir_save_continue ctx1 w1 = Ret ((0, ctx2), w2) /\
    f_data <$> (fs w2 !! "/inbox/tmp/msg0") = Some ("A" +:+ CRLF +:+ "B" +:+ CRLF).
Proof.
  do 5 eexists.
  split; [reflexivity|].
  apply and_intro_dep; [vm_compute; reflexivity | intros _].
  do 3 (split; [vm_compute; reflexivity|]).
  apply and_intro_dep; [vm_compute; reflexivity | intros _].
  vm_compute. reflexivity.
Qed.

Example crlf_filter_scenario :
  lf_to_crlf false ("A" +:+ LF +:+ "B" +:+ LF) = "A" +:+ CRLF +:+ "B" +:+ CRLF.
Proof. reflexivity. Qed.

End MaildirSaveFacts.

(** ** Properties of the auth multiplexer *)

Module AuthConnectionFacts.
Import AuthConnection.

Local Open Scope string_scope.
Local Open Scope list_scope.
Local Open Scope Z_scope.

(** *** Choosing a connection *)

(** The loop returns the first connection that advertises the mechanism
    and has room; when there is none, [found] tells whether some
    connection advertises it. *)
Lemma get_loop_spec (heap : gmap addr auth_connection) (mech size : Z) (l : list addr) :
  forall found : bool,
    get_loop heap l mech size found
    = match find (fun a => advertises heap mech a && has_room heap size a) l with
      | Some a => (Some a, snd (get_loop heap l mech size found))
      | None => (None, found || existsb (advertises heap mech) l)
      end.
Proof.
  induction l as [|a rest IH]; intros found; simpl.
  - rewrite orb_false_r. reflexivity.
  - unfold advertises at 1 3, has_room at 1, o_stream_have_space.
    destruct (heap !! a) as [c|] eqn:Ha.
    + destruct (negb (Z.land (conn_available_auth_mechs c) mech =? 0)) eqn:Hadv; simpl.
      * destruct (size <=? out_space c) eqn:Hroom; simpl; [reflexivity|].
        rewrite IH. destruct (find _ rest); [reflexivity|].
        rewrite orb_true_r. reflexivity.
      * rewrite IH. destruct (find _ rest); reflexivity.
    + simpl. rewrite IH. destruct (find _ rest); reflexivity.
Qed.

Lemma find_some_heap (heap : gmap addr auth_connection) (mech size : Z) (l : list addr)
    (a : addr) :
  find (fun a => advertises heap mech a && has_room heap size a) l = Some a ->
  exists c, heap !! a = Some c.
Proof.
  intros Hf. apply find_some in Hf as [_ Hb]. unfold advertises in Hb.
  destruct (heap !! a) as [c|]; [exists c; reflexivity|discriminate].
Qed.

(** C7 (amended).  [auth_init_request] looks at the registry after the
    rescan.  When some connection advertises the mechanism and has room for
    a NEW frame, the first such connection is taken and the call succeeds.
    When connections advertise it but none of them has room, it fails with
    the servers-busy error.  When no connection advertises it, the error
    depends on the process-wide [available_auth_mechs], which is only
    recomputed at a handshake: unsupported mechanism when the set lacks the
    mechanism, and otherwise try again later, with [auth_reconnect] set. *)
Theorem init_request_outcome (size mech protocol : Z) (context : nat) (s : state) :
  match find (fun a => advertises (conns (rescanned s)) mech a
                       && has_room (conns (rescanned s)) size a)
             (auth_connections (rescanned s)) with
  | Some a =>
      exists s' c, conns (rescanned s) !! a = Some c /\
        auth_init_request size mech protocol context s = (true, None, s') /\
        (peer_gone c = false ->
         exists id, reqs s' !! next_addr (rescanned s)
                    = Some (MkRequest mech a id context) /\
                    id = request_id_counter s' /\
                    (requests <$> conns s' !! a)
                    = Some (<[id := next_addr (rescanned s)]> (requests c)))
  | None =>
      if existsb (advertises (conns (rescanned s)) mech) (auth_connections (rescanned s))
      then auth_init_request size mech protocol context s
           = (false, Some "Authentication servers are busy, wait..",
              add_log [EvLog "Authentication servers are busy"] (rescanned s))
      else if Z.land (available_auth_mechs (rescanned s)) mech =? 0
           then auth_init_request size mech protocol context s
                = (false, Some "Unsupported authentication mechanism", rescanned s)
           else auth_init_request size mech protocol context s
                = (false, Some "Authentication server isn't connected, try again later..",
                   set_auth_reconnect true (rescanned s))
  end.
Proof.
  unfold auth_init_request. fold (rescanned s). set (s1 := rescanned s).
  unfold auth_connection_get. rewrite get_loop_spec.
  destruct (find _ (auth_connections s1)) as [a|] eqn:Hfind.
  - destruct (find_some_heap _ _ _ _ _ Hfind) as [c Hc].
    cbv zeta.
    set (counter := u32 (request_id_counter s1 + 1)).
    destruct (counter =? 0); simpl; rewrite Hc; simpl.
    all: destruct (peer_gone c) eqn:Hpeer; unfold o_stream_send; rewrite Hpeer.
    all: try (destruct (Z.ltb_spec (Z.max size 0) 0) as [?|_]; [lia|]).
    all: simpl.
    all: eexists; exists c; (split; [reflexivity|]); (split; [reflexivity|]).
    all: intros Habs; try congruence.
    all: eexists; simpl; rewrite !lookup_insert_eq; simpl; auto.
  - simpl. destruct (existsb _ _); [reflexivity|].
    destruct (Z.land (available_auth_mechs s1) mech =? 0); reflexivity.
Qed.

(** C7 (as stated, fails).  A worker advertises PLAIN and then
    disconnects: the rescan connects to its socket again, but until the new
    handshake no connection in the registry advertises PLAIN, and the request
    fails with try again later, not with unsupported mechanism.  And in a
    process that never had a worker no connection is available, and the
    request fails with unsupported mechanism, not with try again later. *)
Lemma no_advertiser_is_not_always_unsupported :
  let s := run 16 [OpHandshake 0%nat (MkHandshake 5 AUTH_MECH_PLAIN); OpDisconnect 0%nat]
               (auth_connection_init one_worker) in
  let s0 := auth_connection_init (Some []) in
  (existsb (advertises (conns (rescanned s)) AUTH_MECH_PLAIN)
           (auth_connections (rescanned s)) = false /\
   (auth_init_request 16 AUTH_MECH_PLAIN 0 0 s).1
   = (false, Some "Authentication server isn't connected, try again later..")) /\
  (auth_connections (rescanned s0) = [] /\
   (auth_init_request 16 AUTH_MECH_PLAIN 0 0 s0).1
   = (false, Some "Unsupported authentication mechanism")).
Proof. vm_compute. repeat split; reflexivity. Qed.

(** The handshake and request flow: a worker advertises PLAIN, a PLAIN
    request is accepted with id 1, the worker's OK reply reaches the
    callback and retires the request, and a request for another mechanism is
    refused as unsupported. *)
Example handshake_and_request_flow :
  let s1 := run 16 [OpHandshake 0%nat (MkHandshake 5 AUTH_MECH_PLAIN)]
                (auth_connection_init one_worker) in
  let r2 := auth_init_request 16 AUTH_MECH_PLAIN 0 42 s1 in
  let s3 := auth_handle_reply 0%nat (MkReply 1 AUTH_LOGIN_RESULT_SUCCESS 0) r2.2 in
  r2.1 = (true, None) /\
  map_to_list (reqs r2.2) = [(1%nat, MkRequest AUTH_MECH_PLAIN 0%nat 1 42)] /\
  log s3 = [EvCallback 1%nat (Some (MkReply 1 AUTH_LOGIN_RESULT_SUCCESS 0))] /\
  map_to_list (reqs s3) = [] /\
  (auth_init_request 16 AUTH_MECH_DIGEST_MD5 0 43 s3).1
  = (false, Some "Unsupported authentication mechanism").
Proof. vm_compute. repeat split; reflexivity. Qed.

(** *** A handshake with pid 0 *)

Lemma unlink_conn_not_in (a : addr) (l : list addr) :
  NoDup l -> a ∉ unlink_conn a l.
Proof.
  induction l as [|b rest IH]; intros Hnd; simpl.
  - apply not_elem_of_nil.
  - apply NoDup_cons in Hnd as [Hb Hrest].
    destruct (Nat.eqb_spec b a) as [->|Hne]; [exact Hb|].
    apply not_elem_of_cons. split; [congruence|]. apply IH. exact Hrest.
Qed.

(** C10.  A handshake frame with pid 0 on a live connection that has not
    completed its handshake destroys the connection: it leaves the registry,
    the count of connections waiting for a handshake drops by one, its
    descriptor is closed, the process-wide mechanism set is left as it was,
    the callback of each of its pending requests is called with a NULL reply;
    if the connection object survives (other references are held) its
    [handshake_received] is still unset and its own mechanism set is
    untouched, and otherwise it is freed. *)
Theorem handshake_pid_zero_destroys (a : addr) (h : auth_login_handshake_output)
    (s : state) (c : auth_connection) :
  hs_pid h = 0 ->
  conns s !! a = Some c -> fd c <> -1 -> handshake_received c = false ->
  NoDup (auth_connections s) ->
  (a ∉ auth_connections (auth_handle_handshake a h s)) /\
  auth_connections (auth_handle_handshake a h s) = unlink_conn a (auth_connections s) /\
  auth_waiting_handshake_count (auth_handle_handshake a h s)
  = u32 (auth_waiting_handshake_count s - 1) /\
  available_auth_mechs (auth_handle_handshake a h s) = available_auth_mechs s /\
  log (auth_handle_handshake a h s)
  = log s ++ [EvLog "BUG: Auth process said it's PID 0"]
      ++ ((fun kv => EvCallback kv.2 None) <$> map_to_list (requests c)) /\
  (forall id r, requests c !! id = Some r ->
                EvCallback r None ∈ log (auth_handle_handshake a h s)) /\
  match conns (auth_handle_handshake a h s) !! a with
  | Some c' =>
      c' = set_refcount (refcount c - 1) (set_fd (-1) c) /\
      handshake_received c' = false /\ fd c' = -1 /\
      conn_available_auth_mechs c' = conn_available_auth_mechs c
  | None => refcount c <= 1
  end.
Proof.
  intros Hpid Hc Hfd Hhs Hnd.
  unfold auth_handle_handshake. rewrite Hpid. simpl Z.eqb. cbv iota.
  unfold auth_connection_destroy. simpl conns. rewrite Hc.
  destruct (Z.eqb_spec (fd c) (-1)) as [?|_]; [contradiction|].
  rewrite Hhs. cbv zeta. simpl negb. cbv iota.
  unfold auth_connection_unref. simpl conns. rewrite lookup_insert_eq.
  simpl refcount.
  assert (Hlog : forall id r, requests c !! id = Some r ->
            EvCallback r None ∈
              (log s ++ [EvLog "BUG: Auth process said it's PID 0"])
              ++ ((fun kv => EvCallback kv.2 None) <$> map_to_list (requests c))).
  { intros id r Hr. apply elem_of_app. right.
    apply list_elem_of_fmap. exists (id, r). split; [reflexivity|].
    apply elem_of_map_to_list. exact Hr. }
  destruct (Z.gtb_spec (refcount c - 1) 0) as [Hgt|Hle]; simpl.
  - rewrite lookup_insert_eq.
    split; [apply unlink_conn_not_in; exact Hnd|].
    do 3 (split; [reflexivity|]).
    split; [rewrite <- app_assoc; reflexivity|].
    split; [exact Hlog|].
    repeat split; simpl; auto.
  - rewrite lookup_delete_eq.
    split; [apply unlink_conn_not_in; exact Hnd|].
    do 3 (split; [reflexivity|]).
    split; [rewrite <- app_assoc; reflexivity|].
    split; [exact Hlog|]. lia.
Qed.

(** A fresh connection whose worker says its pid is 0. *)
Lemma handshake_pid_zero_destroys_witness :
  let s := auth_connection_init one_worker in
  let c := MkConn "auth-worker" 7 1 0 0 false false ∅ 4096 false in
  let h := MkHandshake 0 AUTH_MECH_PLAIN in
  (0%nat ∉ auth_connections (auth_handle_handshake 0%nat h s)) /\
  auth_connections (auth_handle_handshake 0%nat h s)
  = unlink_conn 0%nat (auth_connections s) /\
  auth_waiting_handshake_count (auth_handle_handshake 0%nat h s)
  = u32 (auth_waiting_handshake_count s - 1) /\
  available_auth_mechs (auth_handle_handshake 0%nat h s) = available_auth_mechs s /\
  log (auth_handle_handshake 0%nat h s)
  = log s ++ [EvLog "BUG: Auth process said it's PID 0"]
      ++ ((fun kv => EvCallback kv.2 None) <$> map_to_list (requests c)) /\
  (forall id r, requests c !! id = Some r ->
                EvCallback r None ∈ log (auth_handle_handshake 0%nat h s)) /\
  match conns (auth_handle_handshake 0%nat h s) !! 0%nat with
  | Some c' =>
      c' = set_refcount (refcount c - 1) (set_fd (-1) c) /\
      handshake_received c' = false /\ fd c' = -1 /\
      conn_available_auth_mechs c' = conn_available_auth_mechs c
  | None => refcount c <= 1
  end.
Proof.
  intros s c h.
  apply (handshake_pid_zero_destroys 0%nat h s c);
    [reflexivity | reflexivity | discriminate | reflexivity |].
  apply NoDup_singleton.
Defined.

(** *** Request ids *)

Lemma shrinks_refl (s : state) : shrinks s s.
Proof. repeat split; auto. Qed.

Lemma shrinks_trans (s1 s2 s3 : state) :
  shrinks s1 s2 -> shrinks s2 s3 -> shrinks s1 s3.
Proof.
  intros (H1 & H2 & H3) (H4 & H5 & H6). repeat split; [auto|congruence|lia].
Qed.

Lemma foldr_delete_lookup (l : list (Z * addr)) (m : gmap addr auth_request)
    (a : addr) (r : auth_request) :
  foldr (fun kv m => delete kv.2 m) m l !! a = Some r -> m !! a = Some r.
Proof.
  induction l as [|kv l IH]; simpl; [auto|].
  intros H. apply lookup_delete_Some in H as [_ H]. auto.
Qed.

Lemma unref_shrinks (a : addr) (s : state) : shrinks s (auth_connection_unref a s).
Proof.
  unfold auth_connection_unref. destruct (conns s !! a) as [c|]; [|apply shrinks_refl].
  destruct (refcount c - 1 >? 0); repeat split; simpl; auto.
  intros x r. apply foldr_delete_lookup.
Qed.

Lemma destroy_shrinks (a : addr) (s : state) : shrinks s (auth_connection_destroy a s).
Proof.
  unfold auth_connection_destroy. destruct (conns s !! a) as [c|]; [|apply shrinks_refl].
  destruct (fd c =? -1); [apply shrinks_refl|].
  eapply shrinks_trans; [|apply unref_shrinks].
  destruct (negb (handshake_received c)); repeat split; simpl; auto.
Qed.

Lemma new_shrinks (e : dir_entry) (s : state) : shrinks s (auth_connection_new e s).2.
Proof.
  unfold auth_connection_new. destruct (d_fd e =? -1); simpl.
  { repeat split; simpl; auto. }
  destruct (o_stream_send _ 4 <? 0); simpl.
  - eapply shrinks_trans; [|apply destroy_shrinks]. repeat split; simpl; auto.
  - repeat split; simpl; auto.
Qed.

Lemma connect_entries_shrinks (entries : list dir_entry) :
  forall s, shrinks s (connect_entries entries s).
Proof.
  induction entries as [|e rest IH]; intros s; simpl; [apply shrinks_refl|].
  assert (Hgo : shrinks s
    match auth_connection_find (conns s) (auth_connections s) (d_name e) with
    | Some _ => connect_entries rest s
    | None =>
        if d_is_sock e
        then let '(ok, s0) := auth_connection_new e s in
             connect_entries rest (if ok then set_auth_reconnect false s0 else s0)
        else connect_entries rest s
    end).
  { destruct (auth_connection_find _ _ _); [apply IH|].
    destruct (d_is_sock e); [|apply IH].
    pose proof (new_shrinks e s) as Hn.
    destruct (auth_connection_new e s) as [ok s0]. simpl in Hn.
    eapply shrinks_trans; [exact Hn|].
    eapply shrinks_trans; [|apply IH].
    destruct ok; repeat split; simpl; auto. }
  destruct (d_name e) as [|ch tail]; [exact Hgo|].
  destruct ch as [[] [] [] [] [] [] [] []]; try exact Hgo. apply IH.
Qed.

Lemma connect_missing_shrinks (s : state) : shrinks s (auth_connect_missing s).
Proof.
  unfold auth_connect_missing. simpl socket_dir.
  destruct (socket_dir s) as [entries|].
  - eapply shrinks_trans; [|apply connect_entries_shrinks]. repeat split; simpl; auto.
  - repeat split; simpl; auto.
Qed.

Lemma rescanned_shrinks (s : state) : shrinks s (rescanned s).
Proof.
  unfold rescanned. destruct (auth_reconnect s);
    [apply connect_missing_shrinks|apply shrinks_refl].
Qed.

Lemma handle_reply_shrinks (a : addr) (reply : auth_login_reply) (s : state) :
  shrinks s (auth_handle_reply a reply s).
Proof.
  unfold auth_handle_reply. destruct (conns s !! a) as [c|]; [|apply shrinks_refl].
  destruct (requests c !! reply_id reply) as [r|]; [|repeat split; simpl; auto].
  destruct (negb (is_continue (reply_result reply))); [|repeat split; simpl; auto].
  simpl reqs. destruct (reqs s !! r) as [req|]; repeat split; simpl; auto.
  intros x y Hx. apply lookup_delete_Some in Hx as [_ Hx]. exact Hx.
Qed.

Lemma continue_shrinks (r : addr) (n : Z) (s : state) :
  shrinks s (auth_continue_request r n s).
Proof.
  unfold auth_continue_request. destruct (reqs s !! r) as [req|]; [|apply shrinks_refl].
  destruct (conns s !! r_conn req) as [c|]; [|apply shrinks_refl].
  destruct (_ || _); [|apply shrinks_refl].
  eapply shrinks_trans; [|apply destroy_shrinks]. repeat split; simpl; auto.
Qed.

Lemma abort_shrinks (r : addr) (s : state) : shrinks s (auth_abort_request r s).
Proof.
  unfold auth_abort_request. destruct (reqs s !! r) as [req|]; [|apply shrinks_refl].
  destruct (conns s !! r_conn req) as [c|];
    [destruct (requests c !! r_id req)|]; repeat split; simpl; auto;
    intros x y Hx; apply lookup_delete_Some in Hx as [_ Hx]; exact Hx.
Qed.

Lemma handshake_shrinks (a : addr) (h : auth_login_handshake_output) (s : state) :
  shrinks s (auth_handle_handshake a h s).
Proof.
  unfold auth_handle_handshake. destruct (hs_pid h =? 0).
  - eapply shrinks_trans; [|apply destroy_shrinks]. repeat split; simpl; auto.
  - destruct (conns s !! a) as [c|]; repeat split; simpl; auto.
Qed.

(** [auth_init_request] either fails and allocates nothing, or allocates
    one request, with the id [next_id] gives, and then at most frees. *)
Lemma init_request_cases (size mech protocol : Z) (context : nat) (s : state) :
  (exists e s', auth_init_request size mech protocol context s = (false, Some e, s') /\
                shrinks (rescanned s) s') \/
  (exists a s', auth_init_request size mech protocol context s = (true, None, s') /\
                shrinks (allocated mech a context (rescanned s)) s').
Proof.
  unfold auth_init_request. fold (rescanned s). set (s1 := rescanned s).
  unfold auth_connection_get.
  destruct (get_loop (conns s1) (auth_connections s1) mech size false) as [[a|] found].
  - right. exists a. cbv zeta.
    assert (Hid : (if u32 (request_id_counter s1 + 1) =? 0
                   then (u32 (u32 (request_id_counter s1 + 1) + 1),
                         u32 (u32 (request_id_counter s1 + 1) + 1))
                   else (u32 (request_id_counter s1 + 1), u32 (request_id_counter s1 + 1)))
                  = (next_id (request_id_counter s1), next_id (request_id_counter s1))).
    { unfold next_id. destruct (_ =? 0); reflexivity. }
    rewrite Hid. simpl conns.
    destruct (conns s1 !! a) as [c|].
    + destruct (o_stream_send c size <? 0).
      * eexists. split; [reflexivity|].
        eapply shrinks_trans; [|apply destroy_shrinks]. repeat split; simpl; auto.
      * eexists. split; [reflexivity|]. repeat split; simpl; auto.
    + eexists. split; [reflexivity|]. apply shrinks_refl.
  - left. destruct found.
    + do 2 eexists. split; [reflexivity|]. repeat split; simpl; auto.
    + destruct (Z.land (available_auth_mechs s1) mech =? 0);
        do 2 eexists; (split; [reflexivity|]); repeat split; simpl; auto.
Qed.

Lemma next_id_nonzero (c : Z) : next_id c <> 0.
Proof.
  unfold next_id. destruct (Z.eqb_spec (u32 (c + 1)) 0) as [He|Hne]; [|exact Hne].
  rewrite He. vm_compute. discriminate.
Qed.

Lemma next_id_no_wrap (c : Z) : 0 <= c < 2 ^ 32 - 1 -> next_id c = c + 1.
Proof.
  intros Hc. unfold next_id.
  rewrite (u32_small (c + 1)) by lia.
  destruct (Z.eqb_spec (c + 1) 0); [lia|reflexivity].
Qed.

Lemma ids_nonzero_shrinks (s s' : state) : ids_nonzero s -> shrinks s s' -> ids_nonzero s'.
Proof. intros Hz (Hsub & _ & _) a r Hr. apply (Hz a r). auto. Qed.

Lemma ids_fresh_shrinks (s s' : state) : ids_fresh s -> shrinks s s' -> ids_fresh s'.
Proof.
  intros (Hc & Hf) (Hsub & Hcnt & Hnext). split; [rewrite Hcnt; exact Hc|].
  intros a r Hr. destruct (Hf a r (Hsub _ _ Hr)) as (Ha & Hid & Huniq).
  split; [lia|]. split; [rewrite Hcnt; exact Hid|].
  intros a' r' Hr' Heq. apply (Huniq a' r'); auto.
Qed.

Lemma ids_nonzero_allocated (mech : Z) (a : addr) (context : nat) (s : state) :
  ids_nonzero s -> ids_nonzero (allocated mech a context s).
Proof.
  intros Hz x r. unfold allocated. simpl. intros Hx.
  apply lookup_insert_Some in Hx as [[_ <-]|[_ Hx]].
  - simpl. apply next_id_nonzero.
  - apply (Hz x r Hx).
Qed.

Lemma ids_fresh_allocated (mech : Z) (a : addr) (context : nat) (s : state) :
  ids_fresh s -> request_id_counter s < 2 ^ 32 - 1 ->
  ids_fresh (allocated mech a context s).
Proof.
  intros (Hc & Hf) Hlt. unfold ids_fresh, allocated. simpl.
  rewrite next_id_no_wrap by lia. split; [lia|].
  intros x r Hx. apply lookup_insert_Some in Hx as [[<- <-]|[Hne Hx]]; simpl.
  - split; [lia|]. split; [lia|]. intros a' r' Hr' Heq.
    apply lookup_insert_Some in Hr' as [[<- _]|[_ Hr']]; [reflexivity|].
    destruct (Hf a' r' Hr') as (_ & Hid & _). lia.
  - destruct (Hf x r Hx) as (Ha & Hid & Huniq).
    split; [lia|]. split; [lia|]. intros a' r' Hr' Heq.
    apply lookup_insert_Some in Hr' as [[<- <-]|[_ Hr']].
    + simpl in Heq. lia.
    + apply (Huniq a' r'); auto.
Qed.

(** Every step but [auth_init_request] only frees requests. *)
Lemma step_other_shrinks (size : Z) (o : op) (s : state) :
  match o with OpInit _ _ _ => True | _ => shrinks s (step size o s) end.
Proof.
  destruct o; simpl; auto.
  - apply handle_reply_shrinks.
  - apply continue_shrinks.
  - apply abort_shrinks.
  - apply handshake_shrinks.
  - eapply shrinks_trans; [|apply destroy_shrinks]. repeat split; simpl; auto.
  - apply rescanned_shrinks.
Qed.

Lemma step_ids_nonzero (size : Z) (o : op) (s : state) :
  ids_nonzero s -> ids_nonzero (step size o s).
Proof.
  intros Hz. pose proof (step_other_shrinks size o s) as Ho.
  destruct o as [mech protocol context| | | | | |];
    try (eapply ids_nonzero_shrinks; [exact Hz|exact Ho]).
  simpl.
  destruct (init_request_cases size mech protocol context s)
    as [(e & s' & -> & Hs)|(a & s' & -> & Hs)]; simpl.
  - eapply ids_nonzero_shrinks; [|exact Hs].
    eapply ids_nonzero_shrinks; [exact Hz|apply rescanned_shrinks].
  - eapply ids_nonzero_shrinks; [|exact Hs].
    apply ids_nonzero_allocated.
    eapply ids_nonzero_shrinks; [exact Hz|apply rescanned_shrinks].
Qed.

Lemma step_ids_fresh (size : Z) (o : op) (s : state) :
  ids_fresh s ->
  request_id_counter s + Z.of_nat (count_inits [o]) < 2 ^ 32 ->
  ids_fresh (step size o s) /\
  request_id_counter (step size o s)
  <= request_id_counter s + Z.of_nat (count_inits [o]).
Proof.
  intros Hf Hlt. pose proof (step_other_shrinks size o s) as Ho.
  destruct o as [mech protocol context| | | | | |];
    try (split; [eapply ids_fresh_shrinks; [exact Hf|exact Ho]
                |destruct Ho as (_ & -> & _); simpl; lia]).
  simpl in Hlt |- *.
  pose proof (rescanned_shrinks s) as Hr.
  pose proof (ids_fresh_shrinks _ _ Hf Hr) as Hf1.
  destruct Hr as (_ & Hcnt & _).
  destruct (init_request_cases size mech protocol context s)
    as [(e & s' & -> & Hs)|(a & s' & -> & Hs)]; simpl.
  - split; [eapply ids_fresh_shrinks; [exact Hf1|exact Hs]|].
    destruct Hs as (_ & -> & _). lia.
  - split.
    + eapply ids_fresh_shrinks; [|exact Hs]. apply ids_fresh_allocated; [exact Hf1|lia].
    + destruct Hs as (_ & -> & _). unfold allocated. simpl.
      destruct Hf1 as (Hc1 & _). rewrite next_id_no_wrap by lia. lia.
Qed.

Lemma count_inits_cons (o : op) (ops : list op) :
  count_inits (o :: ops) = (count_inits [o] + count_inits ops)%nat.
Proof. destruct o; simpl; lia. Qed.

Lemma run_ids_nonzero (size : Z) (ops : list op) :
  forall s, ids_nonzero s -> ids_nonzero (run size ops s).
Proof.
  induction ops as [|o ops IH]; intros s Hz; simpl; [exact Hz|].
  apply IH. apply step_ids_nonzero. exact Hz.
Qed.

Lemma run_ids_fresh (size : Z) (ops : list op) :
  forall s, ids_fresh s ->
            request_id_counter s + Z.of_nat (count_inits ops) < 2 ^ 32 ->
            ids_fresh (run size ops s).
Proof.
  induction ops as [|o ops IH]; intros s Hf Hlt; simpl; [exact Hf|].
  rewrite count_inits_cons in Hlt.
  destruct (step_ids_fresh size o s Hf) as [Hf' Hc']; [lia|].
  apply IH; [exact Hf'|lia].
Qed.

Lemma init_state_ids (dir : option (list dir_entry)) :
  ids_nonzero (auth_connection_init dir) /\ ids_fresh (auth_connection_init dir) /\
  request_id_counter (auth_connection_init dir) = 0.
Proof.
  unfold auth_connection_init.
  set (s0 := MkState 0 false 0 [] 0 ∅ ∅ 0%nat dir []).
  pose proof (connect_missing_shrinks s0) as Hs.
  assert (Hz : ids_nonzero s0) by (intros a r Hr; simpl in Hr; rewrite lookup_empty in Hr; discriminate).
  assert (Hf : ids_fresh s0).
  { split; [simpl; lia|]. intros a r Hr. simpl in Hr. rewrite lookup_empty in Hr. discriminate. }
  split; [eapply ids_nonzero_shrinks; eauto|].
  split; [eapply ids_fresh_shrinks; eauto|].
  destruct Hs as (_ & -> & _). reflexivity.
Qed.

(** C8 (amended).  In every state reached from [auth_connection_init] by
    requests, replies, continuations, aborts, handshakes, disconnections
    and rescans: no
    live request has id 0; the id of a new request is the counter after it
    was incremented (once more when that gives 0), not its value before; and
    as long as fewer than 2^32 requests were started no two live requests
    have the same id. *)
Theorem request_ids_before_wrap (size : Z) (dir : option (list dir_entry)) (ops : list op) :
  (forall a r, reqs (run size ops (auth_connection_init dir)) !! a = Some r -> r_id r <> 0) /\
  (forall s mech protocol context s',
      auth_init_request size mech protocol context s = (true, None, s') ->
      request_id_counter s' = next_id (request_id_counter s) /\
      forall r, reqs s' !! next_addr (rescanned s) = Some r ->
                r_id r = request_id_counter s') /\
  (Z.of_nat (count_inits ops) < 2 ^ 32 ->
   forall a1 a2 r1 r2,
     reqs (run size ops (auth_connection_init dir)) !! a1 = Some r1 ->
     reqs (run size ops (auth_connection_init dir)) !! a2 = Some r2 ->
     a1 <> a2 -> r_id r1 <> r_id r2).
Proof.
  destruct (init_state_ids dir) as (Hz & Hf & Hc0).
  split; [|split].
  - apply run_ids_nonzero. exact Hz.
  - intros s mech protocol context s' Hrun.
    destruct (init_request_cases size mech protocol context s)
      as [(e & s2 & Heq & _)|(a & s2 & Heq & Hs)]; [congruence|].
    assert (s2 = s') by congruence. subst s2.
    destruct Hs as (Hsub & Hcnt & _).
    destruct (rescanned_shrinks s) as (_ & Hcr & _).
    split; [rewrite Hcnt; unfold allocated; simpl; rewrite Hcr; reflexivity|].
    intros r Hr. apply Hsub in Hr. unfold allocated in Hr. simpl in Hr.
    rewrite lookup_insert_eq in Hr. inversion Hr; subst r. simpl.
    rewrite Hcnt. reflexivity.
  - intros Hlt a1 a2 r1 r2 H1 H2 Hne Heq.
    assert (Hfr : ids_fresh (run size ops (auth_connection_init dir))).
    { apply run_ids_fresh; [exact Hf|]. rewrite Hc0. lia. }
    destruct Hfr as (_ & Hfr).
    destruct (Hfr a1 r1 H1) as (_ & _ & Huniq).
    apply Hne. symmetry. apply (Huniq a2 r2); auto.
Qed.

(** *** After the counter has wrapped around *)

Lemma set_requests_id (c : auth_connection) : set_requests (requests c) c = c.
Proof. destruct c; reflexivity. Qed.

(** A request that is started and aborted right away leaves only the
    counter and the next address changed. *)
Lemma init_then_abort (size mech protocol : Z) (context : nat) (s : state)
    (a : addr) (found : bool) (c : auth_connection) :
  auth_reconnect s = false ->
  get_loop (conns s) (auth_connections s) mech size false = (Some a, found) ->
  conns s !! a = Some c -> peer_gone c = false ->
  0 <= request_id_counter s < 2 ^ 32 - 1 ->
  requests c !! (request_id_counter s + 1) = None ->
  reqs s !! next_addr s = None ->
  auth_abort_request (next_addr s) (auth_init_request size mech protocol context s).2
  = set_next_addr (S (next_addr s))
      (set_request_id_counter (request_id_counter s + 1) s).
Proof.
  intros Hrec Hget Hc Hpeer Hcnt Hfree Hnew.
  unfold auth_init_request. rewrite Hrec. unfold auth_connection_get. rewrite Hget.
  cbv zeta. rewrite (u32_small (request_id_counter s + 1)) by lia.
  destruct (Z.eqb_spec (request_id_counter s + 1) 0) as [?|_]; [lia|].
  simpl conns. rewrite Hc. unfold o_stream_send. rewrite Hpeer.
  destruct (Z.ltb_spec (Z.max size 0) 0) as [?|_]; [lia|].
  unfold auth_abort_request. simpl.
  rewrite lookup_insert_eq. simpl. rewrite lookup_insert_eq. simpl.
  rewrite lookup_insert_eq.
  destruct s as [av rc cnt reg wait cs rs n dir lg]. simpl in *.
  unfold set_reqs, set_conns, set_next_addr, set_request_id_counter. simpl.
  f_equal.
  - rewrite insert_insert_eq. unfold set_requests at 1. simpl.
    rewrite (delete_insert_id _ _ _ Hfree).
    fold (set_requests (requests c) c). rewrite set_requests_id.
    apply insert_id. exact Hc.
  - apply delete_insert_id. exact Hnew.
Qed.

Lemma churned_start :
  run 16 [OpHandshake 0%nat (MkHandshake 5 AUTH_MECH_PLAIN); OpInit AUTH_MECH_PLAIN 0 7]
      (auth_connection_init one_worker) = churned 0.
Proof. vm_compute. reflexivity. Qed.

Lemma churn_round (k : nat) :
  Z.of_nat k < 2 ^ 32 - 2 ->
  auth_abort_request (2 + k)%nat (auth_init_request 16 AUTH_MECH_PLAIN 0 0 (churned k)).2
  = churned (S k).
Proof.
  intros Hk. change (2 + k)%nat with (next_addr (churned k)).
  rewrite (init_then_abort 16 AUTH_MECH_PLAIN 0 0%nat (churned k) 0%nat false pending_conn
             eq_refl eq_refl eq_refl eq_refl).
  - unfold churned, set_next_addr, set_request_id_counter. simpl. f_equal. lia.
  - unfold churned. simpl. lia.
  - unfold churned, pending_conn. simpl. apply lookup_singleton_ne. lia.
  - unfold churned. simpl. apply lookup_singleton_ne. lia.
Qed.

Lemma churn_ops_S (base k : nat) :
  churn_ops base (S k)
  = churn_ops base k ++ [OpInit AUTH_MECH_PLAIN 0 0; OpAbort (base + k)%nat].
Proof.
  unfold churn_ops. rewrite seq_S, flat_map_app. simpl. reflexivity.
Qed.

Lemma run_app (size : Z) (l1 l2 : list op) (s : state) :
  run size (l1 ++ l2) s = run size l2 (run size l1 s).
Proof. unfold run. apply fold_left_app. Qed.

Lemma churn_run (k : nat) :
  Z.of_nat k <= 2 ^ 32 - 2 -> run 16 (churn_ops 2%nat k) (churned 0) = churned k.
Proof.
  induction k as [|k IH]; intros Hk; [reflexivity|].
  rewrite churn_ops_S, run_app, IH by lia.
  unfold run. cbn [fold_left step]. apply churn_round. lia.
Qed.

Lemma count_inits_app (l1 l2 : list op) :
  count_inits (l1 ++ l2) = (count_inits l1 + count_inits l2)%nat.
Proof.
  induction l1 as [|o l1 IH]; [reflexivity|].
  simpl app. rewrite (count_inits_cons o (l1 ++ l2)), (count_inits_cons o l1), IH. lia.
Qed.

Lemma count_inits_churn (base k : nat) : count_inits (churn_ops base k) = k.
Proof.
  induction k as [|k IH]; [reflexivity|].
  rewrite churn_ops_S, count_inits_app, IH. simpl. lia.
Qed.

(** The request started when the counter is 2^32 - 1 gets id 1. *)
Lemma init_at_wrap (k : nat) :
  Z.of_nat k = 2 ^ 32 - 2 ->
  reqs (auth_init_request 16 AUTH_MECH_PLAIN 0 8 (churned k)).2
  = <[(2 + k)%nat := MkRequest AUTH_MECH_PLAIN 0%nat 1 8]>
      {[1%nat := MkRequest AUTH_MECH_PLAIN 0%nat 1 7]}.
Proof.
  intros Hk. unfold auth_init_request.
  change (auth_reconnect (churned k)) with false. cbv iota.
  change (auth_connection_get AUTH_MECH_PLAIN 16 (churned k)) with (inl (B := string) 0%nat, churned k).
  cbv iota zeta beta.
  change (request_id_counter (churned k)) with (1 + Z.of_nat k).
  replace (1 + Z.of_nat k + 1) with (2 ^ 32) by lia.
  change (u32 (2 ^ 32)) with 0. change (0 =? 0) with true. cbv iota.
  change (u32 (0 + 1)) with 1.
  reflexivity.
Qed.

(** C8 (as stated, fails).  A request is started and left pending with id
    1; 2^32 - 2 further requests are started and aborted, which takes the
    counter to 2^32 - 1; the next request makes the counter wrap around, skip
    0, and gets id 1 again, on the same connection, while the first request is
    still outstanding. *)
Lemma ids_collide_after_wrap :
  exists r1 r2 : auth_request,
    reqs (run 16 wrap_around_ops (auth_connection_init one_worker)) !! 1%nat = Some r1 /\
    reqs (run 16 wrap_around_ops (auth_connection_init one_worker))
      !! (2 + Z.to_nat (2 ^ 32 - 2))%nat = Some r2 /\
    1%nat <> (2 + Z.to_nat (2 ^ 32 - 2))%nat /\
    r_conn r1 = r_conn r2 /\ r_id r1 = 1 /\ r_id r2 = 1 /\
    Z.of_nat (count_inits wrap_around_ops) = 2 ^ 32.
Proof.
  unfold wrap_around_ops.
  assert (HK : Z.of_nat (Z.to_nat (2 ^ 32 - 2)) = 2 ^ 32 - 2) by (apply Z2Nat.id; lia).
  generalize dependent (Z.to_nat (2 ^ 32 - 2)). intros K HK.
  assert (Hrun : reqs (run 16 ([OpHandshake 0%nat (MkHandshake 5 AUTH_MECH_PLAIN);
                                OpInit AUTH_MECH_PLAIN 0 7]
                               ++ churn_ops 2%nat K ++ [OpInit AUTH_MECH_PLAIN 0 8])
                          (auth_connection_init one_worker))
                 = <[(2 + K)%nat := MkRequest AUTH_MECH_PLAIN 0%nat 1 8]>
                     {[1%nat := MkRequest AUTH_MECH_PLAIN 0%nat 1 7]}).
  { rewrite !run_app, churned_start, churn_run by lia.
    unfold run. cbn [fold_left step]. apply init_at_wrap. exact HK. }
  exists (MkRequest AUTH_MECH_PLAIN 0%nat 1 7), (MkRequest AUTH_MECH_PLAIN 0%nat 1 8).
  rewrite Hrun.
  split; [rewrite lookup_insert_ne by lia; apply lookup_singleton_eq|].
  split; [apply lookup_insert_eq|].
  split; [lia|].
  do 3 (split; [reflexivity|]).
  rewrite !count_inits_app, count_inits_churn. simpl count_inits. lia.
Qed.

End AuthConnectionFacts.

(** ** More properties of the index record array *)

Module MailIndexExtFacts.
Import MailIndex MailIndexExt MailIndexFacts.

Lemma lookup_Ret (index : mail_index) (seq : Z) :
  lock_type index <> MAIL_LOCK_UNLOCK -> index_ok index -> 0 < seq ->
  mail_index_lookup index seq = Ret (record_at_seq index seq).
Proof.
  intros Hlock [Hcnt _] Hseq. unfold mail_index_lookup, record_at_seq.
  assert (Hl : lock_eqb (lock_type index) MAIL_LOCK_UNLOCK = false)
    by (destruct (lock_type index); try reflexivity; congruence).
  rewrite Hl. simpl.
  destruct (Z.gtb_spec seq 0) as [_|?]; [|lia]. simpl.
  destruct (Z.leb_spec seq 0) as [?|_]; [lia|].
  rewrite Hcnt. unfold MAIL_INDEX_RECORD_COUNT.
  destruct (Z.gtb_spec seq (Z.of_nat (length (records index)))) as [Hgt|Hle].
  - rewrite lookup_ge_None_2 by lia. reflexivity.
  - unfold rec_at. destruct (Z.ltb_spec (seq - 1) 0); [lia|].
    destruct (lookup_lt_is_Some_2 (records index) (Z.to_nat (seq - 1))) as [r Hr]; [lia|].
    rewrite Hr. reflexivity.
Qed.

(** X2.  [mail_index_next] returns NULL exactly on the last record of the
    array, and otherwise the record it returns is the one
    [mail_index_lookup] finds at the next sequence number. *)
Theorem next_is_lookup_of_next_sequence (index : mail_index) (seq : Z) :
  lock_type index <> MAIL_LOCK_UNLOCK -> index_ok index ->
  1 <= seq <= messages_count index ->
  (mail_index_next index (seq - 1) = Ret None <-> seq = messages_count index) /\
  match mail_index_next index (seq - 1) with
  | Ret None => mail_index_lookup index (seq + 1) = Ret None
  | Ret (Some j) =>
      j = seq /\
      exists r, rec_at (records index) j = Ret r /\
                mail_index_lookup index (seq + 1) = Ret (Some r)
  | _ => False
  end.
Proof.
  intros Hlock Hok Hseq. pose proof Hok as [Hcnt Hlim].
  rewrite (lookup_Ret index (seq + 1) Hlock Hok) by lia.
  unfold mail_index_next.
  assert (Hl : lock_eqb (lock_type index) MAIL_LOCK_UNLOCK = false)
    by (destruct (lock_type index); try reflexivity; congruence).
  rewrite Hl. simpl.
  destruct (Z.leb_spec 0 (seq - 1)) as [_|?]; [|lia]. simpl.
  replace (seq - 1 + 1) with seq by lia. rewrite <- Hcnt.
  unfold record_at_seq. destruct (Z.leb_spec (seq + 1) 0) as [?|_]; [lia|].
  replace (seq + 1 - 1) with seq by lia.
  destruct (Z.eqb_spec seq (messages_count index)) as [He|Hne].
  - split; [split; auto|]. f_equal. apply lookup_ge_None.
    rewrite Hcnt in He. unfold MAIL_INDEX_RECORD_COUNT in He. lia.
  - split; [split; [discriminate|contradiction]|].
    split; [reflexivity|].
    rewrite Hcnt in Hseq, Hne. unfold MAIL_INDEX_RECORD_COUNT in Hseq, Hne.
    destruct (lookup_lt_is_Some_2 (records index) (Z.to_nat seq)) as [r Hr]; [lia|].
    exists r. split; [apply rec_at_Ret; split; [lia|exact Hr]|]. rewrite Hr. reflexivity.
Qed.

(** The middle record of a three-record index. *)
Lemma next_is_lookup_of_next_sequence_witness :
  (mail_index_next (mk_index [MkRec 2 1; MkRec 5 0; MkRec 9 4]) (2 - 1) = Ret None <->
   2 = messages_count (mk_index [MkRec 2 1; MkRec 5 0; MkRec 9 4])) /\
  match mail_index_next (mk_index [MkRec 2 1; MkRec 5 0; MkRec 9 4]) (2 - 1) with
  | Ret None => mail_index_lookup (mk_index [MkRec 2 1; MkRec 5 0; MkRec 9 4]) (2 + 1) = Ret None
  | Ret (Some j) =>
      j = 2 /\
      exists r, rec_at (records (mk_index [MkRec 2 1; MkRec 5 0; MkRec 9 4])) j = Ret r /\
                mail_index_lookup (mk_index [MkRec 2 1; MkRec 5 0; MkRec 9 4]) (2 + 1)
                = Ret (Some r)
  | _ => False
  end.
Proof.
  apply (next_is_lookup_of_next_sequence (mk_index [MkRec 2 1; MkRec 5 0; MkRec 9 4]) 2);
    [discriminate | split; [reflexivity | reflexivity] | simpl; lia].
Defined.

(** X1.  On a non-empty array of at most 2^31 records with strictly
    increasing UIDs, [mail_index_lookup_uid_range] returns: the record with
    the smallest sequence number among those whose UID is in
    [first_uid..last_uid], with that sequence number; or NULL and sequence 0,
    which happens exactly when no record has its UID in the range. *)
Theorem lookup_uid_range_on_nonempty (index : mail_index) (first_uid last_uid : Z) :
  lock_type index <> MAIL_LOCK_UNLOCK ->
  records index <> [] ->
  Z.of_nat (length (records index)) <= 2 ^ 31 ->
  uids_increasing (records index) = true ->
  0 < first_uid <= last_uid ->
  exists res, mail_index_lookup_uid_range index first_uid last_uid = Ret res /\
              lookup_post index first_uid last_uid res /\
              (res = (None, 0) <->
               forall r, r ∈ records index -> ~ in_range first_uid last_uid r).
Proof.
  intros Hlock Hne Hn Hs Hu.
  destruct (lookup_uid_range_nonempty index first_uid last_uid Hlock Hne Hn Hs Hu)
    as (res & Hrun & Hpost).
  exists res. split; [exact Hrun|]. split; [exact Hpost|].
  destruct res as [[r|] seq]; simpl in Hpost.
  - destruct Hpost as (Hat & Hin & _). split; [discriminate|].
    intros Hnone. exfalso. apply (Hnone r); [|exact Hin].
    apply record_at_seq_inv in Hat as [_ Hat]. apply list_elem_of_lookup. eauto.
  - destruct Hpost as [-> Hnone]. split; auto.
Qed.

(** A lookup that finds the second of four records. *)
Lemma lookup_uid_range_on_nonempty_witness :
  exists res,
    mail_index_lookup_uid_range
      (mk_index [MkRec 2 0; MkRec 5 0; MkRec 9 0; MkRec 12 0]) 3 10 = Ret res /\
    lookup_post (mk_index [MkRec 2 0; MkRec 5 0; MkRec 9 0; MkRec 12 0]) 3 10 res /\
    (res = (None, 0) <->
     forall r, r ∈ records (mk_index [MkRec 2 0; MkRec 5 0; MkRec 9 0; MkRec 12 0]) ->
               ~ in_range 3 10 r).
Proof.
  apply (lookup_uid_range_on_nonempty
           (mk_index [MkRec 2 0; MkRec 5 0; MkRec 9 0; MkRec 12 0]) 3 10);
    [discriminate | discriminate | simpl; lia | reflexivity | lia].
Defined.

(** Different sequences hold different UIDs. *)
Lemma uid_determines_sequence (index : mail_index) (s1 s2 : Z) (r1 r2 : mail_index_record) :
  uids_increasing (records index) = true ->
  record_at_seq index s1 = Some r1 -> record_at_seq index s2 = Some r2 ->
  uid r1 = uid r2 -> s1 = s2.
Proof.
  intros Hs H1 H2 Heq.
  apply record_at_seq_inv in H1 as [Hp1 H1]. apply record_at_seq_inv in H2 as [Hp2 H2].
  destruct (Z.lt_trichotomy s1 s2) as [Hlt|[He|Hgt]]; [|exact He|].
  - pose proof (uids_increasing_lookup _ Hs (Z.to_nat (s1 - 1)) (Z.to_nat (s2 - 1))
                  r1 r2 H1 H2 ltac:(lia)). lia.
  - pose proof (uids_increasing_lookup _ Hs (Z.to_nat (s2 - 1)) (Z.to_nat (s1 - 1))
                  r2 r1 H2 H1 ltac:(lia)). lia.
Qed.

(** X3.  Sequence to UID and back: looking up the one-UID range of the
    record at sequence [seq] returns that record and [seq]. *)
Theorem lookup_uid_of_record_returns_it (index : mail_index) (seq : Z)
    (r : mail_index_record) :
  lock_type index <> MAIL_LOCK_UNLOCK ->
  Z.of_nat (length (records index)) <= 2 ^ 31 ->
  uids_increasing (records index) = true ->
  record_at_seq index seq = Some r -> 0 < uid r ->
  mail_index_lookup_uid_range index (uid r) (uid r) = Ret (Some r, seq).
Proof.
  intros Hlock Hn Hs Hat Hpos.
  assert (Hne : records index <> []).
  { apply record_at_seq_inv in Hat as [_ Hat]. intros E. rewrite E, lookup_nil in Hat.
    discriminate. }
  destruct (lookup_uid_range_nonempty index (uid r) (uid r) Hlock Hne Hn Hs ltac:(lia))
    as ([[r'|] seq'] & Hrun & Hpost); simpl in Hpost.
  - destruct Hpost as (Hat' & Hin & _). unfold in_range in Hin.
    assert (seq' = seq) by (apply (uid_determines_sequence index seq' seq r' r); auto; lia).
    subst seq'. assert (r' = r) by congruence. subst r'. exact Hrun.
  - destruct Hpost as [_ Hnone]. exfalso. apply (Hnone r).
    + apply record_at_seq_inv in Hat as [_ Hat]. apply list_elem_of_lookup. eauto.
    + unfold in_range. lia.
Qed.

(** The third of four records. *)
Lemma lookup_uid_of_record_returns_it_witness :
  mail_index_lookup_uid_range
    (mk_index [MkRec 2 0; MkRec 5 0; MkRec 9 0; MkRec 12 0]) (uid (MkRec 9 0)) (uid (MkRec 9 0))
  = Ret (Some (MkRec 9 0), 3).
Proof.
  apply (lookup_uid_of_record_returns_it
           (mk_index [MkRec 2 0; MkRec 5 0; MkRec 9 0; MkRec 12 0]) 3 (MkRec 9 0));
    [discriminate | simpl; lia | reflexivity | reflexivity | simpl; lia].
Defined.

(** *** Expunge, seen from its effects *)

Lemma expunge_run (sizeof_rec truncate_ret : Z) (index : mail_index) (a b : Z) :
  lock_type index = MAIL_LOCK_EXCLUSIVE -> index_ok index ->
  1 <= a <= b -> b <= messages_count index ->
  exists index',
    mail_index_expunge_record_range sizeof_rec truncate_ret index (a - 1) (b - 1)
      = Ret (truncate_ret, index') /\
    records index' = take (Z.to_nat (a - 1)) (records index)
                     ++ drop (Z.to_nat b) (records index).
Proof.
  intros Hlock [Hcnt Hlim] Hab Hb. unfold MAIL_INDEX_RECORD_COUNT in *.
  destruct (expunge_records sizeof_rec truncate_ret index (a - 1) (b - 1))
    as (index' & Hrun & _ & Hrecs); [exact Hlock | lia | lia | lia |].
  exists index'. split; [exact Hrun|]. rewrite Hrecs. do 2 f_equal. lia.
Qed.



(** What the expunge keeps of the preconditions of a lookup. *)
Lemma expunge_range_keeps (sizeof_rec truncate_ret : Z) (index : mail_index) (a b : Z) :
  lock_type index = MAIL_LOCK_EXCLUSIVE ->
  uids_increasing (records index) = true -> index_ok index ->
  1 <= a <= b -> b <= messages_count index ->
  forall index',
    mail_index_expunge_record_range sizeof_rec truncate_ret index (a - 1) (b - 1)
      = Ret (truncate_ret, index') ->
    lock_type index' = MAIL_LOCK_EXCLUSIVE /\
    uids_increasing (records index') = true /\
    (length (records index') <= length (records index))%nat.
Proof.
  intros Hlock Hs Hok Hab Hb index' Hrun.
  destruct (expunge_run sizeof_rec truncate_ret index a b Hlock Hok Hab Hb)
    as (index2 & Hrun2 & Hrecs).
  assert (index2 = index') by congruence. subst index2.
  destruct Hok as [Hcnt Hlim]. unfold MAIL_INDEX_RECORD_COUNT in *.
  split.
  - revert Hrun. unfold mail_index_expunge_record_range. rewrite Hlock. simpl lock_eqb.
    cbv beta iota delta [i_assert rbind].
    destruct (_ <=? _); [|discriminate]. destruct (_ <? _); [|discriminate].
    intros E. inversion E. reflexivity.
  - split.
    + rewrite Hrecs. replace (Z.to_nat b) with (S (Z.to_nat (b - 1))) by lia.
      apply expunge_keeps_order; [lia|lia|exact Hs].
    + rewrite Hrecs, length_app, length_take, length_drop. lia.
Qed.

(** X5.  An expunged UID is gone: after the sequences [a..b] were
    expunged, and as long as a record is left, looking up the one-UID range of
    any expunged record finds nothing. *)
Theorem expunged_uid_is_not_found (sizeof_rec truncate_ret : Z) (index : mail_index)
    (a b seq : Z) (r : mail_index_record) :
  lock_type index = MAIL_LOCK_EXCLUSIVE -> index_ok index ->
  Z.of_nat (length (records index)) <= 2 ^ 31 ->
  uids_increasing (records index) = true ->
  1 <= a <= b -> b <= messages_count index ->
  a <= seq <= b -> record_at_seq index seq = Some r -> 0 < uid r ->
  exists index',
    mail_index_expunge_record_range sizeof_rec truncate_ret index (a - 1) (b - 1)
      = Ret (truncate_ret, index') /\
    (records index' <> [] ->
     mail_index_lookup_uid_range index' (uid r) (uid r) = Ret (None, 0)).
Proof.
  intros Hlock Hok Hn Hs Hab Hb Hseq Hat Hpos.
  destruct (expunge_run sizeof_rec truncate_ret index a b Hlock Hok Hab Hb)
    as (index' & Hrun & Hrecs).
  destruct (expunge_range_keeps sizeof_rec truncate_ret index a b Hlock Hs Hok Hab Hb
              index' Hrun) as (Hlock' & Hs' & Hlen').
  exists index'. split; [exact Hrun|]. intros Hne.
  destruct (lookup_uid_range_nonempty index' (uid r) (uid r)) as ([[r'|] seq'] & Hlk & Hpost);
    try assumption; try lia.
  { rewrite Hlock'. discriminate. }
  - exfalso. simpl in Hpost. destruct Hpost as (Hat' & Hin & _). unfold in_range in Hin.
    apply record_at_seq_inv in Hat' as [Hp' Hat']. rewrite Hrecs in Hat'.
    destruct Hok as [Hcnt _]. unfold MAIL_INDEX_RECORD_COUNT in Hcnt.
    destruct (Z_lt_le_dec seq' a) as [Hc|Hc].
    + rewrite lookup_app_l in Hat' by (rewrite length_take; lia).
      rewrite lookup_take_lt in Hat' by lia.
      assert (seq' = seq); [|lia].
      apply (uid_determines_sequence index seq' seq r' r); auto; [|lia].
      unfold record_at_seq. destruct (Z.leb_spec seq' 0); [lia|exact Hat'].
    + rewrite lookup_app_r in Hat' by (rewrite length_take; lia).
      rewrite length_take, lookup_drop in Hat'.
      assert (seq' + (b - a + 1) = seq); [|lia].
      apply (uid_determines_sequence index (seq' + (b - a + 1)) seq r' r); auto; [|lia].
      unfold record_at_seq. destruct (Z.leb_spec (seq' + (b - a + 1)) 0); [lia|].
      rewrite <- Hat'. f_equal. lia.
  - destruct Hpost as [-> _]. exact Hlk.
Qed.

(** Sequences 2..3 of a five-record index, looked up by the UID of the
    record that was at sequence 3. *)
Lemma expunged_uid_is_not_found_witness :
  let index := mk_index [MkRec 2 1; MkRec 5 0; MkRec 9 4; MkRec 12 0; MkRec 20 8] in
  exists index',
    mail_index_expunge_record_range 16 0 index (2 - 1) (3 - 1) = Ret (0, index') /\
    (records index' <> [] ->
     mail_index_lookup_uid_range index' (uid (MkRec 9 4)) (uid (MkRec 9 4)) = Ret (None, 0)).
Proof.
  intros index.
  apply (expunged_uid_is_not_found 16 0 index 2 3 3 (MkRec 9 4));
    [reflexivity | split; reflexivity | simpl; lia | reflexivity | lia | simpl; lia
    | lia | reflexivity | simpl; lia].
Defined.

(** X6.  Expunging every record leaves an empty index: the header count is
    0 and [mail_index_lookup] returns NULL for every sequence, but
    [mail_index_lookup_uid_range] then reads [rec_p[0]] outside the array
    whatever the range. *)
Theorem expunge_all_then_lookups (sizeof_rec truncate_ret : Z) (index : mail_index)
    (seq first_uid last_uid : Z) :
  lock_type index = MAIL_LOCK_EXCLUSIVE -> index_ok index ->
  records index <> [] ->
  0 < seq -> 0 < first_uid <= last_uid ->
  exists index',
    mail_index_expunge_record_range sizeof_rec truncate_ret index 0
      (messages_count index - 1) = Ret (truncate_ret, index') /\
    records index' = [] /\ messages_count index' = 0 /\
    mail_index_lookup index' seq = Ret None /\
    mail_index_lookup_uid_range index' first_uid last_uid = BadRead.
Proof.
  intros Hlock Hok Hne Hseq Hu. pose proof Hok as [Hcnt Hlim].
  unfold MAIL_INDEX_RECORD_COUNT in *.
  assert (Hpos : 0 < Z.of_nat (length (records index)))
    by (destruct (records index); [congruence|simpl; lia]).
  destruct (expunge_records sizeof_rec truncate_ret index 0 (messages_count index - 1))
    as (index' & Hrun & Hmc & Hrecs); [exact Hlock | lia | lia | lia |].
  exists index'. split; [exact Hrun|].
  assert (Hempty : records index' = []).
  { rewrite Hrecs. simpl take. simpl app. apply drop_ge. lia. }
  assert (Hzero : messages_count index' = 0).
  { rewrite Hmc. replace (messages_count index - (messages_count index - 1 - 0 + 1)) with 0
      by lia. reflexivity. }
  split; [exact Hempty|]. split; [exact Hzero|].
  assert (Hl : lock_eqb (lock_type index') MAIL_LOCK_UNLOCK = false).
  { revert Hrun. unfold mail_index_expunge_record_range. rewrite Hlock. simpl lock_eqb.
    cbv beta iota delta [i_assert rbind].
    destruct (_ <=? _); [|discriminate]. destruct (_ <? _); [|discriminate].
    intros E. inversion E. reflexivity. }
  split.
  - unfold mail_index_lookup. rewrite Hl, Hzero. simpl.
    destruct (Z.gtb_spec seq 0) as [_|?]; [|lia]. reflexivity.
  - unfold mail_index_lookup_uid_range. rewrite Hl. simpl.
    destruct (Z.gtb_spec first_uid 0) as [_|?]; [|lia].
    destruct (Z.leb_spec first_uid last_uid) as [_|?]; [|lia].
    simpl. unfold MAIL_INDEX_RECORD_COUNT. rewrite Hempty. reflexivity.
Qed.

(** A three-record index emptied by one expunge. *)
Lemma expunge_all_then_lookups_witness :
  let index := mk_index [MkRec 2 1; MkRec 5 0; MkRec 9 4] in
  exists index',
    mail_index_expunge_record_range 16 0 index 0 (messages_count index - 1)
      = Ret (0, index') /\
    records index' = [] /\ messages_count index' = 0 /\
    mail_index_lookup index' 1 = Ret None /\
    mail_index_lookup_uid_range index' 5 5 = BadRead.
Proof.
  intros index.
  apply (expunge_all_then_lookups 16 0 index 1 5 5);
    [reflexivity | split; reflexivity | discriminate | lia | lia].
Defined.

End MailIndexExtFacts.

(** ** More properties of the maildir save transaction *)

Module MaildirSaveExtFacts.
Import MaildirSave MaildirSaveExt MaildirSaveFacts.

Local Open Scope string_scope.
Local Open Scope list_scope.
Local Open Scope Z_scope.

Section GenericExt.

Context {X : Type} `{Collaborators X}.

(** *** What the system calls do to the file system *)

Lemma sys_unlink_fs (p : string) (w : world X) :
  exists r e w', sys_unlink p w = Ret (r, w') /\
    fault w' = fault w /\ ext w' = ext w /\
    trace w' = trace w ++ [EvUnlink p e] /\
    (fault w (SysUnlink p) = 0 -> fs w' = delete p (fs w)) /\
    (forall q, q <> p -> fs w' !! q = fs w !! q).
Proof.
  unfold sys_unlink.
  destruct (Z.eqb_spec (fault w (SysUnlink p)) 0) as [Hf|Hf]; simpl.
  - rewrite Hf. destruct (fs w !! p) as [f|] eqn:Hp; simpl.
    + do 3 eexists. split; [reflexivity|]. simpl. repeat split; auto.
      intros q Hq. apply lookup_delete_ne. congruence.
    + do 3 eexists. split; [reflexivity|]. simpl. repeat split; auto.
      intros _. symmetry. apply delete_id. exact Hp.
  - destruct (Z.eqb_spec (fault w (SysUnlink p)) 0) as [?|_]; [contradiction|].
    do 3 eexists. split; [reflexivity|]. simpl. repeat split; auto. contradiction.
Qed.

Lemma sys_link_fs (a b : string) (w : world X) :
  exists r e w', sys_link a b w = Ret (r, w') /\
    fault w' = fault w /\ ext w' = ext w /\
    trace w' = trace w ++ [EvLink a b e] /\
    ((r = 0 /\ e = 0 /\ exists f, fs w !! a = Some f /\ fs w !! b = None /\
                                   fs w' = <[b := f]> (fs w)) \/
     (r = -1 /\ e <> 0 /\ errno w' = e /\ fs w' = fs w)).
Proof.
  unfold sys_link.
  destruct (Z.eqb_spec (fault w (SysLink a b)) 0) as [Hf|Hf]; simpl.
  - destruct (fs w !! a) as [f|] eqn:Ha; [destruct (fs w !! b) as [g|] eqn:Hb|].
    + do 3 eexists. split; [reflexivity|]. simpl. do 3 (split; [reflexivity|]). right.
      repeat split; auto; discriminate.
    + do 3 eexists. split; [reflexivity|]. simpl. do 3 (split; [reflexivity|]). left.
      split; [reflexivity|]. split; [reflexivity|]. exists f. auto.
    + do 3 eexists. split; [reflexivity|]. simpl. do 3 (split; [reflexivity|]). right.
      repeat split; auto; discriminate.
  - do 3 eexists. split; [reflexivity|]. simpl. do 3 (split; [reflexivity|]). right.
    repeat split; auto.
Qed.

(** [unlink_all] removes the listed paths and nothing else. *)
Lemma unlink_all_fs (paths : list string) :
  forall w : world X,
    (forall p, p ∈ paths -> fault w (SysUnlink p) = 0) ->
    exists w', unlink_all paths w = Ret (tt, w') /\
      fault w' = fault w /\ ext w' = ext w /\
      (forall q, fs w' !! q = if decide (q ∈ paths) then None else fs w !! q) /\
      exists tr, trace w' = trace w ++ tr /\ links_of tr = [] /\ synced_of tr = [].
Proof.
  induction paths as [|p rest IH]; intros w Hfault.
  - exists w. split; [reflexivity|]. do 2 (split; [reflexivity|]). split.
    + intros q. destruct (decide (q ∈ [])) as [Hin|_]; [|reflexivity].
      apply elem_of_nil in Hin. contradiction.
    + exists []. rewrite app_nil_r. auto.
  - simpl.
    destruct (sys_unlink_fs p w) as (r & e & w1 & Hrun & Hf1 & He1 & Ht1 & Hdel & _).
    specialize (Hdel (Hfault p ltac:(left))).
    destruct (IH w1) as (w' & Hrun' & Hf' & He' & Hfs' & tr & Ht' & Hl' & Hs').
    { intros q Hq. rewrite Hf1. apply Hfault. right. exact Hq. }
    exists w'. split; [rewrite (mbind_Ret _ _ _ _ _ Hrun); exact Hrun'|].
    split; [congruence|]. split; [congruence|]. split.
    + intros q. rewrite Hfs', Hdel.
      destruct (decide (q ∈ rest)) as [Hin|Hnin].
      * rewrite decide_True by (right; exact Hin). reflexivity.
      * destruct (decide (q = p)) as [->|Hne].
        -- rewrite decide_True by left. apply lookup_delete_eq.
        -- rewrite decide_False by (intros Hin; apply elem_of_cons in Hin as [?|?]; auto).
           apply lookup_delete_ne. congruence.
    + exists (EvUnlink p e :: tr). rewrite Ht', Ht1, <- app_assoc. simpl.
      split; [reflexivity|]. unfold links_of, synced_of in *. simpl. auto.
Qed.

(** [maildir_file_move] as a change of the file system. *)
Lemma file_move_fs (ctx : maildir_save_context) (base : string) (dst : option string)
    (w : world X) :
  let tmp := tmp_path ctx (MkFilename base dst) in
  let new := dest_path ctx (MkFilename base dst) in
  fault w (SysUnlink tmp) = 0 ->
  exists r w' tr, maildir_file_move ctx base dst w = Ret (r, w') /\
    fault w' = fault w /\ ext w' = ext w /\ trace w' = trace w ++ tr /\
    ((r = 0 /\ exists f, fs w !! tmp = Some f /\ fs w !! new = None /\
                         fs w' = delete tmp (<[new := f]> (fs w))) \/
     (r = -1 /\ fs w' = delete tmp (fs w) /\
      exists e, e <> 0 /\ EvLink tmp new e ∈ tr /\ link_error e ∈ tr)).
Proof.
  intros tmp new Hfault.
  assert (Htmp : tmpdir ctx +:+ "/" +:+ base = tmp) by reflexivity.
  assert (Hnew : match dst with
                 | None => newdir ctx +:+ "/" +:+ base
                 | Some d => curdir ctx +:+ "/" +:+ d
                 end = new) by (destruct dst; reflexivity).
  unfold maildir_file_move. rewrite Htmp, Hnew. clear Htmp Hnew.
  destruct (sys_link_fs tmp new w) as (r & e & w1 & Hlink & Hf1 & Hx1 & Ht1 & Hcase).
  rewrite (mbind_Ret _ _ _ _ _ Hlink).
  assert (Htail : forall (ret : Z) (w2 : world X),
    exists w' tr, mbind (sys_unlink tmp) (fun u => mbind get_errno (fun e0 =>
                    mbind (if (u <? 0) && negb (e0 =? ENOENT)
                           then mail_storage_set_critical "unlink() failed" else mret tt)
                      (fun _ => mret ret))) w2 = Ret (ret, w') /\
      fault w' = fault w2 /\ ext w' = ext w2 /\ trace w' = trace w2 ++ tr /\
      (fault w2 (SysUnlink tmp) = 0 -> fs w' = delete tmp (fs w2))).
  { intros ret w2.
    destruct (sys_unlink_fs tmp w2) as (u & eu & w3 & Hunl & Hf3 & Hx3 & Ht3 & Hdel & _).
    rewrite (mbind_Ret _ _ _ _ _ Hunl). unfold mbind, get_errno.
    destruct ((u <? 0) && negb (errno w3 =? ENOENT)); simpl.
    - do 2 eexists. split; [reflexivity|]. simpl. rewrite Ht3, <- app_assoc.
      repeat split; auto.
    - do 2 eexists. split; [reflexivity|]. rewrite Ht3. repeat split; auto. }
  destruct Hcase as [(-> & -> & f & Ha & Hb & Hfs1)|(-> & He & Herr & Hfs1)].
  - simpl. unfold mbind at 1, mret at 1.
    destruct (Htail 0 w1) as (w' & tr & Hrun & Hf' & Hx' & Ht' & Hdel).
    exists 0, w', ([EvLink tmp new 0] ++ tr). split; [exact Hrun|].
    split; [congruence|]. split; [congruence|].
    split; [rewrite Ht', Ht1, <- app_assoc; reflexivity|]. left.
    split; [reflexivity|]. exists f. repeat split; auto.
    rewrite Hdel, Hfs1; [reflexivity|]. rewrite Hf1. exact Hfault.
  - change (-1 =? 0) with false. cbv beta iota.
    unfold mbind at 1. unfold mbind at 1. unfold get_errno at 1. unfold mbind at 1.
    set (w2 := log (link_error (errno w1)) w1).
    assert (Hset : (if ENOSPACE (errno w1)
                    then mail_storage_set_error "Not enough disk space"
                    else mail_storage_set_critical "link() failed") w1 = Ret (tt, w2)).
    { unfold w2, link_error. destruct (ENOSPACE (errno w1)); reflexivity. }
    rewrite Hset. unfold mret at 1.
    destruct (Htail (-1) w2) as (w' & tr & Hrun & Hf' & Hx' & Ht' & Hdel).
    exists (-1), w', ([EvLink tmp new e; link_error e] ++ tr). split; [exact Hrun|].
    split; [rewrite Hf'; exact Hf1|]. split; [rewrite Hx'; exact Hx1|].
    split.
    { rewrite Ht'. unfold w2. simpl. rewrite Ht1, Herr, <- !app_assoc. reflexivity. }
    right. split; [reflexivity|]. split.
    { rewrite Hdel; [unfold w2; simpl; rewrite Hfs1; reflexivity|].
      unfold w2. simpl. rewrite Hf1. exact Hfault. }
    exists e. split; [exact He|]. split.
    + apply elem_of_app. left. left.
    + apply elem_of_app. left. right. left.
Qed.

(** X7.  [maildir_file_move] moves the temp file to its destination by
    [link] and [unlink]: it always returns, and when [unlink] is not made to
    fail the temp path is gone afterwards whatever [link] did.  On success
    (0) the destination did not exist before and now holds the file that
    was at the temp path; on failure (-1) the destination is as it was and
    an error is recorded, "Not enough disk space" for ENOSPC and EDQUOT and
    a critical error otherwise.  No other path changes. *)
Theorem file_move_renames_or_reports (ctx : maildir_save_context) (base : string)
    (dst : option string) (w : world X) :
  let tmp := tmp_path ctx (MkFilename base dst) in
  let new := dest_path ctx (MkFilename base dst) in
  fault w (SysUnlink tmp) = 0 -> tmp <> new ->
  exists r w' tr, maildir_file_move ctx base dst w = Ret (r, w') /\
    trace w' = trace w ++ tr /\
    fs w' !! tmp = None /\
    (forall q, q <> tmp -> q <> new -> fs w' !! q = fs w !! q) /\
    ((r = 0 /\ fs w !! new = None /\ is_Some (fs w !! tmp) /\
      fs w' !! new = fs w !! tmp) \/
     (r = -1 /\ fs w' !! new = fs w !! new /\
      exists e, e <> 0 /\ EvLink tmp new e ∈ tr /\
        (if ENOSPACE e then EvSetError "Not enough disk space"
         else EvSetCritical "link() failed") ∈ tr)).
Proof.
  intros tmp new Hfault Hne.
  destruct (file_move_fs ctx base dst w Hfault)
    as (r & w' & tr & Hrun & _ & _ & Ht & Hcase).
  fold tmp new in Hcase. exists r, w', tr. split; [exact Hrun|]. split; [exact Ht|].
  destruct Hcase as [(-> & f & Ha & Hb & Hfs)|(-> & Hfs & e & He & Hl & Herr)].
  - rewrite Hfs. split; [apply lookup_delete_eq|]. split.
    + intros q Hq1 Hq2. rewrite lookup_delete_ne by congruence.
      apply lookup_insert_ne. congruence.
    + left. split; [reflexivity|]. split; [exact Hb|]. split; [rewrite Ha; eauto|].
      rewrite lookup_delete_ne by congruence. rewrite lookup_insert_eq. symmetry. exact Ha.
  - rewrite Hfs. split; [apply lookup_delete_eq|]. split.
    + intros q Hq1 Hq2. apply lookup_delete_ne. congruence.
    + right. split; [reflexivity|]. split; [apply lookup_delete_ne; congruence|].
      exists e. auto.
Qed.

(** *** The commit as a change of the file system *)

Lemma call_fs {A : Type} (f : X -> A * X) (w w' : world X) (a : A) :
  call f w = Ret (a, w') ->
  fs w' = fs w /\ fault w' = fault w /\ f (ext w) = (a, ext w').
Proof.
  unfold call. destruct (f (ext w)) as [a' x] eqn:E. intros E'. inversion E'; subst.
  repeat split; reflexivity.
Qed.

Lemma uidlist_sync_next_fs (fname : string) (flags : Z) (w w' : world X) (r : Z) :
  uidlist_sync_next fname flags w = Ret (r, w') ->
  fs w' = fs w /\ fault w' = fault w /\
  r = (maildir_uidlist_sync_next fname flags (ext w)).1.
Proof.
  unfold uidlist_sync_next. intros Hrun.
  apply mbind_inv in Hrun as (r1 & w1 & Hcall & Hrun).
  apply mbind_inv in Hrun as (u & w2 & Hlog & Hrun).
  apply mret_inv in Hrun as [-> ->].
  apply call_fs in Hcall as (Hfs & Hf & Hr). inversion Hlog; subst. simpl.
  rewrite Hr. repeat split; auto.
Qed.

Lemma paths_apart_cons (ctx : maildir_save_context) (mf : maildir_filename)
    (rest : list maildir_filename) :
  NoDup ((tmp_path ctx <$> mf :: rest) ++ (dest_path ctx <$> mf :: rest)) ->
  tmp_path ctx mf <> dest_path ctx mf /\
  (tmp_path ctx mf ∉ tmp_path ctx <$> rest) /\
  (tmp_path ctx mf ∉ dest_path ctx <$> rest) /\
  (dest_path ctx mf ∉ tmp_path ctx <$> rest) /\
  (dest_path ctx mf ∉ dest_path ctx <$> rest) /\
  NoDup ((tmp_path ctx <$> rest) ++ (dest_path ctx <$> rest)).
Proof.
  rewrite !fmap_cons. simpl. intros Hnd.
  apply NoDup_cons in Hnd as [Hhead Hnd].
  apply NoDup_app in Hnd as (Ht & Hcross & Hd).
  apply NoDup_cons in Hd as [Hdhead Hd].
  rewrite elem_of_app, elem_of_cons in Hhead.
  repeat split.
  - intros E. apply Hhead. right. left. exact E.
  - intros Hin. apply Hhead. left. exact Hin.
  - intros Hin. apply Hhead. right. right. exact Hin.
  - intros Hin. apply (Hcross _ Hin). left.
  - exact Hdhead.
  - apply NoDup_app. split; [exact Ht|]. split; [|exact Hd].
    intros q Hq Hq'. apply (Hcross _ Hq). right. exact Hq'.
Qed.

Lemma path_of_member (f : maildir_filename -> string) (mf : maildir_filename)
    (l : list maildir_filename) :
  mf ∈ l -> f mf ∈ f <$> l.
Proof. intros Hin. apply list_elem_of_fmap_2. exact Hin. Qed.

(** The loop of the commit, entry by entry: what it went through is out
    of tmp/ and at its destination, which did not exist before; where it
    stopped, the temp file is gone as well. *)
Lemma commit_loop_fs (ctx : maildir_save_context) (flags : Z)
    (mfs : list maildir_filename) :
  forall (pos : nat) (w w' : world X) (stop : option nat),
    commit_loop ctx flags mfs pos w = Ret (stop, w') ->
    no_unlink_fault w ->
    NoDup ((tmp_path ctx <$> mfs) ++ (dest_path ctx <$> mfs)) ->
    fault w' = fault w /\
    match stop with
    | None =>
        (forall mf, mf ∈ mfs ->
           fs w' !! tmp_path ctx mf = None /\ fs w !! dest_path ctx mf = None /\
           is_Some (fs w !! tmp_path ctx mf) /\
           fs w' !! dest_path ctx mf = fs w !! tmp_path ctx mf) /\
        (forall q, (q ∉ tmp_path ctx <$> mfs) -> (q ∉ dest_path ctx <$> mfs) ->
           fs w' !! q = fs w !! q)
    | Some p =>
        exists k mf, p = (pos + k)%nat /\ mfs !! k = Some mf /\
          (forall mf', mf' ∈ take k mfs ->
             fs w' !! tmp_path ctx mf' = None /\ fs w !! dest_path ctx mf' = None) /\
          fs w' !! tmp_path ctx mf = None /\
          (sync_next_never_fails -> fs w' !! dest_path ctx mf = fs w !! dest_path ctx mf) /\
          (forall q, (q ∉ tmp_path ctx <$> take (S k) mfs) ->
                     (q ∉ dest_path ctx <$> take (S k) mfs) ->
             fs w' !! q = fs w !! q)
    end.
Proof.
  induction mfs as [|mf rest IH]; intros pos w w' stop Hrun Hnf Hnd.
  - apply mret_inv in Hrun as [<- <-]. split; [reflexivity|]. split.
    + intros mf Hin. apply elem_of_nil in Hin. contradiction.
    + reflexivity.
  - apply paths_apart_cons in Hnd as (Htd & Htt & Htdr & Hdt & Hdd & Hnd).
    simpl in Hrun.
    destruct (file_move_fs ctx (basename mf) (dest mf) w) as
      (r & w1 & tr & Hmove & Hf1 & Hx1 & Ht1 & Hcase); [apply Hnf|].
    rewrite (mbind_Ret _ _ _ _ _ Hmove) in Hrun.
    replace (MkFilename (basename mf) (dest mf)) with mf in Hcase by (destruct mf; reflexivity).
    assert (Hgone : fs w1 !! tmp_path ctx mf = None).
    { destruct Hcase as [(_ & f & _ & _ & ->)|(_ & -> & _)]; apply lookup_delete_eq. }
    assert (Hother : forall q, q <> tmp_path ctx mf -> q <> dest_path ctx mf ->
                               fs w1 !! q = fs w !! q).
    { intros q Hq1 Hq2.
      destruct Hcase as [(_ & f & _ & _ & ->)|(_ & -> & _)].
      - rewrite lookup_delete_ne by congruence. apply lookup_insert_ne. congruence.
      - apply lookup_delete_ne. congruence. }
    assert (Hsingle : forall f : maildir_filename -> string, forall q,
              (q ∉ f <$> take 1 (mf :: rest)) -> q <> f mf).
    { intros f q Hq E. apply Hq. simpl. subst q. left. }
    destruct Hcase as [(-> & f & Ha & Hb & Hfs1)|(-> & Hfs1 & _)].
    + change (0 <? 0) with false in Hrun. cbv beta iota in Hrun.
      apply mbind_inv in Hrun as (r' & w2 & Hsync & Hrun).
      apply uidlist_sync_next_fs in Hsync as (Hfs2 & Hf2 & Hr').
      destruct (Z.ltb_spec r' 0) as [Hneg|Hpos].
      * apply mbind_inv in Hrun as (d & w3 & Hcall & Hrun).
        apply mret_inv in Hrun as [<- <-].
        apply call_fs in Hcall as (Hfs3 & Hf3 & _).
        split; [congruence|]. exists 0%nat, mf.
        split; [lia|]. split; [reflexivity|]. split.
        { intros mf' Hin. rewrite take_0 in Hin. apply elem_of_nil in Hin. contradiction. }
        split; [rewrite Hfs3, Hfs2; exact Hgone|]. split.
        { intros Hnever. specialize (Hnever (match dest mf with Some d0 => d0
                                                | None => basename mf end) flags (ext w1)).
          rewrite <- Hr' in Hnever. lia. }
        intros q Hq1 Hq2. rewrite Hfs3, Hfs2.
        apply Hother; [apply (Hsingle (tmp_path ctx)); exact Hq1
                      |apply (Hsingle (dest_path ctx)); exact Hq2].
      * assert (Hnf2 : no_unlink_fault w2).
        { intros q. rewrite Hf2, Hf1. apply Hnf. }
        destruct (IH (S pos) w2 w' stop Hrun Hnf2 Hnd) as [Hf' Hres].
        split; [congruence|].
        assert (Hrest_t : forall mf', mf' ∈ rest ->
                  fs w2 !! tmp_path ctx mf' = fs w !! tmp_path ctx mf').
        { intros mf' Hin. rewrite Hfs2. apply Hother.
          - intros E. apply Htt. rewrite <- E. apply path_of_member. exact Hin.
          - intros E. apply Hdt. rewrite <- E. apply path_of_member. exact Hin. }
        assert (Hrest_d : forall mf', mf' ∈ rest ->
                  fs w2 !! dest_path ctx mf' = fs w !! dest_path ctx mf').
        { intros mf' Hin. rewrite Hfs2. apply Hother.
          - intros E. apply Htdr. rewrite <- E. apply path_of_member. exact Hin.
          - intros E. apply Hdd. rewrite <- E. apply path_of_member. exact Hin. }
        destruct stop as [p|].
        -- destruct Hres as (k & mf0 & -> & Hk & Hbefore & Hgone0 & Hdest0 & Hothers).
           exists (S k), mf0. split; [lia|]. split; [exact Hk|].
           assert (Hin0 : mf0 ∈ rest) by (eapply list_elem_of_lookup_2; exact Hk).
           split.
           { intros mf' Hin. rewrite firstn_cons in Hin.
             apply elem_of_cons in Hin as [->|Hin].
             - split; [|exact Hb].
               rewrite Hothers; [rewrite Hfs2; exact Hgone| |].
               + intros Hin. apply Htt. apply list_elem_of_fmap_1 in Hin as (x & -> & Hx).
                 apply path_of_member. apply elem_of_take in Hx as (i & Hx & _).
                 eapply list_elem_of_lookup_2; exact Hx.
               + intros Hin. apply Htdr. apply list_elem_of_fmap_1 in Hin as (x & -> & Hx).
                 apply path_of_member. apply elem_of_take in Hx as (i & Hx & _).
                 eapply list_elem_of_lookup_2; exact Hx.
             - destruct (Hbefore mf' Hin) as [H1 H2]. split; [exact H1|].
               rewrite <- Hrest_d; [exact H2|].
               apply elem_of_take in Hin as (i & Hx & _).
               eapply list_elem_of_lookup_2; exact Hx. }
           split; [exact Hgone0|]. split.
           { intros Hnever. rewrite (Hdest0 Hnever). apply Hrest_d. exact Hin0. }
           intros q Hq1 Hq2. rewrite firstn_cons, fmap_cons in Hq1, Hq2.
           apply not_elem_of_cons in Hq1 as [Hq1 Hq1'].
           apply not_elem_of_cons in Hq2 as [Hq2 Hq2'].
           rewrite (Hothers q Hq1' Hq2'), Hfs2. apply Hother; assumption.
        -- destruct Hres as [Hall Hothers]. split.
           { intros mf' Hin. apply elem_of_cons in Hin as [->|Hin].
             - rewrite !(Hothers _) by assumption. rewrite Hfs2, Hgone, Hfs1.
               rewrite lookup_delete_ne by congruence. rewrite lookup_insert_eq.
               rewrite Ha. repeat split; eauto.
             - destruct (Hall mf' Hin) as (H1 & H2 & H3 & H4).
               rewrite <- (Hrest_t mf' Hin), <- (Hrest_d mf' Hin). auto. }
           intros q Hq1 Hq2. rewrite fmap_cons in Hq1, Hq2.
           apply not_elem_of_cons in Hq1 as [Hq1 Hq1'].
           apply not_elem_of_cons in Hq2 as [Hq2 Hq2'].
           rewrite (Hothers q Hq1' Hq2'), Hfs2. apply Hother; assumption.
    + change (-1 <? 0) with true in Hrun. cbv beta iota in Hrun.
      apply mbind_inv in Hrun as (d & w3 & Hcall & Hrun).
      apply mret_inv in Hrun as [<- <-].
      apply call_fs in Hcall as (Hfs3 & Hf3 & _).
      split; [congruence|]. exists 0%nat, mf.
      split; [lia|]. split; [reflexivity|]. split.
      { intros mf' Hin. rewrite take_0 in Hin. apply elem_of_nil in Hin. contradiction. }
      split; [rewrite Hfs3; exact Hgone|]. split.
      { intros _. rewrite Hfs3, Hfs1. apply lookup_delete_ne. congruence. }
      intros q Hq1 Hq2. rewrite Hfs3.
      apply Hother; [apply (Hsingle (tmp_path ctx)); exact Hq1
                    |apply (Hsingle (dest_path ctx)); exact Hq2].
Qed.

Lemma commit_abort_fs (ctx : maildir_save_context) (pos : nat) (w w' : world X) :
  maildir_save_commit_abort ctx pos w = Ret (tt, w') ->
  no_unlink_fault w ->
  forall q, fs w' !! q =
    if decide (q ∈ (dest_path ctx <$> take pos (files ctx)) ++
                   (tmp_path ctx <$> drop pos (files ctx)))
    then None else fs w !! q.
Proof.
  unfold maildir_save_commit_abort, maildir_transaction_save_rollback. intros Hrun Hnf q.
  destruct (unlink_all_fs (dest_path ctx <$> take pos (files ctx)) w)
    as (w1 & Hrun1 & Hf1 & _ & Hfs1 & _); [intros p _; apply Hnf|].
  rewrite (mbind_Ret _ _ _ _ _ Hrun1) in Hrun.
  apply mbind_inv in Hrun as (u & w2 & Hassert & Hrun).
  apply m_assert_inv in Hassert as [_ <-].
  destruct (unlink_all_fs
              (tmp_path (set_files (drop pos (files ctx)) ctx)
                 <$> files (set_files (drop pos (files ctx)) ctx)) w1)
    as (w3 & Hrun3 & _ & _ & Hfs3 & _); [intros p _; rewrite Hf1; apply Hnf|].
  rewrite Hrun3 in Hrun. inversion Hrun; subst w3. clear Hrun.
  rewrite Hfs3, Hfs1. simpl files.
  change (tmp_path (set_files (drop pos (files ctx)) ctx)) with (tmp_path ctx).
  destruct (decide (q ∈ tmp_path ctx <$> drop pos (files ctx))) as [Hin|Hnin].
  - rewrite decide_True by (apply elem_of_app; right; exact Hin). reflexivity.
  - destruct (decide (q ∈ dest_path ctx <$> take pos (files ctx))) as [Hin'|Hnin'].
    + rewrite decide_True by (apply elem_of_app; left; exact Hin'). reflexivity.
    + rewrite decide_False; [reflexivity|].
      intros Hin. apply elem_of_app in Hin as [?|?]; contradiction.
Qed.

(** The ways through [maildir_transaction_save_commit]: it gives up before
    the loop, in the loop, after the loop, or goes through. *)
Lemma commit_ways (ctx : maildir_save_context) (w w' : world X) (r : Z) :
  maildir_transaction_save_commit ctx w = Ret (r, w') ->
  exists w0, fs w0 = fs w /\ fault w0 = fault w /\
    ((r = -1 /\ maildir_save_commit_abort ctx 0 w0 = Ret (tt, w')) \/
     exists stop w1,
       commit_loop ctx (Z.lor MAILDIR_UIDLIST_REC_FLAG_NEW_DIR
                              MAILDIR_UIDLIST_REC_FLAG_RECENT) (files ctx) 0 w0
         = Ret (stop, w1) /\
       match stop with
       | Some pos => r = -1 /\ maildir_save_commit_abort ctx pos w1 = Ret (tt, w')
       | None =>
           exists w2, fs w2 = fs w1 /\ fault w2 = fault w1 /\
             ((r = -1 /\
               maildir_save_commit_abort ctx (length (files ctx)) w2 = Ret (tt, w')) \/
              (0 < r /\ fs w' = fs w2))
       end).
Proof.
  unfold maildir_transaction_save_commit. intros Hrun.
  apply mbind_inv in Hrun as (u & wa & Hassert & Hrun).
  apply m_assert_inv in Hassert as [_ <-].
  apply mbind_inv in Hrun as (ret & w1 & Hlock & Hrun).
  apply call_fs in Hlock as (Hfs1 & Hf1 & _).
  destruct (Z.leb_spec ret 0) as [Hle|Hgt].
  { apply mbind_inv in Hrun as ([] & w2 & Habort & Hrun).
    apply mret_inv in Hrun as [<- <-].
    exists w1. split; [exact Hfs1|]. split; [exact Hf1|]. left. auto. }
  apply mbind_inv in Hrun as (s & w2 & Hsync & Hrun).
  apply call_fs in Hsync as (Hfs2 & Hf2 & _).
  destruct (Z.ltb_spec s 0) as [Hneg|Hpos].
  { apply mbind_inv in Hrun as ([] & w3 & Habort & Hrun).
    apply mret_inv in Hrun as [<- <-].
    exists w2. split; [congruence|]. split; [congruence|]. left. auto. }
  apply mbind_inv in Hrun as (first_uid & w3 & Hask & Hrun).
  inversion Hask; subst w3. clear Hask.
  apply mbind_inv in Hrun as (last_uid & w4 & Hassign & Hrun).
  apply call_fs in Hassign as (Hfs4 & Hf4 & _).
  apply mbind_inv in Hrun as (u5 & w5 & Hinit & Hrun).
  inversion Hinit; subst w5. clear Hinit.
  apply mbind_inv in Hrun as (stop & w6 & Hloop & Hrun).
  eexists. split; [|split; [|right; exists stop, w6; split; [exact Hloop|]]].
  { simpl. congruence. }
  { simpl. congruence. }
  destruct stop as [pos|].
  - apply mbind_inv in Hrun as ([] & w7 & Habort & Hrun).
    apply mret_inv in Hrun as [<- <-]. auto.
  - apply mbind_inv in Hrun as (d & w7 & Hdeinit & Hrun).
    apply call_fs in Hdeinit as (Hfs7 & Hf7 & _).
    exists w7. split; [exact Hfs7|]. split; [exact Hf7|].
    destruct (Z.ltb_spec d 0) as [Hneg'|Hpos'].
    + apply mbind_inv in Hrun as ([] & w8 & Habort & Hrun).
      apply mret_inv in Hrun as [<- <-]. left. auto.
    + apply mbind_inv in Hrun as (next_uid & w8 & Hask & Hrun).
      inversion Hask; subst w8. clear Hask.
      apply mbind_inv in Hrun as (u9 & w9 & Hassert & Hrun).
      apply m_assert_inv in Hassert as [_ <-].
      apply mret_inv in Hrun as [<- <-]. right. split; [lia|reflexivity].
Qed.

(** X8.  A commit that succeeds publishes every staged file: each
    destination path was free before and now holds the file that was
    staged, each temp path is gone, and no other path of the file system
    changes. *)
Theorem commit_publishes_staged_files (ctx : maildir_save_context) (w w' : world X)
    (r : Z) :
  maildir_transaction_save_commit ctx w = Ret (r, w') -> 0 <= r ->
  no_unlink_fault w -> staged_paths_apart ctx ->
  (forall mf, mf ∈ files ctx ->
     fs w' !! tmp_path ctx mf = None /\ fs w !! dest_path ctx mf = None /\
     is_Some (fs w !! tmp_path ctx mf) /\
     fs w' !! dest_path ctx mf = fs w !! tmp_path ctx mf) /\
  (forall q, (q ∉ tmp_path ctx <$> files ctx) -> (q ∉ dest_path ctx <$> files ctx) ->
     fs w' !! q = fs w !! q).
Proof.
  intros Hrun Hr Hnf Hapart.
  apply commit_ways in Hrun as (w0 & Hfs0 & Hf0 & [[-> _]|(stop & w1 & Hloop & Hstop)]);
    [lia|].
  apply commit_loop_fs in Hloop as [Hf1 Hres];
    [|intros p; rewrite Hf0; apply Hnf|exact Hapart].
  destruct stop as [pos|]; [destruct Hstop as [-> _]; lia|].
  destruct Hstop as (w2 & Hfs2 & _ & [[-> _]|[_ Hfs']]); [lia|].
  rewrite Hfs0 in Hres. destruct Hres as [Hall Hothers]. split.
  - intros mf Hin. rewrite Hfs', Hfs2. apply Hall. exact Hin.
  - intros q Hq1 Hq2. rewrite Hfs', Hfs2. apply Hothers; assumption.
Qed.

(** X9.  A commit that fails is undone on the file system, provided the
    UID-list sync session refuses no name: wherever the commit gave up, the
    temp files of the staged messages are removed and every other path, the
    destinations included, is as it was before the commit. *)
Theorem failed_commit_is_undone (ctx : maildir_save_context) (w w' : world X) (r : Z) :
  maildir_transaction_save_commit ctx w = Ret (r, w') -> r < 0 ->
  no_unlink_fault w -> staged_paths_apart ctx -> sync_next_never_fails ->
  forall q, fs w' !! q =
    if decide (q ∈ staged_tmp_paths ctx) then None else fs w !! q.
Proof.
  intros Hrun Hr Hnf Hapart Hnever q. unfold staged_tmp_paths.
  apply commit_ways in Hrun as (w0 & Hfs0 & Hf0 & [[_ Habort]|(stop & w1 & Hloop & Hstop)]).
  { rewrite (commit_abort_fs _ _ _ _ Habort) by (intros p; rewrite Hf0; apply Hnf).
    rewrite take_0, drop_0, Hfs0. reflexivity. }
  apply commit_loop_fs in Hloop as [Hf1 Hres];
    [|intros p; rewrite Hf0; apply Hnf|exact Hapart].
  assert (Hnf1 : no_unlink_fault w1) by (intros p; rewrite Hf1, Hf0; apply Hnf).
  rewrite Hfs0 in Hres.
  destruct stop as [pos|].
  - destruct Hstop as [_ Habort].
    destruct Hres as (k & mf & Hpos & Hk & Hbefore & Hgone & Hdest & Hothers).
    simpl in Hpos. subst pos. specialize (Hdest Hnever).
    rewrite (commit_abort_fs _ _ _ _ Habort Hnf1).
    assert (Hsplit : files ctx = take k (files ctx) ++ mf :: drop (S k) (files ctx)).
    { rewrite <- (take_drop_middle _ _ _ Hk) at 1. reflexivity. }
    assert (Hdrop : drop k (files ctx) = mf :: drop (S k) (files ctx)).
    { apply drop_S. exact Hk. }
    assert (Htake : take (S k) (files ctx) = take k (files ctx) ++ [mf]).
    { apply take_S_r. exact Hk. }
    destruct (decide (q ∈ tmp_path ctx <$> files ctx)) as [Hin|Hnin].
    + destruct (decide (q ∈ _ ++ _)) as [_|Hout]; [reflexivity|].
      rewrite not_elem_of_app in Hout. destruct Hout as [Hout1 Hout2].
      rewrite Hsplit, fmap_app, elem_of_app in Hin. destruct Hin as [Hin|Hin].
      * apply list_elem_of_fmap_1 in Hin as (mf' & -> & Hin). apply Hbefore. exact Hin.
      * exfalso. apply Hout2. rewrite Hdrop. exact Hin.
    + assert (Hq_tmp : forall l : list maildir_filename,
                       (forall mf', mf' ∈ l -> mf' ∈ files ctx) ->
                       q ∉ tmp_path ctx <$> l).
      { intros l Hl Hin. apply Hnin. apply list_elem_of_fmap_1 in Hin as (mf' & -> & Hin).
        apply path_of_member. apply Hl. exact Hin. }
      destruct (decide (q ∈ _ ++ _)) as [Hin|Hout].
      * apply elem_of_app in Hin as [Hin|Hin].
        -- apply list_elem_of_fmap_1 in Hin as (mf' & -> & Hin).
           symmetry. apply Hbefore. exact Hin.
        -- exfalso. revert Hin. apply Hq_tmp. intros mf' Hin.
           eapply subseteq_drop. exact Hin.
      * rewrite not_elem_of_app in Hout. destruct Hout as [Hout1 Hout2].
        destruct (decide (q = dest_path ctx mf)) as [->|Hne]; [exact Hdest|].
        apply Hothers.
        -- apply Hq_tmp. intros mf' Hin. eapply subseteq_take. exact Hin.
        -- rewrite Htake, fmap_app. apply not_elem_of_app. split; [exact Hout1|].
           simpl. intros Hin. apply list_elem_of_singleton in Hin. contradiction.
  - destruct Hstop as (w2 & Hfs2 & Hf2 & [[_ Habort]|[Hpos _]]); [|lia].
    destruct Hres as [Hall Hothers].
    rewrite (commit_abort_fs _ _ _ _ Habort)
      by (intros p; rewrite Hf2; apply Hnf1).
    rewrite firstn_all, drop_all, fmap_nil, app_nil_r, Hfs2.
    destruct (decide (q ∈ tmp_path ctx <$> files ctx)) as [Hin|Hnin].
    + destruct (decide (q ∈ dest_path ctx <$> files ctx)) as [_|Hout]; [reflexivity|].
      apply list_elem_of_fmap_1 in Hin as (mf' & -> & Hin). apply Hall. exact Hin.
    + destruct (decide (q ∈ dest_path ctx <$> files ctx)) as [Hin|Hout].
      * apply list_elem_of_fmap_1 in Hin as (mf' & -> & Hin). symmetry. apply Hall. exact Hin.
      * apply Hothers; assumption.
Qed.

(** X10.  [maildir_transaction_save_rollback] on a context whose stream
    is closed returns, and when no [unlink] is made to fail it leaves the
    file system without the temp file of any staged message and with every
    other path as it was; it makes no [link] call, gives no name to the UID
    list and leaves the collaborators' state alone.  With a stream still
    open it stops at its assertion. *)
Theorem rollback_removes_staged_files (ctx : maildir_save_context) (w : world X) :
  output ctx = None -> no_unlink_fault w ->
  (exists w' tr,
     maildir_transaction_save_rollback ctx w = Ret (tt, w') /\
     (forall q, fs w' !! q =
        if decide (q ∈ staged_tmp_paths ctx) then None else fs w !! q) /\
     ext w' = ext w /\
     trace w' = trace w ++ tr /\ links_of tr = [] /\ synced_of tr = []) /\
  (forall out, maildir_transaction_save_rollback (set_output (Some out) ctx) w
               = AssertFail).
Proof.
  intros Hout Hnf. split; [|reflexivity].
  unfold maildir_transaction_save_rollback. rewrite Hout.
  destruct (unlink_all_fs (tmp_path ctx <$> files ctx) w)
    as (w' & Hrun & _ & Hx & Hfs & tr & Ht & Hl & Hs); [intros p _; apply Hnf|].
  exists w', tr. split; [exact Hrun|]. auto.
Qed.

(** X11.  A commit that does not get the UID-list lock, or whose index
    sync fails, is a rollback that returns -1: the rest of the commit is
    the computation of [maildir_transaction_save_rollback] on the same
    context, so no file is linked and no UID is assigned. *)
Theorem commit_without_lock_is_rollback (ctx : maildir_save_context) (w : world X)
    (l s : Z) (x1 x2 : X) :
  maildir_uidlist_lock (ext w) = (l, x1) ->
  maildir_sync_index x1 = (s, x2) ->
  l <= 0 \/ s < 0 ->
  maildir_transaction_save_commit ctx w
  = mbind (maildir_transaction_save_rollback ctx) (fun _ => mret (-1))
      (set_ext (if l <=? 0 then x1 else x2) w).
Proof.
  intros Hlock Hsync Hfail.
  assert (Habort : forall w0 : world X, maildir_save_commit_abort ctx 0 w0
                              = maildir_transaction_save_rollback ctx w0).
  { intros w0. unfold maildir_save_commit_abort. rewrite take_0, drop_0.
    destruct ctx; reflexivity. }
  unfold maildir_transaction_save_commit, maildir_transaction_save_rollback.
  destruct (output ctx) as [out|] eqn:Hout; [reflexivity|].
  unfold mbind at 1. unfold m_assert at 1. unfold mbind at 1. unfold call at 1.
  rewrite Hlock. destruct (Z.leb_spec l 0) as [Hle|Hgt].
  - unfold mbind at 1. rewrite Habort. unfold maildir_transaction_save_rollback.
    rewrite Hout. reflexivity.
  - destruct Hfail as [?|Hs]; [lia|].
    unfold mbind at 1. unfold call at 1. simpl ext. rewrite Hsync.
    destruct (Z.ltb_spec s 0) as [_|?]; [|lia].
    unfold mbind at 1. rewrite Habort. unfold maildir_transaction_save_rollback.
    rewrite Hout. reflexivity.
Qed.

(** *** Finishing and cancelling one message *)

Lemma sys_utime_fs (p : string) (a m : Z) (w : world X) :
  exists r w1 e, sys_utime p a m w = Ret (r, w1) /\
    fault w1 = fault w /\ ext w1 = ext w /\ fds w1 = fds w /\
    ioloop_time w1 = ioloop_time w /\
    trace w1 = trace w ++ [EvUtime p a m e] /\
    delete p (fs w1) = delete p (fs w) /\
    (fault w (SysUtime p) = 0 -> forall f, fs w !! p = Some f ->
       r = 0 /\ fs w1 = <[p := MkFile (f_data f) a m]> (fs w)).
Proof.
  unfold sys_utime.
  destruct (Z.eqb_spec (fault w (SysUtime p)) 0) as [Hf|Hf]; simpl.
  - destruct (fs w !! p) as [f|] eqn:Hp.
    + do 3 eexists. split; [reflexivity|]. simpl. do 5 (split; [reflexivity|]).
      split; [apply delete_insert_eq|].
      intros _ f' E. inversion E; subst. auto.
    + do 3 eexists. split; [reflexivity|]. simpl. do 6 (split; [reflexivity|]).
      intros _ f' E. discriminate.
  - do 3 eexists. split; [reflexivity|]. simpl. do 6 (split; [reflexivity|]).
    intros E. contradiction.
Qed.

Lemma sys_fsync_fs (d : Z) (w : world X) :
  exists r w1 e, sys_fsync d w = Ret (r, w1) /\
    fault w1 = fault w /\ ext w1 = ext w /\ fds w1 = fds w /\ fs w1 = fs w /\
    trace w1 = trace w ++ [EvFsync d e] /\
    (fault w (SysFsync d) = 0 -> r = 0).
Proof.
  unfold sys_fsync.
  destruct (Z.eqb_spec (fault w (SysFsync d)) 0) as [Hf|Hf].
  - do 3 eexists. split; [reflexivity|]. simpl. auto 10.
  - do 3 eexists. split; [reflexivity|]. simpl. do 5 (split; [reflexivity|]).
    intros E. contradiction.
Qed.

Lemma sys_close_fs (d : Z) (w : world X) :
  exists r w1 e, sys_close d w = Ret (r, w1) /\
    fault w1 = fault w /\ ext w1 = ext w /\ fs w1 = fs w /\
    trace w1 = trace w ++ [EvClose d e] /\
    (fault w (SysClose d) = 0 -> r = 0 /\ fds w1 = delete d (fds w)).
Proof.
  unfold sys_close.
  destruct (Z.eqb_spec (fault w (SysClose d)) 0) as [Hf|Hf].
  - do 3 eexists. split; [reflexivity|]. simpl. auto 10.
  - do 3 eexists. split; [reflexivity|]. simpl. do 4 (split; [reflexivity|]).
    intros E. contradiction.
Qed.

(** A step "on a negative result report a critical error and set
    [failed]" changes nothing but the trace. *)
Lemma flag_step_fs (r : Z) (msg : string) (c : maildir_save_context) (w : world X) :
  exists w1 tr,
    (if r <? 0 then mbind (mail_storage_set_critical msg) (fun _ => mret (set_failed true c))
     else mret c) w = Ret (if r <? 0 then set_failed true c else c, w1) /\
    trace w1 = trace w ++ tr /\ fs w1 = fs w /\ fault w1 = fault w /\
    ext w1 = ext w /\ fds w1 = fds w.
Proof.
  destruct (r <? 0).
  - exists (log (EvSetCritical msg) w), [EvSetCritical msg]. repeat split; reflexivity.
  - exists w, []. rewrite app_nil_r. repeat split; reflexivity.
Qed.

(** [maildir_save_finish] on a failed context whose descriptor is open:
    the temp file is removed, [errno] is the stream's again and the last
    thing recorded is the error of the stream. *)
Lemma finish_failed_fs (ctx : maildir_save_context) (want : bool) (w : world X)
    (mf : maildir_filename) (rest : list maildir_filename) (out : ostream) :
  failed ctx = true -> fd ctx <> -1 -> files ctx = mf :: rest -> output ctx = Some out ->
  fault w (SysUnlink (tmp_path ctx mf)) = 0 ->
  exists w' tr,
    maildir_save_finish ctx want w
      = Ret ((-1, set_files rest (set_fd (-1) (set_output None ctx))), w') /\
    trace w' = trace w ++ tr /\
    fs w' = delete (tmp_path ctx mf) (fs w) /\
    ext w' = ext w /\
    errno w' = stream_errno out /\
    (stream_errno out <> 0 -> last tr = Some (write_error (stream_errno out))).
Proof.
  intros Hfailed Hfd Hfiles Hout Hnf. unfold maildir_save_finish.
  rewrite Hfailed. simpl andb.
  destruct (Z.eqb_spec (fd ctx) (-1)) as [?|_]; [contradiction|].
  rewrite Hfiles. cbv beta iota delta [andb].
  change (tmpdir ctx +:+ "/" +:+ basename mf) with (tmp_path ctx mf).
  set (tmp := tmp_path ctx mf) in *.
  assert (Hblock : exists w1 tr1,
    (if negb (received_date ctx =? -1)
     then mbind (fun w0 => Ret (ioloop_time w0, w0))
            (fun now => mbind (sys_utime tmp now (received_date ctx))
               (fun r => if r <? 0
                         then mbind (mail_storage_set_critical "utime() failed")
                                (fun _ => mret (set_failed true ctx))
                         else mret ctx))
     else mret ctx) w = Ret (ctx, w1) /\ trace w1 = trace w ++ tr1 /\
    delete tmp (fs w1) = delete tmp (fs w) /\ fault w1 = fault w /\ ext w1 = ext w).
  { destruct (negb (received_date ctx =? -1)).
    - destruct (sys_utime_fs tmp (ioloop_time w) (received_date ctx) w)
        as (r & wu & eu & E & Hfu & Hxu & _ & _ & Htu & Hdu & _).
      destruct (flag_step_failed r "utime() failed" ctx wu Hfailed)
        as (w1 & tr & E1 & Ht1 & Hfs1).
      assert (Hrest : fault w1 = fault wu /\ ext w1 = ext wu).
      { destruct (r <? 0); inversion E1; subst; auto. }
      destruct Hrest as [Hf1 Hx1].
      exists w1, ([EvUtime tmp (ioloop_time w) (received_date ctx) eu] ++ tr). split.
      + unfold mbind at 1. erewrite mbind_Ret by exact E. exact E1.
      + rewrite Ht1, Htu, app_assoc, Hfs1. split; [reflexivity|].
        split; [exact Hdu|]. split; congruence.
    - exists w, []. rewrite app_nil_r. repeat split; reflexivity. }
  destruct Hblock as (w1 & tr1 & Eblock & Ht1 & Hd1 & Hf1 & Hx1).
  erewrite mbind_Ret by exact Eblock. rewrite Hout. cbv beta iota zeta.
  destruct (sys_fsync_fs (fd (set_output None ctx)) w1)
    as (r2 & w2 & e2 & E2 & Hf2 & Hx2 & _ & Hfs2 & Ht2 & _).
  erewrite mbind_Ret by exact E2.
  destruct (flag_step_fs r2 "fsync() failed" (set_output None ctx) w2)
    as (w3 & tr3 & E3 & Ht3 & Hfs3 & Hf3 & Hx3 & _).
  replace (if r2 <? 0 then set_failed true (set_output None ctx) else set_output None ctx)
    with (set_output None ctx) in E3
    by (destruct (r2 <? 0); [symmetry; apply set_failed_id; exact Hfailed|reflexivity]).
  erewrite mbind_Ret by exact E3.
  destruct (sys_close_fs (fd (set_output None ctx)) w3)
    as (r4 & w4 & e4 & E4 & Hf4 & Hx4 & Hfs4 & Ht4 & _).
  erewrite mbind_Ret by exact E4.
  destruct (flag_step_fs r4 "close() failed" (set_output None ctx) w4)
    as (w5 & tr5 & E5 & Ht5 & Hfs5 & Hf5 & Hx5 & _).
  replace (if r4 <? 0 then set_failed true (set_output None ctx) else set_output None ctx)
    with (set_output None ctx) in E5
    by (destruct (r4 <? 0); [symmetry; apply set_failed_id; exact Hfailed|reflexivity]).
  erewrite mbind_Ret by exact E5.
  replace (failed (set_fd (-1) (set_output None ctx))) with true by (symmetry; exact Hfailed).
  cbv beta iota.
  destruct (sys_unlink_fs tmp w5) as (r6 & e6 & w6 & E6 & Hf6 & Hx6 & Ht6 & Hdel & _).
  erewrite mbind_Ret by exact E6.
  assert (Hnf5 : fault w5 (SysUnlink tmp) = 0) by (rewrite Hf5, Hf4, Hf3, Hf2, Hf1; exact Hnf).
  specialize (Hdel Hnf5).
  assert (Htail : exists w' tr7,
    mbind get_errno (fun e =>
      mbind (if (r6 <? 0) && negb (e =? ENOENT)
             then mail_storage_set_critical "unlink() failed" else mret tt) (fun _ =>
      mbind (put_errno (stream_errno out)) (fun _ =>
      mbind (if ENOSPACE (stream_errno out)
             then mail_storage_set_error "Not enough disk space"
             else if negb (stream_errno out =? 0)
                  then mail_storage_set_critical "write() failed"
                  else mret tt) (fun _ =>
      mret (-1, set_files rest (set_fd (-1) (set_output None ctx))))))) w6
    = Ret ((-1, set_files rest (set_fd (-1) (set_output None ctx))), w') /\
    trace w' = trace w6 ++ tr7 /\ fs w' = fs w6 /\ ext w' = ext w6 /\
    errno w' = stream_errno out /\
    (stream_errno out <> 0 -> exists pre, tr7 = pre ++ [write_error (stream_errno out)])).
  { unfold mbind, get_errno, put_errno, mail_storage_set_critical,
      mail_storage_set_error, mret, write_error.
    destruct ((r6 <? 0) && negb (errno w6 =? ENOENT));
      destruct (ENOSPACE (stream_errno out));
      try destruct (Z.eqb_spec (stream_errno out) 0); simpl;
      eexists; eexists; (split; [reflexivity|]); simpl;
      rewrite <- ?app_assoc;
      (split; [reflexivity || (symmetry; apply app_nil_r)|]);
      do 3 (split; [reflexivity|]); intros Hne; try contradiction.
    - exists [EvSetCritical "unlink() failed"]. reflexivity.
    - exists [EvSetCritical "unlink() failed"]. reflexivity.
    - exists []. reflexivity.
    - exists []. reflexivity. }
  destruct Htail as (w' & tr7 & E7 & Ht7 & Hfs7 & Hx7 & Herr7 & Hlast).
  exists w', (tr1 ++ [EvFsync (fd (set_output None ctx)) e2] ++ tr3
              ++ [EvClose (fd (set_output None ctx)) e4] ++ tr5
              ++ [EvUnlink tmp e6] ++ tr7).
  split; [exact E7|]. split.
  { rewrite Ht7, Ht6, Ht5, Ht4, Ht3, Ht2, Ht1. rewrite <- !app_assoc. reflexivity. }
  split.
  { rewrite Hfs7, Hdel, Hfs5, Hfs4, Hfs3, Hfs2. exact Hd1. }
  split; [congruence|]. split; [exact Herr7|].
  intros Hne. destruct (Hlast Hne) as [pre ->].
  rewrite !app_assoc. apply last_snoc.
Qed.


(** X13.  [maildir_save_cancel] gives up the message being saved: with the
    descriptor open it closes the stream and the descriptor, takes the
    message off the chain and removes its temp file, touching nothing else
    of the file system and nothing of the collaborators; on a context
    without an open descriptor it only sets [failed]. *)
Theorem cancel_drops_current_message (ctx : maildir_save_context) (w : world X)
    (mf : maildir_filename) (rest : list maildir_filename) (out : ostream) :
  fd ctx <> -1 -> files ctx = mf :: rest -> output ctx = Some out ->
  fault w (SysUnlink (tmp_path ctx mf)) = 0 ->
  (exists w',
     maildir_save_cancel ctx w
       = Ret (set_files rest (set_fd (-1) (set_output None (set_failed true ctx))), w') /\
     fs w' = delete (tmp_path ctx mf) (fs w) /\ ext w' = ext w) /\
  (forall (c : maildir_save_context) (w0 : world X),
     fd c = -1 -> maildir_save_cancel c w0 = Ret (set_failed true c, w0)).
Proof.
  intros Hfd Hfiles Hout Hnf. split.
  - destruct (finish_failed_fs (set_failed true ctx) false w mf rest out)
      as (w' & tr & Hfin & _ & Hfs & Hx & _); try reflexivity; try assumption.
    exists w'. unfold maildir_save_cancel. rewrite (mbind_Ret _ _ _ _ _ Hfin). auto.
  - intros c w0 Hc. unfold maildir_save_cancel, maildir_save_finish, mbind.
    simpl. rewrite Hc. reflexivity.
Qed.

(** X14.  [maildir_save_finish] on a message that was written without
    error: when neither [utime], [fsync] nor [close] fails, the descriptor
    is closed and forgotten, the chain keeps the message, and the temp file
    has the received date as modification time and the time of the I/O
    loop as access time, unless the received date is -1, which leaves the
    times alone.  The result is 0, or, when the caller asks for the mail,
    what [index_mail_next] says. *)
Theorem finish_stamps_received_date (ctx : maildir_save_context) (want : bool)
    (w : world X) (mf : maildir_filename) (rest : list maildir_filename)
    (out : ostream) (f : file) :
  failed ctx = false -> files ctx = mf :: rest -> output ctx = Some out ->
  fs w !! tmp_path ctx mf = Some f ->
  fault w (SysUtime (tmp_path ctx mf)) = 0 ->
  fault w (SysFsync (fd ctx)) = 0 -> fault w (SysClose (fd ctx)) = 0 ->
  (want = true -> seq ctx <> 0) ->
  exists w',
    maildir_save_finish ctx want w
      = Ret ((if want && ((index_mail_next (seq ctx) (ext w)).1 <? 0) then -1 else 0,
              set_fd (-1) (set_output None ctx)), w') /\
    fs w' = (if received_date ctx =? -1 then fs w
             else <[tmp_path ctx mf :=
                      MkFile (f_data f) (ioloop_time w) (received_date ctx)]> (fs w)) /\
    fds w' = delete (fd ctx) (fds w).
Proof.
  intros Hfailed Hfiles Hout Hf Hutime Hfsync Hclose Hseq.
  unfold maildir_save_finish. rewrite Hfailed, Hfiles.
  cbv beta iota delta [andb].
  change (tmpdir ctx +:+ "/" +:+ basename mf) with (tmp_path ctx mf).
  set (tmp := tmp_path ctx mf) in *.
  assert (Hblock : exists w1,
    (if negb (received_date ctx =? -1)
     then mbind (fun w0 => Ret (ioloop_time w0, w0))
            (fun now => mbind (sys_utime tmp now (received_date ctx))
               (fun r => if r <? 0
                         then mbind (mail_storage_set_critical "utime() failed")
                                (fun _ => mret (set_failed true ctx))
                         else mret ctx))
     else mret ctx) w = Ret (ctx, w1) /\
    fs w1 = (if received_date ctx =? -1 then fs w
             else <[tmp := MkFile (f_data f) (ioloop_time w) (received_date ctx)]> (fs w)) /\
    fault w1 = fault w /\ ext w1 = ext w /\ fds w1 = fds w).
  { destruct (received_date ctx =? -1); simpl.
    - exists w. repeat split; reflexivity.
    - destruct (sys_utime_fs tmp (ioloop_time w) (received_date ctx) w)
        as (r & wu & eu & E & Hfu & Hxu & Hdu & _ & _ & _ & Hok).
      destruct (Hok Hutime f Hf) as [-> Hfsu].
      exists wu. split; [|auto].
      unfold mbind at 1. rewrite (mbind_Ret _ _ _ _ _ E). reflexivity. }
  destruct Hblock as (w1 & Eblock & Hfs1 & Hf1 & Hx1 & Hd1).
  rewrite (mbind_Ret _ _ _ _ _ Eblock). rewrite Hout. cbv beta iota zeta.
  destruct (sys_fsync_fs (fd (set_output None ctx)) w1)
    as (r2 & w2 & e2 & E2 & Hf2 & Hx2 & Hd2 & Hfs2 & _ & Hok2).
  rewrite (Hok2 ltac:(rewrite Hf1; exact Hfsync)) in E2.
  rewrite (mbind_Ret _ _ _ _ _ E2). change (0 <? 0) with false. cbv beta iota.
  unfold mbind at 1. unfold mret at 1.
  destruct (sys_close_fs (fd (set_output None ctx)) w2)
    as (r4 & w4 & e4 & E4 & Hf4 & Hx4 & Hfs4 & _ & Hok4).
  destruct (Hok4 ltac:(rewrite Hf2, Hf1; exact Hclose)) as [-> Hd4].
  rewrite (mbind_Ret _ _ _ _ _ E4). change (0 <? 0) with false. cbv beta iota.
  unfold mbind at 1. unfold mret at 1.
  replace (failed (set_fd (-1) (set_output None ctx))) with false by (symmetry; exact Hfailed).
  assert (Hfs : fs w4 = (if received_date ctx =? -1 then fs w
             else <[tmp := MkFile (f_data f) (ioloop_time w) (received_date ctx)]> (fs w)))
    by congruence.
  assert (Hfds : fds w4 = delete (fd ctx) (fds w)).
  { rewrite Hd4, Hd2, Hd1. reflexivity. }
  destruct want; simpl andb.
  - specialize (Hseq eq_refl). unfold mbind, m_assert. simpl seq.
    destruct (Z.eqb_spec (seq ctx) 0) as [?|_]; [contradiction|]. simpl negb. cbv iota.
    unfold call. replace (ext w4) with (ext w) by congruence.
    destruct (index_mail_next (seq ctx) (ext w)) as [r x]. simpl fst.
    destruct (r <? 0); eexists; (split; [reflexivity|]); simpl; auto.
  - exists w4. split; [reflexivity|]. auto.
Qed.

(** *** Starting a message *)

Lemma after_last_slash_found (a b : string) :
  exists tail, after_last_slash (a +:+ "/" +:+ b) = Some tail.
Proof.
  induction a as [|c a IH]; simpl.
  - destruct (after_last_slash _) as [t|]; eauto.
  - destruct IH as [t ->]. eauto.
Qed.

Lemma create_tmp_run (dir : string) (mode : Z) (w : world X) :
  exists p w1 name, maildir_create_tmp dir mode w = Ret (p, w1) /\
                    p.2 = dir +:+ "/" +:+ name.
Proof.
  unfold maildir_create_tmp. destruct (maildir_unique_name (ext w)) as [name x].
  cbv zeta. destruct (_ =? 0); do 3 eexists; split; reflexivity.
Qed.

(** X15.  [maildir_save_init] always returns, its assertion on the file
    name included, and the context it leaves has [failed] set exactly when
    the temp file could not be created, whatever [failed] was before.  In
    that case nothing else happened: the world is the one
    [maildir_create_tmp] left, so no record was appended to the index, and
    the context is the old one with the descriptor -1 and [failed] set, so
    nothing was staged. *)
Theorem save_init_fails_only_with_the_temp_file (t : maildir_transaction_context)
    (flags received : Z) (inp : string) (w : world X) :
  exists t' w' ctx' p w1,
    maildir_create_tmp (tmpdir (context_of t w)) (mail_create_mode (t_ibox t)) w
      = Ret (p, w1) /\
    maildir_save_init t flags received inp w = Ret (t', w') /\
    save_ctx t' = Some ctx' /\ fd ctx' = p.1 /\
    (failed ctx' = true <-> p.1 = -1) /\
    (p.1 = -1 ->
     w' = w1 /\ ctx' = set_failed true (set_fd (-1) (context_of t w))).
Proof.
  destruct (create_tmp_run (tmpdir (context_of t w)) (mail_create_mode (t_ibox t)) w)
    as (p & w1 & name & Htmp & Hpath).
  unfold maildir_save_init.
  assert (Hctx : (match save_ctx t with
                  | Some c => mret c
                  | None => maildir_transaction_save_init t
                  end) w = Ret (context_of t w, w)).
  { unfold context_of. destruct (save_ctx t); reflexivity. }
  rewrite (mbind_Ret _ _ _ _ _ Hctx), (mbind_Ret _ _ _ _ _ Htmp). cbv zeta.
  change (fd (set_fd p.1 (context_of t w))) with p.1.
  destruct (Z.eqb_spec p.1 (-1)) as [Hfd|Hfd].
  - do 3 eexists. exists p, w1. split; [exact Htmp|]. split; [reflexivity|]. simpl.
    split; [reflexivity|]. split; [reflexivity|]. split; [tauto|].
    intros _. rewrite Hfd. auto.
  - rewrite Hpath. destruct (after_last_slash_found (tmpdir (context_of t w)) name)
      as [fname ->].
    unfold mbind, call, call_, mret.
    destruct (mail_index_append (ext w1)) as [sq x].
    do 3 eexists. exists p, w1. split; [exact Htmp|]. split; [reflexivity|]. simpl.
    split; [reflexivity|]. split; [reflexivity|]. split; [|contradiction].
    split; [discriminate|contradiction].
Qed.

(** *** A name the UID list refuses *)

Lemma file_move_tail (tmp : string) (ret : Z) (w2 : world X) :
  exists w' tr, mbind (sys_unlink tmp) (fun u => mbind get_errno (fun e0 =>
                  mbind (if (u <? 0) && negb (e0 =? ENOENT)
                         then mail_storage_set_critical "unlink() failed" else mret tt)
                    (fun _ => mret ret))) w2 = Ret (ret, w') /\
    fault w' = fault w2 /\ ext w' = ext w2 /\ trace w' = trace w2 ++ tr /\
    (fault w2 (SysUnlink tmp) = 0 -> fs w' = delete tmp (fs w2)).
Proof.
  destruct (sys_unlink_fs tmp w2) as (u & eu & w3 & Hunl & Hf3 & Hx3 & Ht3 & Hdel & _).
  rewrite (mbind_Ret _ _ _ _ _ Hunl). unfold mbind, get_errno.
  destruct ((u <? 0) && negb (errno w3 =? ENOENT)); simpl.
  - do 2 eexists. split; [reflexivity|]. simpl. rewrite Ht3, <- app_assoc.
    repeat split; auto.
  - do 2 eexists. split; [reflexivity|]. rewrite Ht3. repeat split; auto.
Qed.

Lemma file_move_succeeds (ctx : maildir_save_context) (mf : maildir_filename)
    (w : world X) (f : file) :
  fs w !! tmp_path ctx mf = Some f -> fs w !! dest_path ctx mf = None ->
  fault w (SysLink (tmp_path ctx mf) (dest_path ctx mf)) = 0 ->
  fault w (SysUnlink (tmp_path ctx mf)) = 0 ->
  exists w', maildir_file_move ctx (basename mf) (dest mf) w = Ret (0, w') /\
    fs w' = delete (tmp_path ctx mf) (<[dest_path ctx mf := f]> (fs w)) /\
    fault w' = fault w /\ ext w' = ext w.
Proof.
  intros Ha Hb Hlink Hunlink. unfold maildir_file_move.
  change (tmpdir ctx +:+ "/" +:+ basename mf) with (tmp_path ctx mf).
  change (match dest mf with
          | Some d => curdir ctx +:+ "/" +:+ d
          | None => newdir ctx +:+ "/" +:+ basename mf
          end) with (dest_path ctx mf).
  set (w1 := log (EvLink (tmp_path ctx mf) (dest_path ctx mf) 0)
               (set_fs (<[dest_path ctx mf := f]> (fs w)) w)).
  assert (Hrun : sys_link (tmp_path ctx mf) (dest_path ctx mf) w = Ret (0, w1)).
  { unfold sys_link. rewrite Hlink, Ha, Hb. reflexivity. }
  rewrite (mbind_Ret _ _ _ _ _ Hrun). change (0 =? 0) with true. cbv beta iota.
  unfold mbind at 1, mret at 1.
  destruct (file_move_tail (tmp_path ctx mf) 0 w1) as (w' & tr & Hrun' & Hf' & Hx' & _ & Hdel).
  exists w'. split; [exact Hrun'|]. split; [apply Hdel; exact Hunlink|]. auto.
Qed.

Lemma call_run {A : Type} (f : X -> A * X) (w : world X) :
  call f w = Ret ((f (ext w)).1, set_ext (f (ext w)).2 w).
Proof. unfold call. destruct (f (ext w)); reflexivity. Qed.

(** X16.  What the abort does not undo: when the head of the chain has
    been moved to its destination and the UID-list sync session then
    refuses its name, the commit gives up and returns -1, but the abort
    unlinks only the destinations in front of that entry, so the file
    stays published at its destination, and it is no longer in tmp/. *)
Theorem refused_name_stays_published (ctx : maildir_save_context) (w : world X)
    (mf : maildir_filename) (rest : list maildir_filename) (f : file) :
  output ctx = None -> files ctx = mf :: rest ->
  0 < (maildir_uidlist_lock (ext w)).1 ->
  0 <= (maildir_sync_index (maildir_uidlist_lock (ext w)).2).1 ->
  (forall flags x, (maildir_uidlist_sync_next (uidlist_name mf) flags x).1 < 0) ->
  fs w !! tmp_path ctx mf = Some f -> fs w !! dest_path ctx mf = None ->
  fault w (SysLink (tmp_path ctx mf) (dest_path ctx mf)) = 0 ->
  no_unlink_fault w ->
  (dest_path ctx mf ∉ staged_tmp_paths ctx) ->
  exists w', maildir_transaction_save_commit ctx w = Ret (-1, w') /\
             fs w' !! dest_path ctx mf = Some f /\
             fs w' !! tmp_path ctx mf = None.
Proof.
  intros Hout Hfiles Hlock Hsync Hrefuse Ha Hb Hlink Hnf Hapart.
  unfold maildir_transaction_save_commit. rewrite Hout.
  unfold mbind at 1. unfold m_assert at 1.
  rewrite (mbind_Ret _ _ _ _ _ (call_run _ _)).
  destruct (Z.leb_spec (maildir_uidlist_lock (ext w)).1 0) as [?|_]; [lia|].
  rewrite (mbind_Ret _ _ _ _ _ (call_run _ _)).
  destruct (Z.ltb_spec (maildir_sync_index (ext (set_ext (maildir_uidlist_lock (ext w)).2
                                                   w))).1 0) as [?|_]; [simpl in *; lia|].
  unfold mbind at 1. unfold ask at 1.
  rewrite (mbind_Ret _ _ _ _ _ (call_run _ _)).
  unfold mbind at 1. unfold call_ at 1.
  match goal with |- context [mbind (commit_loop ctx ?fl (files ctx) 0) _ ?w0'] =>
    set (flags := fl); set (w0 := w0') end.
  assert (Hfs0 : fs w0 = fs w) by reflexivity.
  assert (Hf0 : fault w0 = fault w) by reflexivity.
  destruct (file_move_succeeds ctx mf w0 f) as (w1 & Hmove & Hfs1 & Hf1 & Hx1);
    [rewrite Hfs0; exact Ha|rewrite Hfs0; exact Hb|rewrite Hf0; exact Hlink
    |rewrite Hf0; apply Hnf|].
  assert (Hloop : exists w2, commit_loop ctx flags (files ctx) 0 w0 = Ret (Some 0%nat, w2) /\
                             fs w2 = fs w1 /\ fault w2 = fault w1).
  { rewrite Hfiles. simpl. rewrite (mbind_Ret _ _ _ _ _ Hmove).
    change (0 <? 0) with false. cbv beta iota.
    unfold uidlist_sync_next.
    unfold mbind at 1. unfold mbind at 1. rewrite call_run. unfold mbind at 1.
    unfold mret at 1.
    destruct (Z.ltb_spec (maildir_uidlist_sync_next
                            match dest mf with Some d => d | None => basename mf end
                            flags (ext w1)).1 0) as [_|Hge].
    - rewrite (mbind_Ret _ _ _ _ _ (call_run _ _)). eexists. split; [reflexivity|].
      split; reflexivity.
    - specialize (Hrefuse flags (ext w1)). unfold uidlist_name in Hrefuse. lia. }
  destruct Hloop as (w2 & Hloop & Hfs2 & Hf2).
  rewrite (mbind_Ret _ _ _ _ _ Hloop).
  assert (Hnf2 : no_unlink_fault w2).
  { intros p. rewrite Hf2, Hf1, Hf0. apply Hnf. }
  assert (Habort : exists w3, maildir_save_commit_abort ctx 0 w2 = Ret (tt, w3)).
  { unfold maildir_save_commit_abort.
    rewrite take_0. unfold mbind at 1. simpl unlink_all. unfold mret at 1.
    unfold maildir_transaction_save_rollback. simpl output. rewrite Hout.
    unfold mbind at 1. unfold m_assert at 1.
    match goal with |- exists w3, unlink_all ?l w2 = _ =>
      destruct (unlink_all_fs l w2) as (w3 & -> & _) end; [intros p _; apply Hnf2|].
    eauto. }
  destruct Habort as [w3 Habort].
  rewrite (mbind_Ret _ _ _ _ _ Habort). exists w3. split; [reflexivity|].
  rewrite !(commit_abort_fs _ _ _ _ Habort Hnf2). rewrite take_0, drop_0.
  change ((dest_path ctx <$> []) ++ (tmp_path ctx <$> files ctx))
    with (staged_tmp_paths ctx).
  rewrite decide_False by exact Hapart.
  rewrite decide_True by (unfold staged_tmp_paths; rewrite Hfiles; left).
  split; [|reflexivity].
  rewrite Hfs2, Hfs1, Hfs0.
  destruct (decide (dest_path ctx mf = tmp_path ctx mf)) as [E|Hne].
  { exfalso. apply Hapart. unfold staged_tmp_paths. rewrite Hfiles, E. left. }
  rewrite lookup_delete_ne by congruence. apply lookup_insert_eq.
Qed.

End GenericExt.

(** *** Runs on the reference mailbox *)

(** One message is saved; its temp file is then moved to new/. *)
Lemma file_move_renames_or_reports_witness :
  exists t1 ctx w1,
    save_message (inbox true) 0 777 hello (start_world [] no_fault) = Ret ((0, t1), w1) /\
    save_ctx t1 = Some ctx /\
    exists r w' tr, maildir_file_move ctx "msg0" None w1 = Ret (r, w') /\
      trace w' = trace w1 ++ tr /\
      fs w' !! "/inbox/tmp/msg0" = None /\
      (forall q, q <> "/inbox/tmp/msg0" -> q <> "/inbox/new/msg0" ->
                 fs w' !! q = fs w1 !! q) /\
      ((r = 0 /\ fs w1 !! "/inbox/new/msg0" = None /\
        is_Some (fs w1 !! "/inbox/tmp/msg0") /\
        fs w' !! "/inbox/new/msg0" = fs w1 !! "/inbox/tmp/msg0") \/
       (r = -1 /\ fs w' !! "/inbox/new/msg0" = fs w1 !! "/inbox/new/msg0" /\
        exists e, e <> 0 /\ EvLink "/inbox/tmp/msg0" "/inbox/new/msg0" e ∈ tr /\
          (if ENOSPACE e then EvSetError "Not enough disk space"
           else EvSetCritical "link() failed") ∈ tr)).
Proof.
  do 3 eexists.
  apply and_intro_dep; [vm_compute; reflexivity | intros _].
  apply and_intro_dep; [reflexivity | intros _].
  match goal with |- context [maildir_file_move ?c _ _ ?w0] =>
    exact (file_move_renames_or_reports c "msg0" None w0 eq_refl
             ltac:(vm_compute; discriminate))
  end.
Defined.

(** Two messages are saved and committed. *)
Lemma commit_publishes_staged_files_witness :
  exists t1 t2 ctx w1 w2 w3 r,
    save_message (inbox true) 0 777 "a" (start_world [] no_fault) = Ret ((0, t1), w1) /\
    save_message t1 0 778 "b" w1 = Ret ((0, t2), w2) /\
    save_ctx t2 = Some ctx /\
    maildir_transaction_save_commit ctx w2 = Ret (r, w3) /\
    (forall mf, mf ∈ files ctx ->
       fs w3 !! tmp_path ctx mf = None /\ fs w2 !! dest_path ctx mf = None /\
       is_Some (fs w2 !! tmp_path ctx mf) /\
       fs w3 !! dest_path ctx mf = fs w2 !! tmp_path ctx mf) /\
    (forall q, (q ∉ tmp_path ctx <$> files ctx) -> (q ∉ dest_path ctx <$> files ctx) ->
       fs w3 !! q = fs w2 !! q).
Proof.
  do 7 eexists.
  apply and_intro_dep; [vm_compute; reflexivity | intros _].
  apply and_intro_dep; [vm_compute; reflexivity | intros _].
  apply and_intro_dep; [reflexivity | intros _].
  apply and_intro_dep; [vm_compute; reflexivity | intros Hrun].
  apply (commit_publishes_staged_files _ _ _ _ Hrun); [lia|intros p; reflexivity|].
  unfold staged_paths_apart. apply (bool_decide_unpack _). vm_compute. exact I.
Defined.

(** Two messages are saved; in the commit the second [link] fails on a
    full disk, after the first file has been published. *)
Lemma failed_commit_is_undone_witness :
  exists t1 t2 ctx w1 w2 w3 r,
    save_message (inbox true) 0 777 "a" (start_world [] second_link_fails)
      = Ret ((0, t1), w1) /\
    save_message t1 0 778 "b" w1 = Ret ((0, t2), w2) /\
    save_ctx t2 = Some ctx /\
    maildir_transaction_save_commit ctx w2 = Ret (r, w3) /\ r < 0 /\
    links_of (trace w3) = [("/inbox/tmp/msg1", "/inbox/new/msg1", 0);
                           ("/inbox/tmp/msg0", "/inbox/new/msg0", ENOSPC)] /\
    forall q, fs w3 !! q =
      if decide (q ∈ staged_tmp_paths ctx) then None else fs w2 !! q.
Proof.
  do 7 eexists.
  apply and_intro_dep; [vm_compute; reflexivity | intros _].
  apply and_intro_dep; [vm_compute; reflexivity | intros _].
  apply and_intro_dep; [reflexivity | intros _].
  apply and_intro_dep; [vm_compute; reflexivity | intros Hrun].
  apply and_intro_dep; [reflexivity | intros Hr].
  split; [vm_compute; reflexivity|].
  apply (failed_commit_is_undone _ _ _ _ Hrun Hr).
  - intros p. reflexivity.
  - unfold staged_paths_apart. apply (bool_decide_unpack _). vm_compute. exact I.
  - intros fname flags x. simpl. lia.
Defined.

(** Two messages are saved and the transaction is rolled back. *)
Lemma rollback_removes_staged_files_witness :
  exists t1 t2 ctx w1 w2,
    save_message (inbox true) 0 777 "a" (start_world [] no_fault) = Ret ((0, t1), w1) /\
    save_message t1 0 778 "b" w1 = Ret ((0, t2), w2) /\
    save_ctx t2 = Some ctx /\
    staged_tmp_paths ctx = ["/inbox/tmp/msg1"; "/inbox/tmp/msg0"] /\
    (exists w' tr,
       maildir_transaction_save_rollback ctx w2 = Ret (tt, w') /\
       (forall q, fs w' !! q =
          if decide (q ∈ staged_tmp_paths ctx) then None else fs w2 !! q) /\
       ext w' = ext w2 /\
       trace w' = trace w2 ++ tr /\ links_of tr = [] /\ synced_of tr = []) /\
    (forall out, maildir_transaction_save_rollback (set_output (Some out) ctx) w2
                 = AssertFail).
Proof.
  do 5 eexists.
  apply and_intro_dep; [vm_compute; reflexivity | intros _].
  apply and_intro_dep; [vm_compute; reflexivity | intros _].
  apply and_intro_dep; [reflexivity | intros _].
  split; [reflexivity|].
  apply (rollback_removes_staged_files _ _); [reflexivity|intros p; reflexivity].
Defined.

(** One message is saved in a mailbox whose UID list cannot be locked. *)
Lemma commit_without_lock_is_rollback_witness :
  exists t1 ctx w1,
    save_message (inbox true) 0 777 hello busy_world = Ret ((0, t1), w1) /\
    save_ctx t1 = Some ctx /\
    maildir_transaction_save_commit ctx w1
    = mbind (maildir_transaction_save_rollback ctx) (fun _ => mret (-1))
        (set_ext (ext w1) w1).
Proof.
  do 3 eexists.
  apply and_intro_dep; [vm_compute; reflexivity | intros _].
  apply and_intro_dep; [reflexivity | intros _].
  match goal with |- maildir_transaction_save_commit ?c ?w0 = _ =>
    exact (commit_without_lock_is_rollback c w0 0 0 (ext w0) (ext w0) eq_refl eq_refl
             ltac:(lia))
  end.
Defined.


(** A message is started and then cancelled. *)
Lemma cancel_drops_current_message_witness :
  exists t1 ctx w1,
    maildir_save_init (inbox true) 0 777 hello (start_world [] no_fault) = Ret (t1, w1) /\
    save_ctx t1 = Some ctx /\
    (exists w',
       maildir_save_cancel ctx w1
         = Ret (set_files [] (set_fd (-1) (set_output None (set_failed true ctx))), w') /\
       fs w' = delete "/inbox/tmp/msg0" (fs w1) /\ ext w' = ext w1) /\
    (forall (c : maildir_save_context) (w0 : world mailbox_state),
       fd c = -1 -> maildir_save_cancel c w0 = Ret (set_failed true c, w0)).
Proof.
  do 3 eexists.
  apply and_intro_dep; [vm_compute; reflexivity | intros _].
  apply and_intro_dep; [reflexivity | intros _].
  match goal with |- context [maildir_save_cancel ?c ?w0] =>
    exact (cancel_drops_current_message c w0 (MkFilename "msg0" None) []
             (MkOstream 3 false 0) ltac:(discriminate) eq_refl eq_refl eq_refl)
  end.
Defined.

(** A message is written and finished; the caller asks for the mail. *)
Lemma finish_stamps_received_date_witness :
  exists t1 ctx1 ctx2 w1 w2,
    maildir_save_init (inbox true) 0 777 hello (start_world [] no_fault) = Ret (t1, w1) /\
    save_ctx t1 = Some ctx1 /\
    maildir_save_continue ctx1 w1 = Ret ((0, ctx2), w2) /\
    exists w3,
    maildir_save_finish ctx2 true w2
      = Ret ((0, set_fd (-1) (set_output None ctx2)), w3) /\
    fs w3 = <[ "/inbox/tmp/msg0" := MkFile hello 1000 777 ]> (fs w2) /\
    fds w3 = delete 3 (fds w2).
Proof.
  do 5 eexists.
  apply and_intro_dep; [vm_compute; reflexivity | intros _].
  apply and_intro_dep; [reflexivity | intros _].
  apply and_intro_dep; [vm_compute; reflexivity | intros _].
  match goal with |- context [maildir_save_finish ?c true ?w0] =>
    destruct (finish_stamps_received_date c true w0 (MkFilename "msg0" None) []
                (MkOstream 3 false 0) (MkFile hello 0 0) eq_refl eq_refl eq_refl eq_refl
                eq_refl eq_refl eq_refl ltac:(discriminate)) as (w3 & Hrun & Hfs & Hfds)
  end.
  exists w3. split; [exact Hrun|]. split; [exact Hfs|exact Hfds].
Defined.

(** One message is saved; the UID list then refuses its name. *)
Lemma refused_name_stays_published_witness :
  exists t1 ctx w1,
    save_message (inbox true) 0 777 hello (start_world [] no_fault) = Ret ((0, t1), w1) /\
    save_ctx t1 = Some ctx /\
    exists w', @maildir_transaction_save_commit mailbox_state refusing_mailbox ctx w1
               = Ret (-1, w') /\
               fs w' !! "/inbox/new/msg0" = Some (MkFile hello 1000 777) /\
               fs w' !! "/inbox/tmp/msg0" = None.
Proof.
  do 3 eexists.
  apply and_intro_dep; [vm_compute; reflexivity | intros _].
  apply and_intro_dep; [reflexivity | intros _].
  match goal with |- context [maildir_transaction_save_commit ?c ?w0] =>
    apply (@refused_name_stays_published mailbox_state refusing_mailbox c w0
             (MkFilename "msg0" None) [] (MkFile hello 1000 777) eq_refl eq_refl)
  end; try reflexivity.
  - intros p. reflexivity.
  - intros Hin. apply list_elem_of_singleton in Hin. discriminate.
Defined.

End MaildirSaveExtFacts.

(** ** More properties of the auth multiplexer *)

Module AuthConnectionExtFacts.
Import AuthConnection AuthConnectionExt AuthConnectionFacts.

Local Open Scope string_scope.
Local Open Scope list_scope.
Local Open Scope Z_scope.

(** *** Tearing a connection down *)

Lemma destroy_closed (a : addr) (s : state) (c : auth_connection) :
  conns (auth_connection_destroy a s) !! a = Some c -> fd c = -1.
Proof.
  unfold auth_connection_destroy.
  destruct (conns s !! a) as [c0|] eqn:Hc; [|rewrite Hc; discriminate].
  destruct (Z.eqb_spec (fd c0) (-1)) as [Hfd|Hfd].
  - rewrite Hc. intros E. inversion E; subst. exact Hfd.
  - cbv zeta. unfold auth_connection_unref.
    destruct (handshake_received c0); simpl negb; cbv iota; simpl conns;
      rewrite lookup_insert_eq; simpl refcount;
      (destruct (refcount c0 - 1 >? 0); simpl conns;
       [rewrite lookup_insert_eq; intros E; inversion E; reflexivity
       |rewrite lookup_delete_eq; discriminate]).
Qed.

Lemma destroy_noop (a : addr) (s : state) :
  (forall c, conns s !! a = Some c -> fd c = -1) -> auth_connection_destroy a s = s.
Proof.
  intros Hclosed. unfold auth_connection_destroy.
  destruct (conns s !! a) as [c|]; [|reflexivity].
  rewrite (Hclosed c eq_refl). reflexivity.
Qed.


(** What [auth_connection_destroy] does to an open connection, field by
    field. *)
Lemma destroy_open (a : addr) (s : state) (c : auth_connection) :
  conns s !! a = Some c -> fd c <> -1 ->
  auth_connections (auth_connection_destroy a s) = unlink_conn a (auth_connections s) /\
  auth_waiting_handshake_count (auth_connection_destroy a s)
  = (if handshake_received c then auth_waiting_handshake_count s
     else u32 (auth_waiting_handshake_count s - 1)) /\
  log (auth_connection_destroy a s) = log s ++ null_callbacks c /\
  conns (auth_connection_destroy a s)
  = (if refcount c - 1 >? 0
     then <[a := set_refcount (refcount c - 1) (set_fd (-1) c)]> (conns s)
     else delete a (conns s)) /\
  reqs (auth_connection_destroy a s)
  = (if refcount c - 1 >? 0 then reqs s
     else foldr (fun kv m => delete kv.2 m) (reqs s) (map_to_list (requests c))) /\
  available_auth_mechs (auth_connection_destroy a s) = available_auth_mechs s /\
  auth_reconnect (auth_connection_destroy a s) = auth_reconnect s /\
  request_id_counter (auth_connection_destroy a s) = request_id_counter s /\
  next_addr (auth_connection_destroy a s) = next_addr s /\
  socket_dir (auth_connection_destroy a s) = socket_dir s.
Proof.
  intros Hc Hfd. unfold auth_connection_destroy. rewrite Hc.
  destruct (Z.eqb_spec (fd c) (-1)) as [?|_]; [contradiction|].
  cbv zeta. unfold auth_connection_unref, null_callbacks.
  destruct (handshake_received c); simpl negb; cbv iota; simpl conns;
    rewrite lookup_insert_eq; simpl refcount;
    destruct (refcount c - 1 >? 0); simpl;
    rewrite ?insert_insert_eq, ?delete_insert_eq; repeat split; reflexivity.
Qed.

Lemma foldr_delete_gone (l : list (Z * addr)) (m : gmap addr auth_request)
    (id : Z) (r : addr) :
  (id, r) ∈ l -> foldr (fun kv m => delete kv.2 m) m l !! r = None.
Proof.
  induction l as [|kv l IH]; intros Hin; simpl.
  - apply elem_of_nil in Hin. contradiction.
  - apply elem_of_cons in Hin as [<-|Hin]; [apply lookup_delete_eq|].
    destruct (decide (kv.2 = r)) as [<-|Hne]; [apply lookup_delete_eq|].
    rewrite lookup_delete_ne by exact Hne. apply IH. exact Hin.
Qed.

(** *** Replies, aborts and references *)

(** X18.  A reply for a pending request reaches its callback exactly
    once.  With the result CONTINUE the request stays as it is.  With any
    other result the request is taken out of its connection's table and
    freed, so a further reply with the same id finds no request and is only
    logged as a bug. *)
Theorem terminal_reply_retires_request (a : addr) (reply : auth_login_reply) (s : state)
    (c : auth_connection) (r : addr) (req : auth_request) :
  conns s !! a = Some c -> requests c !! reply_id reply = Some r ->
  reqs s !! r = Some req -> r_id req = reply_id reply ->
  log (auth_handle_reply a reply s) = log s ++ [EvCallback r (Some reply)] /\
  (reply_result reply = AUTH_LOGIN_RESULT_CONTINUE ->
   auth_handle_reply a reply s = add_log [EvCallback r (Some reply)] s) /\
  (reply_result reply <> AUTH_LOGIN_RESULT_CONTINUE ->
   reqs (auth_handle_reply a reply s) = delete r (reqs s) /\
   (requests <$> conns (auth_handle_reply a reply s) !! a)
   = Some (delete (reply_id reply) (requests c)) /\
   forall reply', reply_id reply' = reply_id reply ->
     auth_handle_reply a reply' (auth_handle_reply a reply s)
     = add_log [EvLog "BUG: Auth process sent us reply with unknown ID"]
         (auth_handle_reply a reply s)).
Proof.
  intros Hc Hr Hreq Hid.
  assert (E : auth_handle_reply a reply s
              = if is_continue (reply_result reply)
                then add_log [EvCallback r (Some reply)] s
                else set_reqs (delete r (reqs s))
                       (set_conns (<[a := set_requests (delete (reply_id reply) (requests c))
                                             c]> (conns s))
                          (add_log [EvCallback r (Some reply)] s))).
  { unfold auth_handle_reply. rewrite Hc, Hr. simpl reqs. rewrite Hreq, Hid.
    destruct (is_continue (reply_result reply)); reflexivity. }
  rewrite E. clear E.
  assert (Hagain : forall reply', reply_id reply' = reply_id reply ->
            auth_handle_reply a reply'
              (set_reqs (delete r (reqs s))
                 (set_conns (<[a := set_requests (delete (reply_id reply) (requests c)) c]>
                               (conns s))
                    (add_log [EvCallback r (Some reply)] s)))
            = add_log [EvLog "BUG: Auth process sent us reply with unknown ID"]
                (set_reqs (delete r (reqs s))
                   (set_conns (<[a := set_requests (delete (reply_id reply) (requests c)) c]>
                                 (conns s))
                      (add_log [EvCallback r (Some reply)] s)))).
  { intros reply' Hid'. unfold auth_handle_reply at 1. simpl conns.
    rewrite lookup_insert_eq. simpl requests. rewrite Hid', lookup_delete_eq.
    reflexivity. }
  destruct (reply_result reply); simpl.
  - split; [reflexivity|]. split; [reflexivity|]. intros Habs. contradiction.
  - split; [reflexivity|]. split; [discriminate|]. intros _.
    split; [reflexivity|]. rewrite lookup_insert_eq. split; [reflexivity|exact Hagain].
  - split; [reflexivity|]. split; [discriminate|]. intros _.
    split; [reflexivity|]. rewrite lookup_insert_eq. split; [reflexivity|exact Hagain].
Qed.

(** X19.  [auth_abort_request] retires a request silently: no callback is
    made and nothing is logged, the request is taken out of its
    connection's table and freed, and a reply that still arrives for its id
    is only logged as a bug. *)
Theorem aborted_request_gets_no_callback (r : addr) (s : state) (req : auth_request)
    (c : auth_connection) :
  reqs s !! r = Some req -> conns s !! r_conn req = Some c ->
  requests c !! r_id req = Some r ->
  log (auth_abort_request r s) = log s /\
  reqs (auth_abort_request r s) = delete r (reqs s) /\
  (requests <$> conns (auth_abort_request r s) !! r_conn req)
  = Some (delete (r_id req) (requests c)) /\
  forall reply, reply_id reply = r_id req ->
    auth_handle_reply (r_conn req) reply (auth_abort_request r s)
    = add_log [EvLog "BUG: Auth process sent us reply with unknown ID"]
        (auth_abort_request r s).
Proof.
  intros Hreq Hc Hr. unfold auth_abort_request. rewrite Hreq, Hc, Hr. simpl.
  split; [reflexivity|]. split; [reflexivity|].
  rewrite lookup_insert_eq. split; [reflexivity|].
  intros reply Hid. unfold auth_handle_reply. simpl conns.
  rewrite lookup_insert_eq. simpl requests. rewrite Hid, lookup_delete_eq.
  reflexivity.
Qed.

(** X20.  A reference taken with [auth_request_ref] keeps the connection
    and its requests in memory across [auth_connection_destroy]: the
    destroy closes the descriptor and makes the NULL callbacks, but frees
    nothing.  When that reference was the only one besides the registry's,
    the [auth_request_unref] that follows frees the connection and every
    request still in its table. *)
Theorem referenced_connection_outlives_destroy (r : addr) (s : state)
    (req : auth_request) (c : auth_connection) :
  reqs s !! r = Some req -> conns s !! r_conn req = Some c ->
  fd c <> -1 -> 0 < refcount c ->
  conns (auth_connection_destroy (r_conn req) (auth_request_ref r s)) !! r_conn req
  = Some (set_refcount (refcount c) (set_fd (-1) c)) /\
  reqs (auth_connection_destroy (r_conn req) (auth_request_ref r s)) = reqs s /\
  log (auth_connection_destroy (r_conn req) (auth_request_ref r s))
  = log s ++ null_callbacks c /\
  (refcount c = 1 ->
   conns (auth_request_unref r
            (auth_connection_destroy (r_conn req) (auth_request_ref r s))) !! r_conn req
   = None /\
   forall id r', requests c !! id = Some r' ->
     reqs (auth_request_unref r
             (auth_connection_destroy (r_conn req) (auth_request_ref r s))) !! r' = None).
Proof.
  intros Hreq Hc Hfd Hrc.
  set (a := r_conn req) in *.
  assert (Href : auth_request_ref r s
                 = set_conns (<[a := set_refcount (refcount c + 1) c]> (conns s)) s).
  { unfold auth_request_ref. rewrite Hreq. fold a. rewrite Hc. reflexivity. }
  rewrite Href.
  set (c1 := set_refcount (refcount c + 1) c).
  destruct (destroy_open a (set_conns (<[a := c1]> (conns s)) s) c1)
    as (_ & _ & Hlog & Hconns & Hreqs & _);
    [apply lookup_insert_eq|exact Hfd|].
  set (s1 := auth_connection_destroy a (set_conns (<[a := c1]> (conns s)) s)) in *.
  simpl in Hconns, Hreqs, Hlog.
  replace (refcount c + 1 - 1) with (refcount c) in * by lia.
  destruct (Z.gtb_spec (refcount c) 0) as [_|?]; [|lia].
  rewrite insert_insert_eq in Hconns.
  split; [rewrite Hconns; apply lookup_insert_eq|].
  split; [exact Hreqs|]. split; [exact Hlog|].
  intros Hone. unfold auth_request_unref. rewrite Hreqs, Hreq. fold a.
  unfold auth_connection_unref. rewrite Hconns, lookup_insert_eq. simpl refcount.
  rewrite Hone. simpl. rewrite lookup_delete_eq. split; [reflexivity|].
  intros id r' Hr'. rewrite Hreqs. apply (foldr_delete_gone _ _ id).
  apply elem_of_map_to_list. exact Hr'.
Qed.


(** *** The process-wide mechanism set *)

Lemma fold_mechs_bit (heap : gmap addr auth_connection) (l : list addr) (b : Z) :
  forall acc : Z,
    Z.testbit (fold_left (fun acc a => match heap !! a with
                                       | Some c => Z.lor acc (conn_available_auth_mechs c)
                                       | None => acc
                                       end) l acc) b = true <->
    Z.testbit acc b = true \/
    exists a c, a ∈ l /\ heap !! a = Some c /\
                Z.testbit (conn_available_auth_mechs c) b = true.
Proof.
  induction l as [|a rest IH]; intros acc; simpl.
  - split; [auto|]. intros [?|(a & c & Hin & _)]; [assumption|].
    apply elem_of_nil in Hin. contradiction.
  - rewrite IH. destruct (heap !! a) as [c|] eqn:Ha.
    + rewrite Z.lor_spec, orb_true_iff. split.
      * intros [[?|Hc]|(a' & c' & Hin & Ha' & Hb)]; [auto| |].
        -- right. exists a, c. split; [left|auto].
        -- right. exists a', c'. split; [right; exact Hin|auto].
      * intros [?|(a' & c' & Hin & Ha' & Hb)]; [auto|].
        apply elem_of_cons in Hin as [->|Hin].
        -- rewrite Ha in Ha'. inversion Ha'; subst. auto.
        -- right. exists a', c'. auto.
    + split.
      * intros [?|(a' & c' & Hin & Ha' & Hb)]; [auto|].
        right. exists a', c'. split; [right; exact Hin|auto].
      * intros [?|(a' & c' & Hin & Ha' & Hb)]; [auto|].
        apply elem_of_cons in Hin as [->|Hin]; [congruence|].
        right. exists a', c'. auto.
Qed.

(** X22.  After a handshake with a pid other than 0 the process-wide
    mechanism set is the union of what the listed connections advertise: a
    bit is set exactly when some connection of the registry advertises it,
    the mechanisms of the handshake among them.  Nothing but a handshake
    computes the set: [auth_connection_destroy] leaves it as it is. *)
Theorem handshake_publishes_mechanisms (a : addr) (h : auth_login_handshake_output)
    (s : state) (c : auth_connection) :
  hs_pid h <> 0 -> conns s !! a = Some c -> a ∈ auth_connections s ->
  conns (auth_handle_handshake a h s) !! a
  = Some (set_handshake (hs_pid h) (hs_auth_mechanisms h) c) /\
  (forall b, Z.testbit (available_auth_mechs (auth_handle_handshake a h s)) b = true <->
     exists a' c', a' ∈ auth_connections (auth_handle_handshake a h s) /\
                   conns (auth_handle_handshake a h s) !! a' = Some c' /\
                   Z.testbit (conn_available_auth_mechs c') b = true) /\
  (forall b, Z.testbit (hs_auth_mechanisms h) b = true ->
             Z.testbit (available_auth_mechs (auth_handle_handshake a h s)) b = true) /\
  (forall a' s', available_auth_mechs (auth_connection_destroy a' s')
                 = available_auth_mechs s').
Proof.
  intros Hpid Hc Hin. unfold auth_handle_handshake.
  destruct (Z.eqb_spec (hs_pid h) 0) as [?|_]; [contradiction|].
  rewrite Hc. cbv zeta. unfold update_available_auth_mechs. simpl.
  assert (Hbits : forall b,
    Z.testbit (fold_left (fun acc a0 =>
                 match <[a := set_handshake (hs_pid h) (hs_auth_mechanisms h) c]> (conns s)
                       !! a0 with
                 | Some c0 => Z.lor acc (conn_available_auth_mechs c0)
                 | None => acc
                 end) (auth_connections s) 0) b = true <->
    exists a' c', a' ∈ auth_connections s /\
      <[a := set_handshake (hs_pid h) (hs_auth_mechanisms h) c]> (conns s) !! a' = Some c' /\
      Z.testbit (conn_available_auth_mechs c') b = true).
  { intros b. rewrite fold_mechs_bit, Z.testbit_0_l. split.
    - intros [?|?]; [discriminate|assumption].
    - auto. }
  split; [apply lookup_insert_eq|]. split; [exact Hbits|]. split.
  - intros b Hb. apply Hbits. exists a. eexists. split; [exact Hin|].
    split; [apply lookup_insert_eq|exact Hb].
  - intros a' s'. unfold auth_connection_destroy.
    destruct (conns s' !! a') as [c'|]; [|reflexivity].
    destruct (fd c' =? -1); [reflexivity|]. cbv zeta. unfold auth_connection_unref.
    destruct (handshake_received c'); simpl negb; cbv iota; simpl conns;
      rewrite lookup_insert_eq; destruct (_ >? 0); reflexivity.
Qed.

(** *** Looking for workers *)

Lemma new_flag (e : dir_entry) (s : state) :
  (auth_connection_new e s).1 = negb (d_fd e =? -1) && negb (d_peer_gone e).
Proof.
  unfold auth_connection_new. destruct (d_fd e =? -1); [reflexivity|].
  cbv zeta. unfold o_stream_send. simpl peer_gone.
  destruct (d_peer_gone e); reflexivity.
Qed.

Lemma connect_entries_flag (entries : list dir_entry) :
  forall s, auth_reconnect (connect_entries entries s) = false ->
            auth_reconnect s = false \/ exists e, e ∈ entries /\ connects e = true.
Proof.
  induction entries as [|e rest IH]; intros s Hflag; simpl in Hflag; [auto|].
  assert (Hskip : auth_reconnect (connect_entries rest s) = false ->
                  auth_reconnect s = false \/
                  exists e0, e0 ∈ e :: rest /\ connects e0 = true).
  { intros Hf. destruct (IH s Hf) as [?|(e0 & Hin & Hok)]; [auto|].
    right. exists e0. split; [right; exact Hin|exact Hok]. }
  assert (Hmain :
    match auth_connection_find (conns s) (auth_connections s) (d_name e) with
    | Some _ => connect_entries rest s
    | None =>
        if d_is_sock e
        then let '(ok, s0) := auth_connection_new e s in
             connect_entries rest (if ok then set_auth_reconnect false s0 else s0)
        else connect_entries rest s
    end = connect_entries (e :: rest) s \/
    connect_entries rest s = connect_entries (e :: rest) s).
  { simpl. destruct (d_name e) as [|ch tl]; [left; reflexivity|].
    destruct (Ascii.eqb_spec ch "."%char) as [->|Hne]; [right; reflexivity|].
    left. destruct ch as [[] [] [] [] [] [] [] []]; try reflexivity. congruence. }
  change (auth_reconnect (connect_entries (e :: rest) s) = false) in Hflag.
  destruct Hmain as [E|E]; rewrite <- E in Hflag; [|apply Hskip; exact Hflag].
  destruct (auth_connection_find _ _ _); [apply Hskip; exact Hflag|].
  destruct (d_is_sock e) eqn:Hsock; [|apply Hskip; exact Hflag].
  pose proof (new_flag e s) as Hnew.
  destruct (auth_connection_new e s) as [ok s0] eqn:Hrun. simpl in Hnew.
  destruct ok.
  - right. exists e. split; [left|]. unfold connects. rewrite Hsock. simpl.
    symmetry. exact Hnew.
  - destruct (IH s0 Hflag) as [Hs0|(e0 & Hin & Hok)].
    + left. revert Hs0. replace s0 with (auth_connection_new e s).2 by (rewrite Hrun; reflexivity).
      unfold auth_connection_new. destruct (d_fd e =? -1); [discriminate|].
      cbv zeta. destruct (_ <? 0); simpl.
      * match goal with |- context [auth_connection_destroy ?a0 ?s1] =>
          destruct (conns s1 !! a0) as [c1|] eqn:Hc1;
            [destruct (Z.eq_dec (fd c1) (-1)) as [Hfd|Hfd]|]
        end.
        -- rewrite destroy_noop; [auto|]. intros c2 Hc2. congruence.
        -- match goal with |- context [auth_connection_destroy ?a0 ?s1] =>
             destruct (destroy_open a0 s1 c1 Hc1 Hfd) as (_ & _ & _ & _ & _ & _ & -> & _)
           end. auto.
        -- rewrite destroy_noop; [auto|]. intros c2 Hc2. congruence.
      * auto.
    + right. exists e0. split; [right; exact Hin|exact Hok].
Qed.

(** X23.  [auth_connect_missing] clears [auth_reconnect] only by making a
    connection: when the flag is unset afterwards, the directory could be
    read and holds a socket that could be connected and took the handshake
    request. *)
Theorem reconnect_cleared_only_by_new_connection (s : state) :
  auth_reconnect (auth_connect_missing s) = false ->
  exists entries e, socket_dir s = Some entries /\ e ∈ entries /\ connects e = true.
Proof.
  unfold auth_connect_missing. cbv zeta. simpl socket_dir.
  destruct (socket_dir s) as [entries|]; [|discriminate].
  intros Hflag. apply connect_entries_flag in Hflag as [Habs|(e & Hin & Hok)];
    [discriminate|].
  exists entries, e. auto.
Qed.

(** X24.  When every entry of the directory is hidden, is no socket or
    is connected already, [auth_connect_missing] makes no connection and
    leaves [auth_reconnect] set: nothing else of the state changes, and
    [auth_is_connected] is FALSE afterwards although no worker is
    missing. *)
Theorem nothing_missing_leaves_reconnect_set (s : state) (entries : list dir_entry) :
  socket_dir s = Some entries ->
  (forall e, e ∈ entries ->
     d_is_sock e = false \/
     (exists tl, d_name e = String "."%char tl) \/
     is_Some (auth_connection_find (conns s) (auth_connections s) (d_name e))) ->
  auth_connect_missing s = set_auth_reconnect true s /\
  auth_is_connected (auth_connect_missing s) = false.
Proof.
  intros Hdir Hall.
  assert (E : auth_connect_missing s = set_auth_reconnect true s).
  { unfold auth_connect_missing. cbv zeta. simpl socket_dir. rewrite Hdir.
    assert (Hall' : forall e, e ∈ entries ->
       d_is_sock e = false \/
       (exists tl, d_name e = String "."%char tl) \/
       is_Some (auth_connection_find (conns (set_auth_reconnect true s))
                  (auth_connections (set_auth_reconnect true s)) (d_name e)))
      by exact Hall.
    clear Hall Hdir. revert Hall'. generalize (set_auth_reconnect true s). intros s0.
    induction entries as [|e rest IH]; intros Hall; [reflexivity|].
    assert (Hrest : connect_entries rest s0 = s0).
    { apply IH. intros e0 Hin. apply Hall. right. exact Hin. }
    simpl. destruct (Hall e ltac:(left)) as [Hsock|[[tl Hdot]|[a Hfound]]].
    - rewrite Hsock. destruct (d_name e) as [|ch tl]; [|destruct ch as [[] [] [] [] [] [] [] []]];
        try exact Hrest;
        destruct (auth_connection_find (conns s0) (auth_connections s0) _); exact Hrest.
    - rewrite Hdot. exact Hrest.
    - rewrite Hfound.
      destruct (d_name e) as [|ch tl]; [|destruct ch as [[] [] [] [] [] [] [] []]];
        exact Hrest. }
  split; [exact E|]. rewrite E. reflexivity.
Qed.

(** *** The registry and the count of pending handshakes *)

Lemma u32_succ (n : Z) : u32 (u32 n + 1) = u32 (n + 1).
Proof. unfold u32. apply Zplus_mod_idemp_l. Qed.

Lemma u32_pred (n : Z) : u32 (u32 n - 1) = u32 (n - 1).
Proof. unfold u32. apply Zminus_mod_idemp_l. Qed.

Lemma count_waiting_ext (heap heap' : gmap addr auth_connection) (l : list addr) :
  (forall a, a ∈ l -> handshake_received <$> heap' !! a = handshake_received <$> heap !! a) ->
  count_waiting heap' l = count_waiting heap l.
Proof.
  induction l as [|a rest IH]; intros Hsame; simpl; [reflexivity|].
  rewrite IH by (intros x Hx; apply Hsame; right; exact Hx).
  specialize (Hsame a ltac:(left)).
  destruct (heap' !! a) as [c'|], (heap !! a) as [c|]; simpl in Hsame;
    inversion Hsame as [E]; try rewrite E; reflexivity.
Qed.

Lemma unlink_conn_absent (a : addr) (l : list addr) : a ∉ l -> unlink_conn a l = l.
Proof.
  induction l as [|b rest IH]; intros Hnin; simpl; [reflexivity|].
  apply not_elem_of_cons in Hnin as [Hne Hrest].
  destruct (Nat.eqb_spec b a) as [?|_]; [congruence|]. rewrite IH by exact Hrest.
  reflexivity.
Qed.

Lemma elem_of_unlink_conn (a x : addr) (l : list addr) :
  NoDup l -> x ∈ unlink_conn a l <-> x ∈ l /\ x <> a.
Proof.
  induction l as [|b rest IH]; intros Hnd; simpl.
  - split; [intros Hin|intros [Hin _]]; apply elem_of_nil in Hin; contradiction.
  - apply NoDup_cons in Hnd as [Hb Hrest].
    destruct (Nat.eqb_spec b a) as [->|Hne].
    + rewrite elem_of_cons. split.
      * intros Hin. split; [right; exact Hin|]. intros ->. contradiction.
      * intros [[?|Hin] Hx]; [contradiction|exact Hin].
    + rewrite !elem_of_cons, (IH Hrest). split.
      * intros [->|[Hin Hx]]; [split; [left; reflexivity|exact Hne]|].
        split; [right; exact Hin|exact Hx].
      * intros [[->|Hin] Hx]; [left; reflexivity|right; auto].
Qed.

Lemma NoDup_unlink_conn (a : addr) (l : list addr) : NoDup l -> NoDup (unlink_conn a l).
Proof.
  induction l as [|b rest IH]; intros Hnd; simpl; [exact Hnd|].
  apply NoDup_cons in Hnd as [Hb Hrest].
  destruct (Nat.eqb_spec b a) as [->|Hne]; [exact Hrest|].
  apply NoDup_cons. split; [|apply IH; exact Hrest].
  intros Hin. apply (elem_of_unlink_conn a b rest Hrest) in Hin as [Hin _]. contradiction.
Qed.

Lemma count_waiting_unlink (heap : gmap addr auth_connection) (a : addr) (l : list addr) :
  a ∈ l ->
  count_waiting heap l = (waits heap a + count_waiting heap (unlink_conn a l))%nat.
Proof.
  induction l as [|b rest IH]; intros Hin; simpl.
  - apply elem_of_nil in Hin. contradiction.
  - destruct (Nat.eqb_spec b a) as [->|Hne]; [reflexivity|].
    apply elem_of_cons in Hin as [?|Hin]; [congruence|].
    simpl. rewrite (IH Hin). unfold waits. lia.
Qed.

(** A state with the same list, count and descriptors, in which every
    connection has kept its handshake flag, is in order as well. *)
Lemma registry_ok_same (s s' : state) :
  registry_ok s ->
  auth_connections s' = auth_connections s ->
  auth_waiting_handshake_count s' = auth_waiting_handshake_count s ->
  (next_addr s <= next_addr s')%nat ->
  (forall a, (fun c => (fd c, handshake_received c)) <$> conns s' !! a
             = (fun c => (fd c, handshake_received c)) <$> conns s !! a) ->
  registry_ok s'.
Proof.
  intros (Hnd & Hlist & Hbelow & Hcount) El Ec En Eh.
  assert (Hlook : forall a c', conns s' !! a = Some c' ->
            exists c, conns s !! a = Some c /\ fd c = fd c' /\
                      handshake_received c = handshake_received c').
  { intros a c' Hc'. specialize (Eh a). rewrite Hc' in Eh.
    destruct (conns s !! a) as [c|]; [|discriminate]. simpl in Eh.
    inversion Eh. exists c. auto. }
  assert (Hlook' : forall a c, conns s !! a = Some c ->
            exists c', conns s' !! a = Some c' /\ fd c = fd c' /\
                       handshake_received c = handshake_received c').
  { intros a c Hc. specialize (Eh a). rewrite Hc in Eh.
    destruct (conns s' !! a) as [c'|]; [|discriminate]. simpl in Eh.
    inversion Eh. exists c'. auto. }
  unfold registry_ok. rewrite El, Ec. split; [exact Hnd|]. split; [|split].
  - intros a. rewrite Hlist. split.
    + intros (c & Hc & Hfd). destruct (Hlook' a c Hc) as (c' & Hc' & Efd & _).
      exists c'. split; [exact Hc'|congruence].
    + intros (c' & Hc' & Hfd). destruct (Hlook a c' Hc') as (c & Hc & Efd & _).
      exists c. split; [exact Hc|congruence].
  - intros a c' Hc'. destruct (Hlook a c' Hc') as (c & Hc & _).
    specialize (Hbelow a c Hc). lia.
  - rewrite Hcount. f_equal. f_equal. symmetry. apply count_waiting_ext.
    intros a _. specialize (Eh a).
    destruct (conns s' !! a) as [c'|], (conns s !! a) as [c|]; simpl in *;
      inversion Eh; reflexivity.
Qed.

Lemma destroy_registry_ok (a : addr) (s : state) :
  registry_ok s -> registry_ok (auth_connection_destroy a s).
Proof.
  intros Hok.
  destruct (conns s !! a) as [c|] eqn:Hc;
    [destruct (Z.eq_dec (fd c) (-1)) as [Hfd|Hfd]|].
  - rewrite destroy_noop; [exact Hok|]. intros c' Hc'. congruence.
  - destruct (destroy_open a s c Hc Hfd)
      as (El & Ec & _ & Econns & _ & _ & _ & _ & En & _).
    destruct Hok as (Hnd & Hlist & Hbelow & Hcount).
    assert (Hin : a ∈ auth_connections s) by (apply Hlist; eauto).
    assert (Hheap : forall x, x <> a ->
              conns (auth_connection_destroy a s) !! x = conns s !! x).
    { intros x Hx. rewrite Econns. destruct (_ >? 0).
      - apply lookup_insert_ne. congruence.
      - apply lookup_delete_ne. congruence. }
    assert (Hgone : forall c', conns (auth_connection_destroy a s) !! a = Some c' ->
                               fd c' = -1) by (intros c'; apply destroy_closed).
    unfold registry_ok. rewrite El, En. split; [apply NoDup_unlink_conn; exact Hnd|].
    split; [|split].
    + intros x. rewrite (elem_of_unlink_conn a x _ Hnd), Hlist. split.
      * intros [(cx & Hcx & Hfdx) Hx]. exists cx. rewrite (Hheap x Hx). auto.
      * intros (cx & Hcx & Hfdx).
        destruct (decide (x = a)) as [->|Hx]; [exfalso; apply Hfdx, Hgone; exact Hcx|].
        rewrite (Hheap x Hx) in Hcx. split; [eauto|exact Hx].
    + intros x cx Hcx. destruct (decide (x = a)) as [->|Hx]; [eapply Hbelow; exact Hc|].
      rewrite (Hheap x Hx) in Hcx. eapply Hbelow; exact Hcx.
    + rewrite Ec, Hcount, (count_waiting_unlink _ a _ Hin).
      assert (Erest : count_waiting (conns (auth_connection_destroy a s))
                        (unlink_conn a (auth_connections s))
                      = count_waiting (conns s) (unlink_conn a (auth_connections s))).
      { apply count_waiting_ext. intros x Hx.
        apply (elem_of_unlink_conn a x _ Hnd) in Hx as [_ Hx]. rewrite (Hheap x Hx).
        reflexivity. }
      rewrite Erest. unfold waits. rewrite Hc.
      destruct (handshake_received c); [reflexivity|].
      rewrite u32_pred. f_equal. lia.
  - rewrite destroy_noop; [exact Hok|]. intros c' Hc'. congruence.
Qed.

Lemma new_registry_ok (e : dir_entry) (s : state) :
  registry_ok s -> registry_ok (auth_connection_new e s).2.
Proof.
  intros Hok. unfold auth_connection_new.
  destruct (Z.eqb_spec (d_fd e) (-1)) as [Hfd|Hfd].
  { simpl. eapply registry_ok_same; [exact Hok|reflexivity..|simpl; lia|reflexivity]. }
  cbv zeta.
  match goal with |- context [if _ then (false, auth_connection_destroy _ (add_log _ ?s1))
                              else _] =>
    assert (Hnew : registry_ok s1); [|set (s1' := s1) in *]
  end.
  { destruct Hok as (Hnd & Hlist & Hbelow & Hcount).
    assert (Hfresh : conns s !! next_addr s = None).
    { destruct (conns s !! next_addr s) as [c|] eqn:Hc; [|reflexivity].
      specialize (Hbelow _ _ Hc). lia. }
    assert (Hnin : next_addr s ∉ auth_connections s).
    { intros Hin. apply Hlist in Hin as (c & Hc & _). congruence. }
    unfold registry_ok. simpl. split; [apply NoDup_cons; auto|]. split; [|split].
    - intros x. rewrite elem_of_cons, Hlist. split.
      + intros [->|(c & Hc & Hfdc)].
        * eexists. split; [apply lookup_insert_eq|]. exact Hfd.
        * exists c. split; [|exact Hfdc]. rewrite lookup_insert_ne; [exact Hc|].
          intros <-. congruence.
      + intros (c & Hc & Hfdc). destruct (decide (x = next_addr s)) as [->|Hx]; [auto|].
        right. rewrite lookup_insert_ne in Hc by congruence. eauto.
    - intros x c Hc. destruct (decide (x = next_addr s)) as [->|Hx]; [lia|].
      rewrite lookup_insert_ne in Hc by congruence. specialize (Hbelow _ _ Hc). lia.
    - rewrite lookup_insert_eq. simpl.
      rewrite (count_waiting_ext (conns s)).
      + rewrite Hcount, u32_succ. f_equal. lia.
      + intros x Hx. rewrite lookup_insert_ne; [reflexivity|]. intros <-. contradiction. }
  destruct (_ <? 0); simpl; [|exact Hnew].
  apply destroy_registry_ok.
  eapply registry_ok_same; [exact Hnew|reflexivity..|simpl; lia|reflexivity].
Qed.

Lemma connect_entries_registry_ok (entries : list dir_entry) :
  forall s, registry_ok s -> registry_ok (connect_entries entries s).
Proof.
  induction entries as [|e rest IH]; intros s Hok; simpl; [exact Hok|].
  assert (Hnext : registry_ok
    match auth_connection_find (conns s) (auth_connections s) (d_name e) with
    | Some _ => connect_entries rest s
    | None =>
        if d_is_sock e
        then let '(ok, s0) := auth_connection_new e s in
             connect_entries rest (if ok then set_auth_reconnect false s0 else s0)
        else connect_entries rest s
    end).
  { destruct (auth_connection_find _ _ _); [apply IH; exact Hok|].
    destruct (d_is_sock e); [|apply IH; exact Hok].
    pose proof (new_registry_ok e s Hok) as Hnew.
    destruct (auth_connection_new e s) as [ok s0]. simpl in Hnew. apply IH.
    destruct ok; [|exact Hnew].
    eapply registry_ok_same; [exact Hnew|reflexivity..|simpl; lia|reflexivity]. }
  destruct (d_name e) as [|ch tl]; [exact Hnext|].
  destruct ch as [[] [] [] [] [] [] [] []]; try exact Hnext. apply IH. exact Hok.
Qed.

Lemma connect_missing_registry_ok (s : state) :
  registry_ok s -> registry_ok (auth_connect_missing s).
Proof.
  intros Hok. unfold auth_connect_missing. cbv zeta. simpl socket_dir.
  assert (Hs : registry_ok (set_auth_reconnect true s))
    by (eapply registry_ok_same; [exact Hok|reflexivity..|simpl; lia|reflexivity]).
  destruct (socket_dir s) as [entries|].
  - apply connect_entries_registry_ok. exact Hs.
  - eapply registry_ok_same; [exact Hs|reflexivity..|simpl; lia|reflexivity].
Qed.

Lemma same_shape_insert (heap : gmap addr auth_connection) (a : addr)
    (c c' : auth_connection) :
  heap !! a = Some c -> fd c' = fd c -> handshake_received c' = handshake_received c ->
  forall x, (fun c => (fd c, handshake_received c)) <$> <[a := c']> heap !! x
            = (fun c => (fd c, handshake_received c)) <$> heap !! x.
Proof.
  intros Hc Hfd Hhs x. destruct (decide (x = a)) as [->|Hx].
  - rewrite lookup_insert_eq, Hc. simpl. rewrite Hfd, Hhs. reflexivity.
  - rewrite lookup_insert_ne by congruence. reflexivity.
Qed.

Lemma handshake_registry_ok (a : addr) (h : auth_login_handshake_output) (s : state) :
  registry_ok s ->
  (exists c, conns s !! a = Some c /\ fd c <> -1 /\ handshake_received c = false) ->
  registry_ok (auth_handle_handshake a h s).
Proof.
  intros Hok (c & Hc & Hfd & Hhs). unfold auth_handle_handshake.
  destruct (hs_pid h =? 0).
  { apply destroy_registry_ok.
    eapply registry_ok_same; [exact Hok|reflexivity..|simpl; lia|reflexivity]. }
  rewrite Hc. cbv zeta.
  destruct Hok as (Hnd & Hlist & Hbelow & Hcount).
  assert (Hin : a ∈ auth_connections s) by (apply Hlist; eauto).
  set (c' := set_handshake (hs_pid h) (hs_auth_mechanisms h) c).
  unfold registry_ok, update_available_auth_mechs. simpl.
  split; [exact Hnd|]. split; [|split].
  - intros x. rewrite Hlist. split.
    + intros (cx & Hcx & Hfdx). destruct (decide (x = a)) as [->|Hx].
      * exists c'. split; [apply lookup_insert_eq|exact Hfd].
      * exists cx. rewrite lookup_insert_ne by congruence. auto.
    + intros (cx & Hcx & Hfdx). destruct (decide (x = a)) as [->|Hx]; [eauto|].
      rewrite lookup_insert_ne in Hcx by congruence. eauto.
  - intros x cx Hcx. destruct (decide (x = a)) as [->|Hx]; [eapply Hbelow; exact Hc|].
    rewrite lookup_insert_ne in Hcx by congruence. eapply Hbelow; exact Hcx.
  - rewrite Hcount, u32_pred. f_equal.
    rewrite (count_waiting_unlink (conns s) a _ Hin).
    rewrite (count_waiting_unlink (<[a := c']> (conns s)) a _ Hin).
    rewrite (count_waiting_ext (conns s) (<[a := c']> (conns s))).
    + unfold waits. rewrite Hc, Hhs, lookup_insert_eq. simpl. lia.
    + intros x Hx. apply (elem_of_unlink_conn a x _ Hnd) in Hx as [_ Hx].
      rewrite lookup_insert_ne by congruence. reflexivity.
Qed.

Lemma step_registry_ok (size : Z) (o : op) (s : state) :
  registry_ok s -> guarded s o -> registry_ok (step size o s).
Proof.
  intros Hok Hguard. destruct o as [mech protocol context|a reply|r n|r|a h|a|]; simpl.
  - unfold auth_init_request.
    assert (Hs1 : registry_ok (if auth_reconnect s then auth_connect_missing s else s))
      by (destruct (auth_reconnect s); [apply connect_missing_registry_ok|]; exact Hok).
    set (s1 := if auth_reconnect s then auth_connect_missing s else s) in *.
    unfold auth_connection_get.
    destruct (get_loop (conns s1) (auth_connections s1) mech size false) as [[a|] found].
    + cbv zeta.
      set (counter := u32 (request_id_counter s1 + 1)).
      set (idc := if counter =? 0 then (u32 (counter + 1), u32 (counter + 1))
                  else (counter, counter)).
      destruct idc as [id cnt]. simpl conns.
      destruct (conns s1 !! a) as [c|] eqn:Hc; simpl.
      * match goal with |- context [auth_connection_destroy a (add_log _ ?s2)] =>
          assert (Hs2 : registry_ok s2)
        end.
        { eapply registry_ok_same; [exact Hs1|reflexivity..|simpl; lia|].
          simpl. apply (same_shape_insert _ _ c); [exact Hc|reflexivity..]. }
        destruct (_ <? 0); simpl; [|exact Hs2].
        apply destroy_registry_ok.
        eapply registry_ok_same; [exact Hs2|reflexivity..|simpl; lia|reflexivity].
      * eapply registry_ok_same; [exact Hs1|reflexivity..|simpl; lia|reflexivity].
    + destruct found; simpl.
      * eapply registry_ok_same; [exact Hs1|reflexivity..|simpl; lia|reflexivity].
      * destruct (_ =? 0); simpl; [exact Hs1|].
        eapply registry_ok_same; [exact Hs1|reflexivity..|simpl; lia|reflexivity].
  - unfold auth_handle_reply. destruct (conns s !! a) as [c|] eqn:Hc; [|exact Hok].
    destruct (requests c !! reply_id reply) as [r|].
    + destruct (negb _); simpl reqs.
      * destruct (reqs s !! r) as [req|].
        -- eapply registry_ok_same; [exact Hok|reflexivity..|simpl; lia|].
           simpl. apply (same_shape_insert _ _ c); [exact Hc|reflexivity..].
        -- eapply registry_ok_same; [exact Hok|reflexivity..|simpl; lia|reflexivity].
      * eapply registry_ok_same; [exact Hok|reflexivity..|simpl; lia|reflexivity].
    + eapply registry_ok_same; [exact Hok|reflexivity..|simpl; lia|reflexivity].
  - unfold auth_continue_request. destruct (reqs s !! r) as [req|]; [|exact Hok].
    destruct (conns s !! r_conn req) as [c|]; [|exact Hok].
    destruct (_ || _); [|exact Hok]. apply destroy_registry_ok.
    eapply registry_ok_same; [exact Hok|reflexivity..|simpl; lia|reflexivity].
  - unfold auth_abort_request. destruct (reqs s !! r) as [req|]; [|exact Hok].
    destruct (conns s !! r_conn req) as [c|] eqn:Hc.
    + destruct (requests c !! r_id req).
      * eapply registry_ok_same; [exact Hok|reflexivity..|simpl; lia|].
        simpl. apply (same_shape_insert _ _ c); [exact Hc|reflexivity..].
      * eapply registry_ok_same; [exact Hok|reflexivity..|simpl; lia|reflexivity].
    + eapply registry_ok_same; [exact Hok|reflexivity..|simpl; lia|reflexivity].
  - apply handshake_registry_ok; assumption.
  - apply destroy_registry_ok.
    eapply registry_ok_same; [exact Hok|reflexivity..|simpl; lia|reflexivity].
  - destruct (auth_reconnect s); [apply connect_missing_registry_ok|]; exact Hok.
Qed.

Lemma run_registry_ok (size : Z) (ops : list op) :
  forall s, registry_ok s -> all_guarded size ops s -> registry_ok (run size ops s).
Proof.
  induction ops as [|o rest IH]; intros s Hok Hguard; [exact Hok|].
  destruct Hguard as [Ho Hrest]. simpl. apply IH; [|exact Hrest].
  apply step_registry_ok; assumption.
Qed.

Lemma init_registry_ok (dir : option (list dir_entry)) :
  registry_ok (auth_connection_init dir).
Proof.
  unfold auth_connection_init. apply connect_missing_registry_ok.
  unfold registry_ok. simpl. split; [apply NoDup_nil_2|]. split; [|split].
  - intros a. split.
    + intros Hin. apply elem_of_nil in Hin. contradiction.
    + intros (c & Hc & _). rewrite lookup_empty in Hc. discriminate.
  - intros a c Hc. rewrite lookup_empty in Hc. discriminate.
  - reflexivity.
Qed.

(** X25.  The registry stays in order: from [auth_connection_init] on,
    whatever requests, replies, aborts, disconnects, timeouts and guarded
    handshakes follow, no connection is listed twice, the listed
    connections are exactly the ones with an open descriptor, and
    [auth_waiting_handshake_count] is the number of listed connections that
    have not completed their handshake. *)
Theorem registry_stays_in_order (size : Z) (dir : option (list dir_entry))
    (ops : list op) :
  all_guarded size ops (auth_connection_init dir) ->
  registry_ok (run size ops (auth_connection_init dir)).
Proof.
  intros Hguard. apply run_registry_ok; [apply init_registry_ok|exact Hguard].
Qed.

Lemma count_waiting_zero (heap : gmap addr auth_connection) (l : list addr) :
  count_waiting heap l = 0%nat <->
  forall a c, a ∈ l -> heap !! a = Some c -> handshake_received c = true.
Proof.
  induction l as [|a rest IH]; simpl.
  - split; [|reflexivity]. intros _ a c Hin. apply elem_of_nil in Hin. contradiction.
  - split.
    + intros Hz x c Hin Hc. apply elem_of_cons in Hin as [->|Hin].
      * rewrite Hc in Hz. destruct (handshake_received c); [reflexivity|discriminate].
      * apply (proj1 IH ltac:(lia) x c Hin Hc).
    + intros Hall. rewrite (proj2 IH) by (intros x c Hin; apply Hall; right; exact Hin).
      destruct (heap !! a) as [c|] eqn:Hc; [|reflexivity].
      rewrite (Hall a c ltac:(left) Hc). reflexivity.
Qed.

Lemma count_waiting_le (heap : gmap addr auth_connection) (l : list addr) :
  (count_waiting heap l <= length l)%nat.
Proof.
  induction l as [|a rest IH]; simpl; [lia|].
  destruct (heap !! a) as [c|]; [destruct (handshake_received c)|]; lia.
Qed.

(** X26.  With the registry in order and fewer than 2^32 connections,
    [auth_is_connected] is TRUE exactly when no reconnect is pending and
    every listed connection has completed its handshake. *)
Theorem is_connected_means_all_handshakes_done (s : state) :
  registry_ok s -> Z.of_nat (length (auth_connections s)) < 2 ^ 32 ->
  (auth_is_connected s = true <->
   auth_reconnect s = false /\
   forall a, a ∈ auth_connections s ->
     exists c, conns s !! a = Some c /\ handshake_received c = true).
Proof.
  intros (Hnd & Hlist & Hbelow & Hcount) Hlen. unfold auth_is_connected.
  rewrite andb_true_iff, negb_true_iff, Z.eqb_eq, Hcount.
  pose proof (count_waiting_le (conns s) (auth_connections s)) as Hle.
  rewrite u32_small by lia.
  split; intros [Hrec Hall]; (split; [exact Hrec|]).
  - intros a Hin. destruct (proj1 (Hlist a) Hin) as (c & Hc & _). exists c.
    split; [exact Hc|].
    assert (Hz : count_waiting (conns s) (auth_connections s) = 0%nat) by lia.
    apply (proj1 (count_waiting_zero _ _) Hz a c Hin Hc).
  - assert (count_waiting (conns s) (auth_connections s) = 0%nat); [|lia].
    apply count_waiting_zero. intros a c Hin Hc.
    destruct (Hall a Hin) as (c' & Hc' & Hhs). congruence.
Qed.

(** *** Shutting down *)

Lemma set_auth_connections_id (s : state) : set_auth_connections (auth_connections s) s = s.
Proof. destruct s; reflexivity. Qed.

Lemma destroy_log (a : addr) (s : state) :
  exists tail, log (auth_connection_destroy a s) = log s ++ tail.
Proof.
  destruct (conns s !! a) as [c|] eqn:Hc;
    [destruct (Z.eq_dec (fd c) (-1)) as [Hfd|Hfd]|].
  - rewrite destroy_noop; [exists []; symmetry; apply app_nil_r|].
    intros c' Hc'. congruence.
  - destruct (destroy_open a s c Hc Hfd) as (_ & _ & -> & _). eauto.
  - rewrite destroy_noop; [exists []; symmetry; apply app_nil_r|].
    intros c' Hc'. congruence.
Qed.

Lemma deinit_loop_spec (l : list addr) :
  forall s, registry_ok s -> auth_connections s = l ->
    auth_connections (deinit_loop l s) = [] /\
    registry_ok (deinit_loop l s) /\
    (exists tail, log (deinit_loop l s) = log s ++ tail) /\
    forall a c id r, a ∈ l -> conns s !! a = Some c -> requests c !! id = Some r ->
                     EvCallback r None ∈ log (deinit_loop l s).
Proof.
  induction l as [|a rest IH]; intros s Hok Hl; simpl.
  - split; [exact Hl|]. split; [exact Hok|]. split.
    + exists []. symmetry. apply app_nil_r.
    + intros a c id r Hin. apply elem_of_nil in Hin. contradiction.
  - assert (Hin : a ∈ auth_connections s) by (rewrite Hl; left).
    pose proof Hok as (Hnd & Hlist & _).
    destruct (proj1 (Hlist a) Hin) as (c & Hc & Hfd).
    destruct (destroy_open a s c Hc Hfd) as (El & _ & Elog & Econns & _).
    assert (Erest : auth_connections (auth_connection_destroy a s) = rest).
    { rewrite El, Hl. simpl. rewrite Nat.eqb_refl. reflexivity. }
    assert (Eset : set_auth_connections rest (auth_connection_destroy a s)
                   = auth_connection_destroy a s)
      by (rewrite <- Erest; apply set_auth_connections_id).
    rewrite !Eset.
    destruct (IH (auth_connection_destroy a s) (destroy_registry_ok a s Hok) Erest)
      as (Hempty & Hok' & (tail & Htail) & Hcalls).
    split; [exact Hempty|]. split; [exact Hok'|]. split.
    + exists (null_callbacks c ++ tail). rewrite Htail, Elog, app_assoc. reflexivity.
    + intros x cx id r Hx Hcx Hr. apply elem_of_cons in Hx as [->|Hx].
      * rewrite Htail, Elog. apply elem_of_app. left. apply elem_of_app. right.
        assert (cx = c) by congruence. subst cx.
        unfold null_callbacks. apply list_elem_of_fmap. exists (id, r).
        split; [reflexivity|]. apply elem_of_map_to_list. exact Hr.
      * apply (Hcalls x cx id r Hx); [|exact Hr].
        assert (Hne : x <> a).
        { intros ->. rewrite Hl in Hnd. apply NoDup_cons in Hnd as [Hnin _].
          contradiction. }
        rewrite Econns. destruct (_ >? 0).
        -- rewrite lookup_insert_ne by congruence. exact Hcx.
        -- rewrite lookup_delete_ne by congruence. exact Hcx.
Qed.

(** X27.  [auth_connection_deinit] on a registry in order empties it:
    afterwards no connection is listed, none has an open descriptor, the
    count of pending handshakes is 0, and every request that was pending on
    a listed connection has been called back with a NULL reply. *)
Theorem deinit_closes_every_connection (s : state) :
  registry_ok s ->
  auth_connections (auth_connection_deinit s) = [] /\
  auth_waiting_handshake_count (auth_connection_deinit s) = 0 /\
  (forall a c, conns (auth_connection_deinit s) !! a = Some c -> fd c = -1) /\
  (forall a c id r, a ∈ auth_connections s -> conns s !! a = Some c ->
                    requests c !! id = Some r ->
                    EvCallback r None ∈ log (auth_connection_deinit s)).
Proof.
  intros Hok. unfold auth_connection_deinit.
  destruct (deinit_loop_spec (auth_connections s) s Hok eq_refl)
    as (Hempty & (_ & Hlist & _ & Hcount) & _ & Hcalls).
  split; [exact Hempty|]. split; [|split; [|exact Hcalls]].
  - rewrite Hcount, Hempty. reflexivity.
  - intros a c Hc. destruct (Z.eq_dec (fd c) (-1)) as [?|Hfd]; [assumption|].
    assert (Hin : a ∈ auth_connections (deinit_loop (auth_connections s) s))
      by (apply Hlist; eauto).
    rewrite Hempty in Hin. apply elem_of_nil in Hin. contradiction.
Qed.

(** *** Runs with one worker *)

(** The state with a worker connected and one request pending is in
    order. *)
Lemma churned_registry_ok : registry_ok (churned 0).
Proof.
  rewrite <- churned_start. apply run_registry_ok; [apply init_registry_ok|].
  simpl. split; [|split; [exact I|exact I]].
  eexists. split; [vm_compute; reflexivity|]. split; [discriminate|reflexivity].
Qed.

(** The worker answers the pending request with SUCCESS. *)
Lemma terminal_reply_retires_request_witness :
  let s := churned 0 in
  let reply := MkReply 1 AUTH_LOGIN_RESULT_SUCCESS 0 in
  log (auth_handle_reply 0%nat reply s) = log s ++ [EvCallback 1%nat (Some reply)] /\
  (reply_result reply = AUTH_LOGIN_RESULT_CONTINUE ->
   auth_handle_reply 0%nat reply s = add_log [EvCallback 1%nat (Some reply)] s) /\
  (reply_result reply <> AUTH_LOGIN_RESULT_CONTINUE ->
   reqs (auth_handle_reply 0%nat reply s) = delete 1%nat (reqs s) /\
   (requests <$> conns (auth_handle_reply 0%nat reply s) !! 0%nat)
   = Some (delete (reply_id reply) (requests pending_conn)) /\
   forall reply', reply_id reply' = reply_id reply ->
     auth_handle_reply 0%nat reply' (auth_handle_reply 0%nat reply s)
     = add_log [EvLog "BUG: Auth process sent us reply with unknown ID"]
         (auth_handle_reply 0%nat reply s)).
Proof.
  intros s reply.
  exact (terminal_reply_retires_request 0%nat reply s pending_conn 1%nat
           (MkRequest AUTH_MECH_PLAIN 0%nat 1 7) eq_refl eq_refl eq_refl eq_refl).
Defined.

(** The pending request is aborted. *)
Lemma aborted_request_gets_no_callback_witness :
  let s := churned 0 in
  log (auth_abort_request 1%nat s) = log s /\
  reqs (auth_abort_request 1%nat s) = delete 1%nat (reqs s) /\
  (requests <$> conns (auth_abort_request 1%nat s) !! 0%nat)
  = Some (delete 1 (requests pending_conn)) /\
  forall reply, reply_id reply = 1 ->
    auth_handle_reply 0%nat reply (auth_abort_request 1%nat s)
    = add_log [EvLog "BUG: Auth process sent us reply with unknown ID"]
        (auth_abort_request 1%nat s).
Proof.
  intros s.
  exact (aborted_request_gets_no_callback 1%nat s (MkRequest AUTH_MECH_PLAIN 0%nat 1 7)
           pending_conn eq_refl eq_refl eq_refl).
Defined.

(** The pending request takes a reference, the worker is torn down, and
    the reference is given back. *)
Lemma referenced_connection_outlives_destroy_witness :
  let s := churned 0 in
  let s1 := auth_connection_destroy 0%nat (auth_request_ref 1%nat s) in
  conns s1 !! 0%nat = Some (set_refcount 1 (set_fd (-1) pending_conn)) /\
  reqs s1 = reqs s /\
  log s1 = log s ++ null_callbacks pending_conn /\
  (refcount pending_conn = 1 ->
   conns (auth_request_unref 1%nat s1) !! 0%nat = None /\
   forall id r', requests pending_conn !! id = Some r' ->
                 reqs (auth_request_unref 1%nat s1) !! r' = None).
Proof.
  intros s s1.
  exact (referenced_connection_outlives_destroy 1%nat s
           (MkRequest AUTH_MECH_PLAIN 0%nat 1 7) pending_conn eq_refl eq_refl
           ltac:(discriminate) ltac:(reflexivity)).
Defined.


(** The worker's handshake advertises PLAIN. *)
Lemma handshake_publishes_mechanisms_witness :
  let s := auth_connection_init one_worker in
  let h := MkHandshake 5 AUTH_MECH_PLAIN in
  let c := MkConn "auth-worker" 7 1 0 0 false false ∅ 4096 false in
  conns (auth_handle_handshake 0%nat h s) !! 0%nat
  = Some (set_handshake (hs_pid h) (hs_auth_mechanisms h) c) /\
  (forall b, Z.testbit (available_auth_mechs (auth_handle_handshake 0%nat h s)) b = true <->
     exists a' c', a' ∈ auth_connections (auth_handle_handshake 0%nat h s) /\
                   conns (auth_handle_handshake 0%nat h s) !! a' = Some c' /\
                   Z.testbit (conn_available_auth_mechs c') b = true) /\
  (forall b, Z.testbit (hs_auth_mechanisms h) b = true ->
             Z.testbit (available_auth_mechs (auth_handle_handshake 0%nat h s)) b = true) /\
  (forall a' s', available_auth_mechs (auth_connection_destroy a' s')
                 = available_auth_mechs s').
Proof.
  intros s h c.
  exact (handshake_publishes_mechanisms 0%nat h s c ltac:(discriminate) eq_refl
           ltac:(left)).
Defined.

(** The first look into a directory with one worker socket. *)
Lemma reconnect_cleared_only_by_new_connection_witness :
  auth_reconnect (auth_connect_missing (cleared one_worker)) = false /\
  exists entries e, socket_dir (cleared one_worker) = Some entries /\
                    e ∈ entries /\ connects e = true.
Proof.
  split; [reflexivity|].
  exact (reconnect_cleared_only_by_new_connection (cleared one_worker) eq_refl).
Defined.

(** A second look into the directory, with the worker still connected. *)
Lemma nothing_missing_leaves_reconnect_set_witness :
  let s := auth_connection_init one_worker in
  auth_is_connected s = false /\ auth_reconnect s = false /\
  auth_connect_missing s = set_auth_reconnect true s /\
  auth_is_connected (auth_connect_missing s) = false.
Proof.
  intros s. split; [reflexivity|]. split; [reflexivity|].
  apply (nothing_missing_leaves_reconnect_set s [MkEntry "auth-worker" true 7 4096 false]);
    [reflexivity|].
  intros e Hin. apply list_elem_of_singleton in Hin as ->. right. right.
  vm_compute. eauto.
Defined.

(** A handshake, a request, its reply, a disconnect and a timeout. *)
Lemma registry_stays_in_order_witness :
  registry_ok
    (run 16 [OpHandshake 0%nat (MkHandshake 5 AUTH_MECH_PLAIN); OpInit AUTH_MECH_PLAIN 0 7;
             OpReply 0%nat (MkReply 1 AUTH_LOGIN_RESULT_SUCCESS 0); OpDisconnect 0%nat;
             OpTimeout]
       (auth_connection_init one_worker)).
Proof.
  apply registry_stays_in_order. simpl.
  split; [|repeat split].
  eexists. split; [vm_compute; reflexivity|]. split; [discriminate|reflexivity].
Defined.

(** The worker has completed its handshake and no reconnect is pending. *)
Lemma is_connected_means_all_handshakes_done_witness :
  auth_is_connected (churned 0) = true <->
  auth_reconnect (churned 0) = false /\
  forall a, a ∈ auth_connections (churned 0) ->
    exists c, conns (churned 0) !! a = Some c /\ handshake_received c = true.
Proof.
  apply (is_connected_means_all_handshakes_done (churned 0) churned_registry_ok).
  simpl. lia.
Defined.

(** Shutting down with a request pending. *)
Lemma deinit_closes_every_connection_witness :
  auth_connections (auth_connection_deinit (churned 0)) = [] /\
  auth_waiting_handshake_count (auth_connection_deinit (churned 0)) = 0 /\
  (forall a c, conns (auth_connection_deinit (churned 0)) !! a = Some c -> fd c = -1) /\
  (forall a c id r, a ∈ auth_connections (churned 0) -> conns (churned 0) !! a = Some c ->
                    requests c !! id = Some r ->
                    EvCallback r None ∈ log (auth_connection_deinit (churned 0))).
Proof.
  exact (deinit_closes_every_connection (churned 0) churned_registry_ok).
Defined.

End AuthConnectionExtFacts.

